(** * literature-reader: layout normalizer, translation client, task polling

    A shallow embedding of the logic of the server ([server/routes.py],
    [server/translator_llm.py], [server/mineru_api.py]): the layout
    normalizer, the translation client, the batch and the document
    translation, the extension check, the calls of the parsing service and
    the wait for a task, together with the properties stated about them.

    Python values are embedded as the data type [pyval] (what [json.load]
    produces); an operation that raises in Python returns [None] (or a
    [Raise] result where the message matters), and every place where the
    source catches an exception is written out. *)

From Stdlib Require Import ZArith NArith List Bool Lia Floats Ascii String.
From stdpp Require Import base option list strings gmap.
Import ListNotations.

Set Warnings "-register-all".

(** ** Python strings *)

(** A Python [str] is a sequence of Unicode code points. *)
Abbreviation str := (list N) (only parsing).

Module Str.

(** String literals of this file are written as UTF-8 text; [u] reads the
    bytes of a literal back into code points. *)
Fixpoint utf8_decode (bs : list N) : list N :=
  match bs with
  | [] => []
  | b0 :: r0 =>
    if (b0 <? 0x80)%N then b0 :: utf8_decode r0
    else if (b0 <? 0xE0)%N then
      match r0 with
      | b1 :: r1 => ((b0 - 0xC0) * 64 + (b1 - 0x80))%N :: utf8_decode r1
      | _ => []
      end
    else if (b0 <? 0xF0)%N then
      match r0 with
      | b1 :: b2 :: r2 =>
        ((b0 - 0xE0) * 4096 + (b1 - 0x80) * 64 + (b2 - 0x80))%N :: utf8_decode r2
      | _ => []
      end
    else
      match r0 with
      | b1 :: b2 :: b3 :: r3 =>
        ((b0 - 0xF0) * 262144 + (b1 - 0x80) * 4096 + (b2 - 0x80) * 64 + (b3 - 0x80))%N
          :: utf8_decode r3
      | _ => []
      end
  end.

Definition u (s : string) : str :=
  utf8_decode (map N_of_ascii (list_ascii_of_string s)).

(** [str.encode('utf-8')]: [None] is [UnicodeEncodeError] (a lone
    surrogate, which [json.load] can produce from an escape). *)
Definition encode_point (c : N) : option (list N) :=
  if (c <? 0x80)%N then Some [c]
  else if (c <? 0x800)%N then Some [0xC0 + c / 64; 0x80 + c mod 64]%N
  else if (0xD800 <=? c)%N && (c <? 0xE000)%N then None
  else if (c <? 0x10000)%N then
    Some [0xE0 + c / 4096; 0x80 + (c / 64) mod 64; 0x80 + c mod 64]%N
  else if (c <? 0x110000)%N then
    Some [0xF0 + c / 262144; 0x80 + (c / 4096) mod 64;
          0x80 + (c / 64) mod 64; 0x80 + c mod 64]%N
  else None.

Definition utf8_encode (s : str) : option (list N) :=
  bs ← mapM encode_point s; Some (concat bs).

(** The code points for which [str.isspace] holds: what [str.strip()]
    removes at both ends. *)
Definition is_space (c : N) : bool :=
  ((0x09 <=? c) && (c <=? 0x0D) || (0x1C <=? c) && (c <=? 0x20)
   || (c =? 0x85) || (c =? 0xA0) || (c =? 0x1680)
   || (0x2000 <=? c) && (c <=? 0x200A)
   || (c =? 0x2028) || (c =? 0x2029) || (c =? 0x202F) || (c =? 0x205F)
   || (c =? 0x3000))%N.

Fixpoint lstrip (s : str) : str :=
  match s with
  | c :: r => if is_space c then lstrip r else s
  | [] => []
  end.

Definition rstrip (s : str) : str := rev (lstrip (rev s)).

(** [s.strip()] *)
Definition strip (s : str) : str := rstrip (lstrip s).

Fixpoint starts_with (p s : str) : bool :=
  match p, s with
  | [], _ => true
  | a :: p', b :: s' => (a =? b)%N && starts_with p' s'
  | _ :: _, [] => false
  end.

(** [needle in hay] for two strings *)
Fixpoint contains (needle hay : str) : bool :=
  starts_with needle hay
  || match hay with
     | [] => false
     | _ :: hay' => contains needle hay'
     end.

(** [s.lower()], on the letters A-Z; the source applies it only before
    searching for ASCII needles, and other code points are left as they
    are. *)
Definition lower_point (c : N) : N :=
  if (0x41 <=? c)%N && (c <=? 0x5A)%N then (c + 32)%N else c.

Definition lower (s : str) : str := map lower_point s.

(** [sep.join(parts)] on strings *)
Fixpoint join (sep : str) (parts : list str) : str :=
  match parts with
  | [] => []
  | [p] => p
  | p :: rest => p ++ sep ++ join sep rest
  end.

End Str.

Abbreviation u := Str.u.

(** ** Python values *)

Module Py.

(** The values [json.load] builds.  A [dict] keeps its items in insertion
    order; its keys are strings and pairwise distinct. *)
Inductive pyval :=
| PNone
| PBool (b : bool)
| PInt (z : Z)
| PFloat (f : float)
| PStr (s : str)
| PList (l : list pyval)
| PDict (d : list (str * pyval)).

(** [bool(v)] *)
Definition truthy (v : pyval) : bool :=
  match v with
  | PNone => false
  | PBool b => b
  | PInt z => negb (z =? 0)%Z
  | PFloat f => negb (f =? 0)%float
  | PStr s => match s with [] => false | _ => true end
  | PList l => match l with [] => false | _ => true end
  | PDict d => match d with [] => false | _ => true end
  end.

(** [a or b] on already evaluated operands *)
Definition por (a b : pyval) : pyval := if truthy a then a else b.

(** [len(v)]; [None] is [TypeError]. *)
Definition len (v : pyval) : option nat :=
  match v with
  | PStr s => Some (length s)
  | PList l => Some (length l)
  | PDict d => Some (length d)
  | _ => None
  end.

(** The items a [for] loop over [v] visits; [None] is [TypeError]. *)
Definition iter (v : pyval) : option (list pyval) :=
  match v with
  | PList l => Some l
  | PDict d => Some (map (λ kv, PStr kv.1) d)
  | PStr s => Some (map (λ c, PStr [c]) s)
  | _ => None
  end.

Fixpoint lookup (k : str) (d : list (str * pyval)) : option pyval :=
  match d with
  | [] => None
  | (k', v) :: d' => if decide (k = k') then Some v else lookup k d'
  end.

(** [v.get(k, default)]; [None] is [AttributeError]. *)
Definition get (v : pyval) (k : str) (default : pyval) : option pyval :=
  match v with
  | PDict d => Some (from_option id default (lookup k d))
  | _ => None
  end.

Definition is_dict (v : pyval) : bool :=
  match v with PDict _ => true | _ => false end.

Definition is_list (v : pyval) : bool :=
  match v with PList _ => true | _ => false end.

(** [v == s] for a string [s] *)
Definition eq_str (v : pyval) (s : str) : bool :=
  match v with PStr t => bool_decide (t = s) | _ => false end.

(** [k in v] for a string [k]; [None] is [TypeError]. *)
Definition has (k : str) (v : pyval) : option bool :=
  match v with
  | PDict d => Some (bool_decide (is_Some (lookup k d)))
  | PList l => Some (existsb (λ x, eq_str x k) l)
  | PStr s => Some (Str.contains k s)
  | _ => None
  end.

(** [v + 1]; [None] is [TypeError]. *)
Definition add1 (v : pyval) : option pyval :=
  match v with
  | PInt z => Some (PInt (z + 1))
  | PBool b => Some (PInt ((if b then 1 else 0) + 1))
  | PFloat f => Some (PFloat (f + 1)%float)
  | _ => None
  end.

(** [v == 1] *)
Definition eq_one (v : pyval) : bool :=
  match v with
  | PInt z => (z =? 1)%Z
  | PBool b => b
  | PFloat f => (f =? 1)%float
  | _ => false
  end.

(** [v.strip()]; [None] is [AttributeError]. *)
Definition strip (v : pyval) : option str :=
  match v with PStr s => Some (Str.strip s) | _ => None end.

Definition as_str (v : pyval) : option str :=
  match v with PStr s => Some s | _ => None end.

(** [" ".join(parts)]; [None] is [TypeError] (an item that is no string). *)
Definition join_space (parts : list pyval) : option str :=
  ss ← mapM as_str parts; Some (Str.join (u " ") ss).

(** [d[k] = v] on the items of a dict: an existing key keeps its place. *)
Fixpoint set_item (k : str) (v : pyval) (d : list (str * pyval)) : list (str * pyval) :=
  match d with
  | [] => [(k, v)]
  | (k', v') :: d' => if decide (k = k') then (k, v) :: d' else (k', v') :: set_item k v d'
  end.

End Py.

Export Py.

(** ** The layout normalizer ([parse_mineru_layout_from_data], routes.py) *)

Module Layout.

(** One item of the returned list: the dict
    [{"page": .., "bbox": .., "text": .., "type": ..}]. *)
Record LayoutBlock := Block {
  page : pyval;
  bbox : pyval;
  text : str;
  type : pyval
}.

Definition to_py (b : LayoutBlock) : pyval :=
  PDict [(u "page", page b); (u "bbox", bbox b);
         (u "text", PStr (text b)); (u "type", type b)].

(** [block_type in ["text", "title"]] *)
Definition is_text_or_title (block_type : pyval) : bool :=
  eq_str block_type (u "text") || eq_str block_type (u "title").

(** [not bbox or len(bbox) < 4] *)
Definition bbox_rejected (bbox : pyval) : option bool :=
  if negb (truthy bbox) then Some true
  else (n ← len bbox; Some (n <? 4)%nat).

(** *** Format 1: [{"pdf_info": [...]}] *)

(** The body of [for span in spans]: what it appends to [text_parts]. *)
Definition span_parts (span : pyval) : option (list pyval) :=
  if is_dict span then
    content ← get span (u "content") (PStr []);
    Some (if truthy content then [content] else [])
  else Some [].

(** The body of [for line in lines]. *)
Definition line_parts (line : pyval) : option (list pyval) :=
  if is_dict line then
    spans ← get line (u "spans") (PList []);
    items ← iter spans;
    parts ← mapM span_parts items;
    Some (concat parts)
  else Some [].

(** The body of [for block in para_blocks]: what it appends to [layout]. *)
Definition para_block (page_no block : pyval) : option (list LayoutBlock) :=
  block_type ← get block (u "type") (PStr []);
  if negb (is_text_or_title block_type) then Some [] else
  bbox ← get block (u "bbox") (PList []);
  rejected ← bbox_rejected bbox;
  if (rejected : bool) then Some [] else
  lines ← get block (u "lines") (PList []);
  items ← iter lines;
  parts ← mapM line_parts items;
  joined ← join_space (concat parts);
  let text := Str.strip joined in
  Some (if truthy (PStr text) then [Block page_no bbox text block_type] else []).

(** The body of [for page_data in pdf_info]; [len(para_blocks)] is
    evaluated for the debug message. *)
Definition pdf_page (page_data : pyval) : option (list LayoutBlock) :=
  page_idx ← get page_data (u "page_idx") (PInt 0);
  page_no ← add1 page_idx;
  para_blocks ← get page_data (u "para_blocks") (PList []);
  if negb (truthy para_blocks) then Some [] else
  _ ← len para_blocks;
  blocks ← iter para_blocks;
  out ← mapM (para_block page_no) blocks;
  Some (concat out).

Definition from_pdf_info (mineru_data : pyval) : option (list LayoutBlock) :=
  pdf_info ← get mineru_data (u "pdf_info") (PList []);
  _ ← len pdf_info;
  pages ← iter pdf_info;
  out ← mapM pdf_page pages;
  Some (concat out).

(** *** Format 2: [[{"text": .., "bbox": .., "page_idx": ..}, ...]] *)

(** [isinstance(first_item, dict) and "text" in first_item
     and "page_idx" in first_item] *)
Definition is_content_item (first_item : pyval) : bool :=
  match first_item with
  | PDict d =>
    bool_decide (is_Some (lookup (u "text") d))
    && bool_decide (is_Some (lookup (u "page_idx") d))
  | _ => false
  end.

(** The body of [for item in mineru_data]. *)
Definition content_item (item : pyval) : option (list LayoutBlock) :=
  raw ← get item (u "text") (PStr []);
  text ← strip raw;
  if negb (truthy (PStr text)) then Some [] else
  bbox ← get item (u "bbox") (PList []);
  rejected ← bbox_rejected bbox;
  if (rejected : bool) then Some [] else
  page_idx ← get item (u "page_idx") (PInt 0);
  page_no ← add1 page_idx;
  block_type ← get item (u "type") (PStr (u "text"));
  text_level ← get item (u "text_level") PNone;
  let block_type := if eq_one text_level then PStr (u "title") else block_type in
  Some [Block page_no bbox text block_type].

Definition from_content_list (items : list pyval) : option (list LayoutBlock) :=
  out ← mapM content_item items;
  Some (concat out).

(** *** Format 3: [[[{"type": .., "content": .., "bbox": ..}, ...], ...]] *)

(** The body of [for block in page_blocks]. *)
Definition model_block (page_no block : pyval) : option (list LayoutBlock) :=
  if negb (is_dict block) then Some [] else
  raw ← get block (u "content") (PStr []);
  content ← strip raw;
  if negb (truthy (PStr content)) then Some [] else
  bbox ← get block (u "bbox") (PList []);
  rejected ← bbox_rejected bbox;
  if (rejected : bool) then Some [] else
  block_type ← get block (u "type") (PStr (u "text"));
  Some [Block page_no bbox content block_type].

(** The body of [for page_idx, page_blocks in enumerate(mineru_data)]. *)
Definition model_page (page_idx : nat) (page_blocks : pyval) : option (list LayoutBlock) :=
  match page_blocks with
  | PList blocks =>
    out ← mapM (model_block (PInt (Z.of_nat page_idx + 1))) blocks;
    Some (concat out)
  | _ => Some []
  end.

Definition from_model (pages : list pyval) : option (list LayoutBlock) :=
  out ← mapM id (imap model_page pages);
  Some (concat out).

(** *** Format 4: [{"pages": [...]}] *)

(** The body of [for line in lines]:
    [line.get("text", "") or line.get("content", "")]. *)
Definition legacy_line (line : pyval) : option (list pyval) :=
  if is_dict line then
    a ← get line (u "text") (PStr []);
    line_text ← (if truthy a then Some a else get line (u "content") (PStr []));
    Some (if truthy line_text then [line_text] else [])
  else Some [].

Definition zero_rect : pyval := PList [PInt 0; PInt 0; PInt 0; PInt 0].

(** [block.get("bbox") or block.get("bbox_coords") or [0, 0, 0, 0]] *)
Definition legacy_bbox (block : pyval) : option pyval :=
  a ← get block (u "bbox") PNone;
  if truthy a then Some a else
  b ← get block (u "bbox_coords") PNone;
  Some (por b zero_rect).

(** [page.get("page_no") or page.get("page") or page.get("pageNo")
     or page.get("page_idx", 0) + 1]: the sum is evaluated only when the
    three fields before it are falsy. *)
Definition legacy_page_no (page : pyval) : option pyval :=
  a ← get page (u "page_no") PNone;
  if truthy a then Some a else
  b ← get page (u "page") PNone;
  if truthy b then Some b else
  c ← get page (u "pageNo") PNone;
  if truthy c then Some c else
  d ← get page (u "page_idx") (PInt 0);
  add1 d.

(** The body of [for block_idx, block in enumerate(blocks)]. *)
Definition legacy_block (page_no block : pyval) : option (list LayoutBlock) :=
  block_type ← get block (u "type") (PStr []);
  if is_text_or_title block_type then
    lines ← get block (u "lines") (PList []);
    if negb (truthy lines) then Some [] else
    items ← iter lines;
    parts ← mapM legacy_line items;
    joined ← join_space (concat parts);
    let text := Str.strip joined in
    if truthy (PStr text) then
      bbox ← legacy_bbox block;
      Some [Block page_no bbox text block_type]
    else Some []
  else Some [].

(** The body of [for page_idx, page in enumerate(pages)]. *)
Definition legacy_page (page : pyval) : option (list LayoutBlock) :=
  page_no ← legacy_page_no page;
  blocks ← get page (u "blocks") (PList []);
  if negb (truthy blocks) then Some [] else
  _ ← len blocks;
  items ← iter blocks;
  out ← mapM (legacy_block page_no) items;
  Some (concat out).

(** From [pages = mineru_data.get("pages", [])] to the end of the [try]
    block: format 4, or no format at all (an empty layout). *)
Definition from_pages (mineru_data : pyval) : option (list LayoutBlock) :=
  pages ← get mineru_data (u "pages") (PList []);
  if truthy pages then
    _ ← len pages;
    items ← iter pages;
    out ← mapM legacy_page items;
    Some (concat out)
  else Some [].

(** *** The dispatch *)

(** The [try] block; [None] is an exception raised inside it. *)
Definition parse_try (mineru_data : pyval) : option (list LayoutBlock) :=
  if negb (truthy mineru_data) then Some [] else
  is_layout_json ← has (u "pdf_info") mineru_data;
  if (is_layout_json : bool) then from_pdf_info mineru_data else
  match mineru_data with
  | PList ((first_item :: _) as items) =>
    if is_content_item first_item then from_content_list items
    else if is_list first_item then from_model items
    else from_pages mineru_data
  | _ => from_pages mineru_data
  end.

(** [except Exception: return []] *)
Definition parse_mineru_layout_from_data (mineru_data : pyval) : list LayoutBlock :=
  default [] (parse_try mineru_data).

End Layout.

(** ** SHA-256 ([hashlib.sha256], FIPS 180-4) *)

Module Sha256.

Local Open Scope Z_scope.

Definition w32 (x : Z) : Z := x mod 2 ^ 32.
Definition add32 (x y : Z) : Z := w32 (x + y).
Definition rotr (n x : Z) : Z := w32 (Z.lor (Z.shiftr x n) (Z.shiftl x (32 - n))).
Definition xor3 (a b c : Z) : Z := Z.lxor a (Z.lxor b c).
Definition ch (x y z : Z) : Z := Z.lxor (Z.land x y) (Z.land (Z.lxor x 0xffffffff) z).
Definition maj (x y z : Z) : Z := xor3 (Z.land x y) (Z.land x z) (Z.land y z).
Definition bsig0 (x : Z) : Z := xor3 (rotr 2 x) (rotr 13 x) (rotr 22 x).
Definition bsig1 (x : Z) : Z := xor3 (rotr 6 x) (rotr 11 x) (rotr 25 x).
Definition ssig0 (x : Z) : Z := xor3 (rotr 7 x) (rotr 18 x) (Z.shiftr x 3).
Definition ssig1 (x : Z) : Z := xor3 (rotr 17 x) (rotr 19 x) (Z.shiftr x 10).

(** The first 64 primes. *)
Definition is_prime (n : nat) : bool :=
  forallb (λ d, negb (n mod d =? 0)%nat) (seq 2 (n - 2)).

Definition primes : list Z := map Z.of_nat (filter is_prime (seq 2 310)).

(** The largest [r] below [2 ^ bits] with [r ^ power <= n], found bit by
    bit. *)
Fixpoint root (power : Z) (n : Z) (bits : nat) (r : Z) : Z :=
  match bits with
  | O => r
  | S bits' =>
    let c := r + 2 ^ Z.of_nat bits' in
    root power n bits' (if c ^ power <=? n then c else r)
  end.

(** The first 32 bits of the fractional part of the [power]-th root of
    [p]. *)
Definition root_fraction (power : Z) (p : Z) : Z :=
  w32 (root power (p * 2 ^ (32 * power)) 40 0).

(** The round constants: from the cube roots of the first 64 primes. *)
Definition K : list Z := Eval vm_compute in map (root_fraction 3) primes.

Record regs := Regs { ra : Z; rb : Z; rc : Z; rd : Z; re : Z; rf : Z; rg : Z; rh : Z }.

(** The initial hash value: from the square roots of the first 8 primes. *)
Definition H0 : regs :=
  Eval vm_compute in
    match map (root_fraction 2) (take 8 primes) with
    | [a; b; c; d; e; f; g; h] => Regs a b c d e f g h
    | _ => Regs 0 0 0 0 0 0 0 0
    end.

(** The message followed by the bit 1, zeros up to 56 modulo 64 bytes,
    and the bit length on 8 bytes, big-endian. *)
Definition be_bytes (n : nat) (x : Z) : list Z :=
  map (λ i, (Z.shiftr x (8 * Z.of_nat i)) mod 256) (rev (seq 0 n)).

Definition pad (msg : list Z) : list Z :=
  let l := Z.of_nat (length msg) in
  let zeros := Z.to_nat ((55 - l) mod 64) in
  msg ++ [0x80] ++ replicate zeros 0 ++ be_bytes 8 (8 * l).

Fixpoint words (n : nat) (bs : list Z) : list Z :=
  match n, bs with
  | S n', b0 :: b1 :: b2 :: b3 :: r =>
    (b0 * 2 ^ 24 + b1 * 2 ^ 16 + b2 * 2 ^ 8 + b3) :: words n' r
  | _, _ => []
  end.

(** The message schedule, latest word first while it is extended. *)
Fixpoint extend (n : nat) (rw : list Z) : list Z :=
  match n with
  | O => rw
  | S n' =>
    let w := add32 (add32 (ssig1 (nth 1 rw 0)) (nth 6 rw 0))
                   (add32 (ssig0 (nth 14 rw 0)) (nth 15 rw 0)) in
    extend n' (w :: rw)
  end.

Definition schedule (block : list Z) : list Z :=
  rev (extend 48 (rev (words 16 block))).

Definition round (s : regs) (kw : Z * Z) : regs :=
  let t1 := add32 (add32 (add32 (rh s) (bsig1 (re s))) (add32 (ch (re s) (rf s) (rg s)) kw.1)) kw.2 in
  let t2 := add32 (bsig0 (ra s)) (maj (ra s) (rb s) (rc s)) in
  Regs (add32 t1 t2) (ra s) (rb s) (rc s) (add32 (rd s) t1) (re s) (rf s) (rg s).

Definition compress (h : regs) (block : list Z) : regs :=
  let s := fold_left round (zip K (schedule block)) h in
  Regs (add32 (ra h) (ra s)) (add32 (rb h) (rb s)) (add32 (rc h) (rc s))
       (add32 (rd h) (rd s)) (add32 (re h) (re s)) (add32 (rf h) (rf s))
       (add32 (rg h) (rg s)) (add32 (rh h) (rh s)).

Fixpoint blocks (n : nat) (h : regs) (bs : list Z) : regs :=
  match n with
  | O => h
  | S n' => blocks n' (compress h (take 64 bs)) (drop 64 bs)
  end.

Definition digest (msg : list Z) : list Z :=
  let p := pad msg in
  let h := blocks (length p / 64) H0 p in
  flat_map (be_bytes 4) [ra h; rb h; rc h; rd h; re h; rf h; rg h; rh h].

Definition hex_digit (d : Z) : N :=
  Z.to_N (if d <? 10 then 48 + d else 87 + d).

(** [hashlib.sha256(content).hexdigest()] *)
Definition hexdigest (content : list N) : str :=
  flat_map (λ b, [hex_digit (b / 16); hex_digit (b mod 16)]) (digest (map Z.of_N content)).

End Sha256.

(** ** The translation client ([translator_llm.py]) *)

Module Translator.

(** An exception: the name of its class and [str(e)]. *)
Record exn := Exn { exn_type : str; exn_msg : str }.

Inductive result (A : Type) :=
| Ok (a : A)
| Raise (e : exn).
Arguments Ok {A} a.
Arguments Raise {A} e.

(** The entries of [current_app.config] the client reads. *)
Record Config := {
  QWEN_API_KEY : str;
  QWEN_BASE_URL : str;
  QWEN_MODEL : str;
  OPENAI_API_KEY : str;
  OPENAI_BASE_URL : str;
  DEFAULT_MODEL : str
}.

(** One call of [client.chat.completions.create]: the client's credential
    and endpoint, the model, and the single user message (the temperature
    is always 0.2). *)
Record request := Request {
  api_key : str;
  base_url : str;
  model : str;
  prompt : str
}.

(** What the call does: it raises (with a class name and [str(api_error)]),
    or returns a response that is falsy or without choices, one whose first
    choice has no message, or one with [message.content]. *)
Inductive reply :=
| CallRaises (error_type error_msg : str)
| EmptyResponse
| MissingMessage
| Content (content : option str).

(** The WARNING and ERROR records the client writes, in order. *)
Inductive log_record :=
| WarnCacheRead
| WarnNoApiKey
| WarnSetQwenKey
| WarnTextTooLong
| ErrApiCall (error_msg : str)
| WarnEmptyResult
| WarnUnchanged
| WarnCacheWrite
| ErrTranslate (error_msg : str).

(** Modelled from the spec: the translation cache, "a single shared
    key-value store accessed by simple get/set", keyed by the fingerprint
    of (text, target language), holding the translated string, with a
    time-to-live.  The object behind it (Flask-Caching's [Cache]) is not
    under src/; an entry carries the time at which it expires. *)
Abbreviation store := (gmap (list N) (Z * list N)).

(** Modelled from the spec: get of that store, which is missing from
    src/: the value of an entry that has not expired ("time-to-live:
    duration after which a cached translation is considered stale"). *)
Definition store_get (s : store) (key : str) (time : Z) : option str :=
  match s !! key with
  | Some (expires, value) => if (time <? expires)%Z then Some value else None
  | None => None
  end.

(** Modelled from the spec: set of that store, which is missing from
    src/: the entry lives for [timeout] seconds from [time]. *)
Definition store_set (s : store) (key value : str) (timeout time : Z) : store :=
  <[key := ((time + timeout)%Z, value)]> s.

(** What [get_cache()] finds under [current_app.extensions['cache']]
    (line 23).  [create_app()] runs [cache.init_app(app)]
    (__init__.py, line 27), which leaves there the registry of the
    extension, a dict from the [Cache] instance to its backend, and not the
    cache: [Registry].  [Store] is an object with the get and set of the
    store above, what the docstring of [get_cache] promises; it is there
    only when something else has put it there. *)
Inductive cache_object :=
| Registry
| Store (s : store).

(** [cache.get(cache_key)]; [None] is the value [None].  On the registry
    this is [dict.get]: its only key is the [Cache] instance, so no string
    is found.  Neither object raises here. *)
Definition cache_get (c : cache_object) (key : str) (time : Z) : option str :=
  match c with
  | Registry => None
  | Store s => store_get s key time
  end.

(** [cache.set(cache_key, translated_text, timeout=timeout)]: the object
    after the call; [None] is [AttributeError], a dict has no [set]. *)
Definition cache_set (c : cache_object) (key value : str) (timeout time : Z)
    : option cache_object :=
  match c with
  | Registry => None
  | Store s => Some (Store (store_set s key value timeout time))
  end.

(** Everything outside the function: the configuration, what
    [get_cache()] returns ([None] outside an application and when the
    extension was never initialised), the clock in seconds, the
    remote endpoint (its reply to the n-th request, and the seconds the
    call takes), the requests sent so far and the log. *)
Record world := World {
  config : Config;
  cache : option cache_object;
  now : Z;
  remote : nat → request → reply * N;
  sent : list request;
  log : list log_record
}.

Definition emit (r : log_record) (w : world) : world :=
  World (config w) (cache w) (now w) (remote w) (sent w) (log w ++ [r]).

Definition nonempty (s : str) : bool :=
  match s with [] => false | _ => true end.

(** [hashlib.sha256(f"{text}_{target_lang}".encode('utf-8')).hexdigest()];
    [None] is [UnicodeEncodeError]. *)
Definition get_translation_cache_key (text target_lang : str) : option str :=
  content ← Str.utf8_encode (text ++ u "_" ++ target_lang);
  Some (Sha256.hexdigest content).

(** Lines 60-69: the lookup.  Both objects are truthy.  The [except] is
    reached when the key cannot be computed ([UnicodeEncodeError]); the
    failure is logged and ignored. *)
Definition cache_lookup (text target_lang : str) (w : world) : option str * world :=
  match cache w with
  | Some c =>
    match get_translation_cache_key text target_lang with
    | Some cache_key =>
      match cache_get c cache_key (now w) with
      | Some cached_result =>
        if nonempty cached_result then (Some cached_result, w) else (None, w)
      | None => (None, w)
      end
    | None => (None, emit WarnCacheRead w)
    end
  | None => (None, w)
  end.

(** Lines 175-182: [cache.set(cache_key, translated_text, timeout=86400)]
    inside its [try]; whatever is raised there is logged and ignored. *)
Definition cache_save (text target_lang translated_text : str) (w : world) : world :=
  match cache w with
  | Some c =>
    match get_translation_cache_key text target_lang with
    | Some cache_key =>
      match cache_set c cache_key translated_text 86400 (now w) with
      | Some c' => World (config w) (Some c') (now w) (remote w) (sent w) (log w)
      | None => emit WarnCacheWrite w
      end
    | None => emit WarnCacheWrite w
    end
  | None => w
  end.

(** [client.chat.completions.create(...)] *)
Definition create (req : request) (w : world) : reply * world :=
  let '(r, seconds) := remote w (length (sent w)) req in
  (r, World (config w) (cache w) (now w + Z.of_N seconds)%Z (remote w)
            (sent w ++ [req]) (log w)).

(** [lang_map.get(target_lang, target_lang)] *)
Definition target_lang_name (target_lang : str) : str :=
  if decide (target_lang = u "zh") then u "中文"
  else if decide (target_lang = u "en") then u "English"
  else if decide (target_lang = u "ja") then u "日本語"
  else if decide (target_lang = u "ko") then u "한국어"
  else target_lang.

Definition make_prompt (text target_lang : str) : str :=
  u "请将以下学术段落翻译成" ++ target_lang_name target_lang ++ u "，"
  ++ u "保持术语准确性和结构完整性，不要添加任何解释或注释：" ++ [10; 10]%N ++ text.

(** Lines 137-151: the message of the exception raised for a failed call. *)
Definition api_error_message (default_model error_msg : str) : str :=
  let lowered := Str.lower error_msg in
  if Str.contains (u "401") error_msg || Str.contains (u "Unauthorized") error_msg then
    u "API密钥无效或已过期，请检查QWEN_API_KEY配置。错误详情: " ++ error_msg
  else if Str.contains (u "429") error_msg || Str.contains (u "rate limit") lowered then
    u "API调用频率超限，请稍后重试。错误详情: " ++ error_msg
  else if Str.contains (u "timeout") lowered then
    u "API调用超时，请检查网络连接。错误详情: " ++ error_msg
  else if Str.contains (u "model") lowered && Str.contains (u "not found") lowered then
    u "模型不存在: " ++ default_model ++ u "，请检查QWEN_MODEL配置。错误详情: " ++ error_msg
  else u "API调用失败: " ++ error_msg.

(** Lines 94-184, the body of the outer [try]. *)
Definition request_translation (text target_lang api_key base_url default_model : str)
    (w : world) : result str * world :=
  let w := if (6000 <? Z.of_nat (length text))%Z then emit WarnTextTooLong w else w in
  let '(r, w) := create (Request api_key base_url default_model (make_prompt text target_lang)) w in
  match r with
  | CallRaises _ error_msg =>
    (Raise (Exn (u "Exception") (api_error_message default_model error_msg)),
     emit (ErrApiCall error_msg) w)
  | EmptyResponse => (Raise (Exn (u "Exception") (u "API返回空响应")), w)
  | MissingMessage =>
    (Raise (Exn (u "Exception") (u "API响应格式错误：缺少message字段")), w)
  | Content None =>
    (Raise (Exn (u "AttributeError") (u "'NoneType' object has no attribute 'strip'")), w)
  | Content (Some content) =>
    let translated_text := Str.strip content in
    if negb (nonempty translated_text) then (Ok text, emit WarnEmptyResult w)
    else
      let w := if decide (translated_text = text) then emit WarnUnchanged w else w in
      (Ok translated_text, cache_save text target_lang translated_text w)
  end.

(** [model or default] *)
Definition model_or (model : option str) (default : str) : str :=
  match model with
  | Some ((_ :: _) as m) => m
  | _ => default
  end.

(** Lines 186-201: the outer [except Exception as e]. *)
Definition reraise (e : exn) (w : world) : result str * world :=
  let error_msg := exn_msg e in
  let w := emit (ErrTranslate error_msg) w in
  let error_msg :=
    if Str.contains (u "<") error_msg && Str.contains (u "object at 0x") error_msg
    then exn_type e ++ u ": " ++ error_msg
    else error_msg in
  (Raise (Exn (u "Exception") (u "翻译失败: " ++ error_msg)), w).

(** Lines 72-87: [(api_key, base_url, default_model)], the Qwen
    configuration when its key is set and the OpenAI-compatible one
    otherwise. *)
Definition select_api (model : option str) (c : Config) : str * str * str :=
  let qwen_api_key := QWEN_API_KEY c in
  if nonempty qwen_api_key
  then (qwen_api_key, QWEN_BASE_URL c, model_or model (QWEN_MODEL c))
  else (OPENAI_API_KEY c, OPENAI_BASE_URL c, model_or model (DEFAULT_MODEL c)).

Definition translate_with_llm (text target_lang : str) (model : option str) (w : world)
    : result str * world :=
  if negb (nonempty text) || negb (nonempty (Str.strip text)) then (Ok text, w) else
  match cache_lookup text target_lang w with
  | (Some cached_result, w) => (Ok cached_result, w)
  | (None, w) =>
    let '(api_key, base_url, default_model) := select_api model (config w) in
    if negb (nonempty api_key) then (Ok text, emit WarnSetQwenKey (emit WarnNoApiKey w))
    else
      match request_translation text target_lang api_key base_url default_model w with
      | (Ok translated_text, w) => (Ok translated_text, w)
      | (Raise e, w) => reraise e w
      end
  end.

(** The world after [seconds] more seconds, nothing else changed: the time
    between two calls. *)
Definition later (seconds : Z) (w : world) : world :=
  World (config w) (cache w) (now w + seconds)%Z (remote w) (sent w) (log w).

End Translator.

(** ** Batch translation (the loop of [translate_layout], routes.py) *)

Module Batch.

Import Translator.

(** The counters of the loop and the message kept for the response. *)
Record tally := Tally {
  translated_count : nat;
  skipped_count : nat;
  failed_count : nat;
  first_error : option str
}.

Definition set_translated (block : pyval) (value : str) : pyval :=
  match block with
  | PDict d => PDict (set_item (u "translated_text") (PStr value) d)
  | _ => block
  end.

(** The body of [for idx, block in enumerate(layout)] (lines 687-745):
    the block as the iteration leaves it, the counters and the world.
    [None] is an exception outside the inner [try], which ends the request
    in the handler's own [except]. *)
Definition translate_block (target_lang : str) (model : option str) (force_retranslate : bool)
    (block : pyval) (t : tally) (w : world) : option (pyval * tally * world) :=
  raw ← get block (u "text") (PStr []);
  text ← strip raw;
  if negb (nonempty text) then Some (block, t, w) else
  existing ← get block (u "translated_text") PNone;
  if negb force_retranslate && truthy existing then
    Some (block, Tally (translated_count t) (S (skipped_count t)) (failed_count t) (first_error t), w)
  else
    match translate_with_llm text target_lang model w with
    | (Ok translated_text, w) =>
      Some (set_translated block translated_text,
            Tally (S (translated_count t)) (skipped_count t) (failed_count t) (first_error t), w)
    | (Raise e, w) =>
      let error_msg := exn_msg e in
      let failed := S (failed_count t) in
      let first := if (failed =? 1)%nat then Some error_msg else first_error t in
      Some (if negb (truthy existing) then set_translated block text else block,
            Tally (translated_count t) (skipped_count t) failed first, w)
    end.

Fixpoint translate_blocks (target_lang : str) (model : option str) (force_retranslate : bool)
    (layout : list pyval) (t : tally) (w : world) : option (list pyval * tally * world) :=
  match layout with
  | [] => Some ([], t, w)
  | block :: rest =>
    '(block', t, w) ← translate_block target_lang model force_retranslate block t w;
    '(rest', t, w) ← translate_blocks target_lang model force_retranslate rest t w;
    Some (block' :: rest', t, w)
  end.

(** The world the loop has reached when it stops, at its end or at the
    block whose iteration raises outside the inner [try]: what the earlier
    blocks have sent, stored and logged stays done. *)
Fixpoint world_reached (target_lang : str) (model : option str) (force_retranslate : bool)
    (layout : list pyval) (t : tally) (w : world) : world :=
  match layout with
  | [] => w
  | block :: rest =>
    match translate_block target_lang model force_retranslate block t w with
    | Some (_, t, w) => world_reached target_lang model force_retranslate rest t w
    | None => w
    end
  end.

(** What the handler answers: 400 for an empty layout, 500 when an
    exception reaches its own [except], and otherwise the layout with the
    counters; [first_error] is part of the data only when it is truthy. *)
Inductive response :=
| BadRequest
| ServerError
| Success (layout : list pyval) (t : tally).

Definition translate_layout (layout : pyval) (target_lang : str) (model : option str)
    (force_retranslate : bool) (w : world) : response * world :=
  if negb (truthy layout) then (BadRequest, w) else
  match layout with
  | PList blocks =>
    match translate_blocks target_lang model force_retranslate blocks (Tally 0 0 0 None) w with
    | Some (blocks', t, w') => (Success blocks' t, w')
    | None =>
      (ServerError,
       world_reached target_lang model force_retranslate blocks (Tally 0 0 0 None) w)
    end
  | _ => (ServerError, w)
  end.

End Batch.

(** ** Waiting for a parsing task ([wait_for_task_completion], mineru_api.py) *)

Module Mineru.

(** One call of [get_task_result]: it raises, or returns the [data] of
    the reply. *)
Inductive poll_reply :=
| PollRaises
| PollData (result : pyval).

(** The clock ([time.time()], in any unit; [max_wait_time] and
    [poll_interval] are in the same unit), the remote service (what the
    n-th poll answers and how long it takes), the polls made and the
    warnings logged for unknown states. *)
Record world := World {
  clock : Z;
  service : nat → poll_reply * N;
  polls : nat;
  warnings : list pyval
}.

Definition get_task_result (w : world) : poll_reply * world :=
  let '(r, d) := service w (polls w) in
  (r, World (clock w + Z.of_N d)%Z (service w) (S (polls w)) (warnings w)).

Definition warn (state : pyval) (w : world) : world :=
  World (clock w) (service w) (polls w) (warnings w ++ [state]).

(** [time.sleep(poll_interval)]; [None] is [ValueError] (a negative
    length). *)
Definition sleep (poll_interval : Z) (w : world) : option world :=
  if (poll_interval <? 0)%Z then None
  else Some (World (clock w + poll_interval)%Z (service w) (polls w) (warnings w)).

(** How the function ends. *)
Inductive outcome :=
| Returned (result : pyval)
| TaskFailed (err_msg : pyval)
| TimedOut
| Crashed.

(** [state in ['pending', 'running', 'converting']] *)
Definition in_progress (state : pyval) : bool :=
  eq_str state (u "pending") || eq_str state (u "running") || eq_str state (u "converting").

(** Lines 168-172: the progress message; [None] is [AttributeError]. *)
Definition show_progress (result : pyval) : option unit :=
  progress ← get result (u "extract_progress") (PDict []);
  if truthy progress then
    _ ← get progress (u "extracted_pages") (PInt 0);
    _ ← get progress (u "total_pages") (PInt 0);
    Some ()
  else Some ().

(** The [while True] loop, run for at most [fuel] polls: [None] when the
    loop is still running after them. *)
Fixpoint wait_loop (fuel : nat) (start_time max_wait_time poll_interval : Z) (w : world)
    : option (outcome * world) :=
  match fuel with
  | O => None
  | S fuel' =>
    let '(r, w) := get_task_result w in
    match r with
    | PollRaises => Some (Crashed, w)
    | PollData result =>
      match get result (u "state") (PStr []) with
      | None => Some (Crashed, w)
      | Some state =>
        if eq_str state (u "done") then Some (Returned result, w)
        else if eq_str state (u "failed") then
          Some (TaskFailed (default PNone (get result (u "err_msg") (PStr (u "解析失败")))), w)
        else if in_progress state then
          let elapsed := (clock w - start_time)%Z in
          if (max_wait_time <? elapsed)%Z then Some (TimedOut, w)
          else
            match show_progress result, sleep poll_interval w with
            | Some _, Some w' => wait_loop fuel' start_time max_wait_time poll_interval w'
            | _, _ => Some (Crashed, w)
            end
        else
          match sleep poll_interval (warn state w) with
          | Some w' => wait_loop fuel' start_time max_wait_time poll_interval w'
          | None => Some (Crashed, warn state w)
          end
      end
    end
  end.

Definition wait_for_task_completion (fuel : nat) (max_wait_time poll_interval : Z) (w : world)
    : option (outcome * world) :=
  wait_loop fuel (clock w) max_wait_time poll_interval w.

End Mineru.

(** ** The extension check ([allowed_file], routes.py) *)

Module Upload.

(** [Config.ALLOWED_EXTENSIONS] (config.py) *)
Definition ALLOWED_EXTENSIONS : list (list N) := [u "pdf"; u "json"].

(** The code point of the dot. *)
Definition dot : N := 46.

(** [s.rsplit(sep, 1)] for a separator of one code point: the string
    itself when the separator does not occur in it, and otherwise what is
    before the last occurrence and what is after it. *)
Fixpoint rsplit1 (sep : N) (s : str) : list str :=
  match s with
  | [] => [[]]
  | c :: r =>
    match rsplit1 sep r with
    | [head; tail] => [c :: head; tail]
    | _ => if (c =? sep)%N then [[]; r] else [c :: r]
    end
  end.

(** ['.' in filename and
     filename.rsplit('.', 1)[1].lower() in ALLOWED_EXTENSIONS]; [None] is
    [IndexError].  No code point outside A-Z lowers to a letter of "pdf"
    or "json", so that [Str.lower] decides the membership as [str.lower]
    does. *)
Definition allowed_file (filename : str) : option bool :=
  if Str.contains [dot] filename then
    extension ← rsplit1 dot filename !! 1%nat;
    Some (bool_decide (Str.lower extension ∈ ALLOWED_EXTENSIONS))
  else Some false.

End Upload.

(** ** Translating a document ([translate_mineru_json], translator_llm.py) *)

Module Document.

Import Translator.

(** How the function ends when it does not return: with the exception of a
    translation, with the [AttributeError] or [TypeError] of a document
    that is not shaped as the loops expect, or with the exception of
    writing the output file.  Each is logged and raised again as it is. *)
Inductive failure :=
| TranslationFailed (e : exn)
| Malformed
| WriteFailed.

Inductive outcome (A : Type) :=
| Done (a : A)
| Failed (f : failure).
Arguments Done {A} a.
Arguments Failed {A} f.

(** [" ".join([line.get("text", "") for line in lines
                if isinstance(line, dict)]).strip()] *)
Definition original_text (lines : pyval) : option str :=
  items ← iter lines;
  texts ← mapM (λ line, get line (u "text") (PStr [])) (List.filter is_dict items);
  joined ← join_space texts;
  Some (Str.strip joined).

(** The body of [for block in page.get("blocks", [])] (lines 232-249):
    the block as the iteration leaves it. *)
Definition translate_block (target_lang : str) (model : option str) (block : pyval)
    (w : world) : outcome pyval * world :=
  match get block (u "type") PNone with
  | None => (Failed Malformed, w)
  | Some block_type =>
    if eq_str block_type (u "text") then
      match (lines ← get block (u "lines") (PList []); original_text lines) with
      | None => (Failed Malformed, w)
      | Some text =>
        if nonempty text then
          match translate_with_llm text target_lang model w with
          | (Ok translated_text, w') =>
            (Done (Batch.set_translated block translated_text), w')
          | (Raise e, w') => (Failed (TranslationFailed e), w')
          end
        else (Done block, w)
      end
    else (Done block, w)
  end.

(** A loop body run on the items one after the other, until one fails. *)
Fixpoint each (body : pyval → world → outcome pyval * world) (items : list pyval)
    (w : world) : outcome (list pyval) * world :=
  match items with
  | [] => (Done [], w)
  | item :: rest =>
    match body item w with
    | (Done item', w1) =>
      match each body rest w1 with
      | (Done rest', w2) => (Done (item' :: rest'), w2)
      | (Failed f, w2) => (Failed f, w2)
      end
    | (Failed f, w1) => (Failed f, w1)
    end
  end.

(** [for item in v: body]: [v] after the loop.  The items of a list are
    the objects the list holds, and what the body does to them shows in
    the list; the keys of a dict and the characters of a string are
    strings, on which the bodies of this module fail. *)
Definition for_each (body : pyval → world → outcome pyval * world) (v : pyval)
    (w : world) : outcome pyval * world :=
  match iter v with
  | None => (Failed Malformed, w)
  | Some items =>
    match each body items w with
    | (Done items', w') => (Done (match v with PList _ => PList items' | _ => v end), w')
    | (Failed f, w') => (Failed f, w')
    end
  end.

(** [for item in v.get(k, []): body]: [v] after the loop. *)
Definition for_each_of (k : str) (body : pyval → world → outcome pyval * world)
    (v : pyval) (w : world) : outcome pyval * world :=
  match v with
  | PDict d =>
    match lookup k d with
    | Some items =>
      match for_each body items w with
      | (Done items', w') => (Done (PDict (set_item k items' d)), w')
      | (Failed f, w') => (Failed f, w')
      end
    | None => (Done v, w)
    end
  | _ => (Failed Malformed, w)
  end.

(** The body of [for page in data.get("pages", [])]. *)
Definition translate_page (target_lang : str) (model : option str)
    : pyval → world → outcome pyval * world :=
  for_each_of (u "blocks") (translate_block target_lang model).

(** Lines 230-249: the two loops. *)
Definition translate_pages (target_lang : str) (model : option str)
    : pyval → world → outcome pyval * world :=
  for_each_of (u "pages") (translate_page target_lang model).

(** The function from the document [json.load] has read: the document it
    returns and the file it writes ([None] when [output_path] is empty;
    [writable] tells whether the directory can be made and the file
    written).  The two counters of the function are only logged. *)
Definition translate_mineru_json (data : pyval) (output_path : str) (writable : bool)
    (target_lang : str) (model : option str) (w : world)
    : outcome (pyval * option (str * pyval)) * world :=
  match translate_pages target_lang model data w with
  | (Done data', w') =>
    if nonempty output_path then
      if writable then (Done (data', Some (output_path, data')), w')
      else (Failed WriteFailed, w')
    else (Done (data', None), w')
  | (Failed f, w') => (Failed f, w')
  end.

End Document.

(** ** The calls of the parsing service ([mineru_api.py]) *)

Module Api.

(** The entries of [current_app.config] the calls read. *)
Record Config := {
  MINERU_TOKEN : str;
  MINERU_BASE_URL : str;
  MINERU_MODEL_VERSION : str
}.

Inductive method := GET | POST.

(** One call of [requests.get] or [requests.post]: the address, the
    headers and the JSON body (the timeout is always 30 seconds). *)
Record http_request := Http {
  verb : method;
  url : str;
  headers : list (str * str);
  body : option pyval
}.

(** What the call, [raise_for_status()] and [response.json()] come to: an
    exception, which is a [requests.exceptions.RequestException] or not,
    with its [str(e)]; or the decoded reply. *)
Inductive http_reply :=
| HttpRaises (request_exception : bool) (msg : str)
| Json (result : pyval).

(** The exceptions that leave the functions: [ValueError] for a missing
    token; [Exception(prefix + str(e))] for a [RequestException];
    another exception of the call, as it is; [Exception] for a reply
    whose code is not 0, with its [msg]; [Exception] for a reply without
    task id; [AttributeError] for a reply that is no object where one is
    read. *)
Inductive failure :=
| NoToken
| RequestFailed (prefix msg : str)
| CallFailed (msg : str)
| ApiError (error_msg : pyval)
| NoTaskId
| NoObject.

Inductive result (A : Type) :=
| Ok (a : A)
| Raise (f : failure).
Arguments Ok {A} a.
Arguments Raise {A} f.

(** The configuration, the service (its reply to the n-th call) and the
    calls made so far. *)
Record world := World {
  config : Config;
  network : nat → http_request → http_reply;
  sent : list http_request
}.

Definition call (req : http_request) (w : world) : http_reply * world :=
  (network w (length (sent w)) req, World (config w) (network w) (sent w ++ [req])).

(** [get_mineru_headers()]; [None] is the [ValueError]. *)
Definition get_mineru_headers (c : Config) : option (list (str * str)) :=
  let token := MINERU_TOKEN c in
  match token with
  | [] => None
  | _ => Some [(u "Content-Type", u "application/json");
               (u "Authorization", u "Bearer " ++ token)]
  end.

(** [v != 0] *)
Definition ne_zero (v : pyval) : bool :=
  match v with
  | PInt z => negb (z =? 0)%Z
  | PBool b => b
  | PFloat f => negb (f =? 0)%float
  | _ => true
  end.

(** The check of the business code and the [data] of the reply:
    [if result.get('code') != 0: raise ...] and, at the end,
    [result.get('data', {})]. *)
Definition check_code (result : pyval) : Api.result unit :=
  match get result (u "code") PNone with
  | None => Raise NoObject
  | Some code =>
    if ne_zero code then
      Raise (ApiError (default PNone (get result (u "msg") (PStr (u "未知错误")))))
    else Ok ()
  end.

Definition data_of (result : pyval) : Api.result pyval :=
  match get result (u "data") (PDict []) with
  | None => Raise NoObject
  | Some data => Ok data
  end.

(** [except requests.exceptions.RequestException as e:
       raise Exception(prefix + str(e))] before [except Exception: raise]. *)
Definition raised (prefix : str) (request_exception : bool) (msg : str) : failure :=
  if request_exception then RequestFailed prefix msg else CallFailed msg.

Definition optional_params : list (list N) :=
  [u "is_ocr"; u "enable_formula"; u "enable_table"; u "language"; u "data_id";
   u "callback"; u "seed"; u "extra_formats"; u "page_ranges"].

(** [model_version] when it is truthy, the configured one otherwise. *)
Definition version_or (model_version : option str) (c : Config) : str :=
  match model_version with
  | Some ((_ :: _) as v) => v
  | _ => MINERU_MODEL_VERSION c
  end.

(** Lines 57-67: the request body, [kwargs] being the keyword arguments
    by name. *)
Definition task_data (file_url model_version : str) (kwargs : list (str * pyval))
    : list (str * pyval) :=
  fold_left
    (λ data param,
       match lookup param kwargs with
       | Some v => set_item param v data
       | None => data
       end)
    optional_params
    [(u "url", PStr file_url); (u "model_version", PStr model_version)].

Definition create_extract_task (file_url : str) (model_version : option str)
    (kwargs : list (str * pyval)) (w : world) : Api.result pyval * world :=
  let api_url := MINERU_BASE_URL (config w) ++ u "/extract/task" in
  let model_version := version_or model_version (config w) in
  match get_mineru_headers (config w) with
  | None => (Raise NoToken, w)
  | Some headers =>
    let data := task_data file_url model_version kwargs in
    let '(reply, w) := call (Http POST api_url headers (Some (PDict data))) w in
    match reply with
    | HttpRaises request_exception msg =>
      (Raise (raised (u "MinerU API调用失败: ") request_exception msg), w)
    | Json result =>
      match check_code result with
      | Raise f => (Raise f, w)
      | Ok _ =>
        match data_of result with
        | Raise f => (Raise f, w)
        | Ok data =>
          match get data (u "task_id") PNone with
          | None => (Raise NoObject, w)
          | Some task_id =>
            if truthy task_id then (Ok data, w) else (Raise NoTaskId, w)
          end
        end
      end
    end
  end.

Definition get_task_result (task_id : str) (w : world) : Api.result pyval * world :=
  let api_url := MINERU_BASE_URL (config w) ++ u "/extract/task/" ++ task_id in
  match get_mineru_headers (config w) with
  | None => (Raise NoToken, w)
  | Some headers =>
    let '(reply, w) := call (Http GET api_url headers None) w in
    match reply with
    | HttpRaises request_exception msg =>
      (Raise (raised (u "查询任务结果失败: ") request_exception msg), w)
    | Json result =>
      match check_code result with
      | Raise f => (Raise f, w)
      | Ok _ => (data_of result, w)
      end
    end
  end.



End Api.

(** * The vocabulary of the statements *)

(** A text that is empty or made of whitespace only. *)
Definition blank (s : list N) : bool := forallb Str.is_space s.

(** What is said of an emitted block. *)
Definition trimmed (s : list N) : Prop := s ≠ [] ∧ Str.strip s = s.

Definition long_bbox (v : pyval) : Prop :=
  truthy v = true ∧ ∃ n, len v = Some n ∧ 4 ≤ n.

Definition text_or_title (v : pyval) : Prop :=
  v = PStr (u "text") ∨ v = PStr (u "title").

Definition at_least_one (v : pyval) : Prop := ∃ z, v = PInt z ∧ (1 ≤ z)%Z.

(** [v] is the [page_idx] of [fields] (0 when absent) plus 1. *)
Definition page_of (fields : list (list N * pyval)) (v : pyval) : Prop :=
  add1 (default (PInt 0) (lookup (u "page_idx") fields)) = Some v.

(** The statement that an emitted block has a text that is not blank, a
    box of at least four items (as has the box [0, 0, 0, 0] that the old
    format gives to a block without one), a page of at least 1 and the
    type "text" or "title". *)
Definition claimed_block (b : Layout.LayoutBlock) : Prop :=
  Str.strip (Layout.text b) ≠ []
  ∧ (∃ n, len (Layout.bbox b) = Some n ∧ 4 ≤ n)
  ∧ at_least_one (Layout.page b)
  ∧ text_or_title (Layout.type b).

(** The value of the first of [keys] that [d] has. *)
Fixpoint first_present (keys : list (list N)) (d : list (list N * pyval)) : option pyval :=
  match keys with
  | [] => None
  | k :: keys' =>
    match lookup k d with
    | Some v => Some v
    | None => first_present keys' d
    end
  end.

(** The page number and the box by "first present wins". *)
Definition first_present_page_no (page : list (list N * pyval)) : option pyval :=
  match first_present [u "page_no"; u "page"; u "pageNo"] page with
  | Some v => Some v
  | None => add1 (default (PInt 0) (lookup (u "page_idx") page))
  end.

Definition first_present_bbox (block : list (list N * pyval)) : pyval :=
  default Layout.zero_rect (first_present [u "bbox"; u "bbox_coords"] block).

(** The statement that in the old format every emitted block has the page
    number and the box that "first present wins" gives for its page and
    its block. *)
Definition first_present_claim (d : pyval) : Prop :=
  ∀ b, b ∈ Layout.parse_mineru_layout_from_data d →
  ∃ pages page_fields blocks block_fields,
    get d (u "pages") (PList []) = Some (PList pages)
    ∧ PDict page_fields ∈ pages
    ∧ get (PDict page_fields) (u "blocks") (PList []) = Some (PList blocks)
    ∧ PDict block_fields ∈ blocks
    ∧ first_present_page_no page_fields = Some (Layout.page b)
    ∧ first_present_bbox block_fields = Layout.bbox b.

(** The first of [candidates] that is truthy. *)
Fixpoint first_truthy (candidates : list pyval) : option pyval :=
  match candidates with
  | [] => None
  | v :: rest => if truthy v then Some v else first_truthy rest
  end.

(** [d.get(k)] *)
Definition field (d : list (list N * pyval)) (k : list N) : pyval :=
  default PNone (lookup k d).

(** The type of a block of format 3: what the block gives as its type,
    "text" when it gives none. *)
Definition own_type (fields : list (list N * pyval)) : pyval :=
  default (PStr (u "text")) (lookup (u "type") fields).

(** The type of a block of format 2: "title" for an item of level 1, and
    the item's own type otherwise. *)
Definition item_type (fields : list (list N * pyval)) : pyval :=
  if eq_one (field fields (u "text_level")) then PStr (u "title") else own_type fields.

(** The page number and the box by "first truthy wins". *)
Definition first_truthy_page_no (page : list (list N * pyval)) : option pyval :=
  match first_truthy [field page (u "page_no"); field page (u "page");
                      field page (u "pageNo")] with
  | Some v => Some v
  | None => add1 (default (PInt 0) (lookup (u "page_idx") page))
  end.

Definition first_truthy_bbox (block : list (list N * pyval)) : pyval :=
  default Layout.zero_rect
    (first_truthy [field block (u "bbox"); field block (u "bbox_coords")]).

(** A block with a text that is not blank and without a translation. *)
Definition untranslated (d : list (list N * pyval)) (raw : list N) : Prop :=
  lookup (u "text") d = Some (PStr raw) ∧ blank raw = false
  ∧ lookup (u "translated_text") d = None.

(** [block] after [block['translated_text'] = value]. *)
Definition translated (d : list (list N * pyval)) (value : list N) : pyval :=
  PDict (set_item (u "translated_text") (PStr value) d).

(** The statement that the block of a failed translation holds its
    original text as translation. *)
Definition keeps_original_text (before after : pyval) : Prop :=
  get after (u "translated_text") PNone = get before (u "text") PNone.

(** Every poll is answered with a state the loop does not know. *)
Definition unknown_forever (w : Mineru.world) : Prop :=
  ∀ n, ∃ result state d,
    Mineru.service w n = (Mineru.PollData result, d)
    ∧ get result (u "state") (PStr []) = Some state
    ∧ eq_str state (u "done") = false ∧ eq_str state (u "failed") = false
    ∧ Mineru.in_progress state = false.

(** Every poll is answered with "pending", "running" or "converting",
    and a progress that can be shown. *)
Definition in_progress_forever (w : Mineru.world) : Prop :=
  ∀ n, ∃ result state d,
    Mineru.service w n = (Mineru.PollData result, d)
    ∧ get result (u "state") (PStr []) = Some state
    ∧ eq_str state (u "done") = false ∧ eq_str state (u "failed") = false
    ∧ Mineru.in_progress state = true
    ∧ Mineru.show_progress result = Some ().




(** The request a call of [translate_with_llm] sends, when it sends one. *)
Definition request_of (text target_lang : list N) (model : option (list N))
    (c : Translator.Config) : Translator.request :=
  let '(api_key, base_url, default_model) := Translator.select_api model c in
  Translator.Request api_key base_url default_model
    (Translator.make_prompt text target_lang).

(** The loop of the batch does not pass the block over: it is a dict with
    a text that is not blank. *)
Definition has_text (block : pyval) : bool :=
  match block with
  | PDict d =>
    match default (PStr []) (lookup (u "text") d) with
    | PStr raw => negb (blank raw)
    | _ => false
    end
  | _ => false
  end.

(** A block the batch can read and has nothing to do for, unless a new
    translation is forced: its text is blank, or it has a translation. *)
Definition settled (block : pyval) : bool :=
  match block with
  | PDict d =>
    match default (PStr []) (lookup (u "text") d) with
    | PStr raw => blank raw || truthy (field d (u "translated_text"))
    | _ => false
    end
  | _ => false
  end.

(** What the batch may do to a block: nothing, or set its
    [translated_text]. *)
Definition same_but_translation (block block' : pyval) : Prop :=
  (has_text block = false → block' = block)
  ∧ ∀ k default, k ≠ u "translated_text" → get block' k default = get block k default.

(** A block that [translate_mineru_json] translates: its type is "text"
    and the texts of its lines, joined and stripped, are not empty. *)
Definition wants_translation (block : pyval) : bool :=
  match get block (u "type") PNone with
  | Some block_type =>
    eq_str block_type (u "text")
    && match lines ← get block (u "lines") (PList []); Document.original_text lines with
       | Some (_ :: _) => true
       | _ => false
       end
  | None => false
  end.

(** A block, a page and a document before and after
    [translate_mineru_json]: a block that is translated has got a
    [translated_text] that is not empty, and nothing else has changed. *)
Definition block_translated (block block' : pyval) : Prop :=
  if wants_translation block
  then ∃ v, v ≠ [] ∧ block' = Batch.set_translated block v
  else block' = block.

Definition items_translated (R : pyval → pyval → Prop) (k : list N) (v v' : pyval)
    : Prop :=
  match v with
  | PDict d =>
    match lookup k d with
    | Some (PList items) =>
      ∃ items', Forall2 R items items' ∧ v' = PDict (set_item k (PList items') d)
    | _ => v' = v
    end
  | _ => v' = v
  end.

Definition page_translated : pyval → pyval → Prop :=
  items_translated block_translated (u "blocks").

Definition document_translated : pyval → pyval → Prop :=
  items_translated page_translated (u "pages").

(** The headers of every call of the parsing service. *)
Definition bearer_headers (c : Api.Config) : list (list N * list N) :=
  [(u "Content-Type", u "application/json");
   (u "Authorization", u "Bearer " ++ Api.MINERU_TOKEN c)].


(** The request [create_extract_task] posts. *)
Definition task_request (w : Api.world) (file_url : list N) (model_version : option (list N))
    (kwargs : list (list N * pyval)) : Api.http_request :=
  Api.Http Api.POST (Api.MINERU_BASE_URL (Api.config w) ++ u "/extract/task")
    (bearer_headers (Api.config w))
    (Some (PDict (Api.task_data file_url (Api.version_or model_version (Api.config w))
                    kwargs))).

(** What the last poll of [wait_for_task_completion] has answered, given
    how the function has ended: with the result of a finished task, with
    the message of a failed one, or by the timeout, [elapsed] after the
    start. *)
Definition reflects (o : Mineru.outcome) (last : Mineru.poll_reply)
    (max_wait_time elapsed : Z) : Prop :=
  match o with
  | Mineru.Returned result =>
    last = Mineru.PollData result
    ∧ get result (u "state") (PStr []) = Some (PStr (u "done"))
  | Mineru.TaskFailed err_msg =>
    ∃ result,
      last = Mineru.PollData result
      ∧ get result (u "state") (PStr []) = Some (PStr (u "failed"))
      ∧ get result (u "err_msg") (PStr (u "解析失败")) = Some err_msg
  | Mineru.TimedOut =>
    (max_wait_time < elapsed)%Z
    ∧ ∃ result state,
        last = Mineru.PollData result
        ∧ get result (u "state") (PStr []) = Some state
        ∧ Mineru.in_progress state = true
  | Mineru.Crashed => True
  end.

(** A [layout.json] as the parsing service writes it: pages with their
    index, paragraphs with a type, a box and lines, lines with the contents
    of their spans. *)
Record Para := {
  para_type : list N;
  para_bbox : list pyval;
  para_lines : list (list (list N))
}.

Record Page := {
  page_index : Z;
  page_paras : list Para
}.

Definition span_json (content : list N) : pyval :=
  PDict [(u "content", PStr content)].

Definition line_json (spans : list (list N)) : pyval :=
  PDict [(u "spans", PList (map span_json spans))].

Definition para_json (p : Para) : pyval :=
  PDict [(u "type", PStr (para_type p)); (u "bbox", PList (para_bbox p));
         (u "lines", PList (map line_json (para_lines p)))].

Definition page_json (pg : Page) : pyval :=
  PDict [(u "page_idx", PInt (page_index pg));
         (u "para_blocks", PList (map para_json (page_paras pg)))].

Definition layout_json (pages : list Page) : pyval :=
  PDict [(u "pdf_info", PList (map page_json pages))].

(** The text of a paragraph: the contents of its spans that are not
    empty, in reading order, joined by single spaces and stripped. *)
Definition para_text (p : Para) : list N :=
  Str.strip (Str.join (u " ") (List.filter Translator.nonempty (concat (para_lines p)))).

(** The blocks of a [layout.json]: one for each paragraph of type "text"
    or "title" with a box of four entries or more and a text that is not
    empty, page after page. *)
Definition para_layout (page_no : Z) (p : Para) : list Layout.LayoutBlock :=
  if (bool_decide (para_type p = u "text") || bool_decide (para_type p = u "title"))
     && (4 <=? length (para_bbox p))%nat && Translator.nonempty (para_text p)
  then [Layout.Block (PInt page_no) (PList (para_bbox p)) (para_text p)
          (PStr (para_type p))]
  else [].

Definition page_layout (pg : Page) : list Layout.LayoutBlock :=
  concat (map (para_layout (page_index pg + 1)) (page_paras pg)).

Definition expected_layout (pages : list Page) : list Layout.LayoutBlock :=
  concat (map page_layout pages).

(** * Inputs and worlds for the examples *)

(** JSON literals *)
Definition jint (z : Z) : pyval := PInt z.
Definition jstr (s : string) : pyval := PStr (u s).
Definition jobj (items : list (string * pyval)) : pyval :=
  PDict (map (λ kv, (u kv.1, kv.2)) items).
Definition jarr (l : list pyval) : pyval := PList l.

(** The input of the end-to-end scenario. *)
Definition scenario_input : pyval :=
  jobj [("pdf_info", jarr [jobj [
    ("page_idx", jint 0);
    ("para_blocks", jarr [jobj [
      ("type", jstr "title");
      ("bbox", jarr [jint 0; jint 0; jint 100; jint 20]);
      ("lines", jarr [jobj [("spans", jarr [jobj [("content", jstr "Intro")]])]])]])]])]%string.

(** An equation of a [content_list.json]: it has a text and a box. *)
Definition equation_input : pyval :=
  jarr [jobj [("type", jstr "equation"); ("text", jstr "E = mc^2");
              ("bbox", jarr [jint 1; jint 2; jint 3; jint 4]);
              ("page_idx", jint 0)]]%string.

(** A [layout.json] page whose index is negative. *)
Definition negative_page_input : pyval :=
  jobj [("pdf_info", jarr [jobj [
    ("page_idx", jint (-1));
    ("para_blocks", jarr [jobj [
      ("type", jstr "text");
      ("bbox", jarr [jint 0; jint 0; jint 100; jint 20]);
      ("lines", jarr [jobj [("spans", jarr [jobj [("content", jstr "Intro")]])]])]])]])]%string.

(** A page of the old format whose [page_no] is 0 and whose block has an
    empty [bbox] beside [bbox_coords]. *)
Definition legacy_block_example : pyval :=
  jobj [("type", jstr "text"); ("bbox", jarr []);
        ("bbox_coords", jarr [jint 1; jint 2; jint 3; jint 4]);
        ("lines", jarr [jobj [("text", jstr "x")]])]%string.

Definition legacy_page_example : pyval :=
  jobj [("page_no", jint 0); ("page", jint 7);
        ("blocks", jarr [legacy_block_example])]%string.

Definition legacy_input : pyval :=
  jobj [("pages", jarr [legacy_page_example])]%string.

(** A page of the old format whose index is -1, with a block whose box has
    two items. *)
Definition legacy_short_input : pyval :=
  jobj [("pages", jarr [jobj [
    ("page_idx", jint (-1));
    ("blocks", jarr [jobj [
      ("type", jstr "text"); ("bbox", jarr [jint 1; jint 2]);
      ("lines", jarr [jobj [("text", jstr "x")]])]])]])]%string.

(** A page of the old format with two blocks: the first with a box under
    [bbox_coords], the second, a heading, without any. *)
Definition legacy_pair_fields : list (list N * pyval) :=
  [(u "pages", jarr [jobj [
      ("page_no", jint 0); ("page", jint 7);
      ("blocks", jarr [
         legacy_block_example;
         jobj [("type", jstr "title"); ("lines", jarr [jobj [("text", jstr "b")]])]])]])]%string.

Definition qwen_config : Translator.Config :=
  {| Translator.QWEN_API_KEY := u "sk-qwen";
     Translator.QWEN_BASE_URL := u "https://dashscope.aliyuncs.com/compatible-mode/v1";
     Translator.QWEN_MODEL := u "qwen-turbo";
     Translator.OPENAI_API_KEY := [];
     Translator.OPENAI_BASE_URL := u "https://dashscope.aliyuncs.com/compatible-mode/v1";
     Translator.DEFAULT_MODEL := u "qwen-turbo" |}.


Definition no_key_config : Translator.Config :=
  {| Translator.QWEN_API_KEY := [];
     Translator.QWEN_BASE_URL := u "https://dashscope.aliyuncs.com/compatible-mode/v1";
     Translator.QWEN_MODEL := u "qwen-turbo";
     Translator.OPENAI_API_KEY := [];
     Translator.OPENAI_BASE_URL := u "https://dashscope.aliyuncs.com/compatible-mode/v1";
     Translator.DEFAULT_MODEL := u "qwen-turbo" |}.

(** The application as [create_app()] builds it, freshly started:
    [get_cache()] finds the registry, nothing has been sent or logged, and
    the n-th call of the endpoint is answered by [answers n] after one
    second. *)
Definition shipped_world (c : Translator.Config) (answers : nat → Translator.reply)
    : Translator.world :=
  Translator.World c (Some Translator.Registry) 0 (λ n _, (answers n, 1%N)) [] [].

(** The same with the store of the spec, still empty, in the place of the
    registry. *)
Definition fresh_world (c : Translator.Config) (answers : nat → Translator.reply)
    : Translator.world :=
  Translator.World c (Some (Translator.Store ∅)) 0 (λ n _, (answers n, 1%N)) [] [].

(** The same without a cache object. *)
Definition uncached_world (c : Translator.Config) (answers : nat → Translator.reply)
    : Translator.world :=
  Translator.World c None 0 (λ n _, (answers n, 1%N)) [] [].

Definition always (content : string) (n : nat) : Translator.reply :=
  Translator.Content (Some (u content)).

(** An endpoint whose third call raises, and one that always raises. *)
Definition third_call_fails (n : nat) : Translator.reply :=
  if (n =? 2)%nat then Translator.CallRaises (u "APIConnectionError") (u "Connection error.")
  else Translator.Content (Some (u "译文")).

Definition never_answers (n : nat) : Translator.reply :=
  Translator.CallRaises (u "APIConnectionError") (u "Connection error.").

Definition text_block (text : string) : pyval := jobj [("text"%string, jstr text)].

(** The worlds a batch of five blocks goes through when the third call
    of the endpoint fails. *)
Definition batch_w0 : Translator.world := uncached_world qwen_config third_call_fails.
Definition batch_w1 : Translator.world :=
  (Translator.translate_with_llm (Str.strip (u "one")) (u "zh") None batch_w0).2.
Definition batch_w2 : Translator.world :=
  (Translator.translate_with_llm (Str.strip (u "two")) (u "zh") None batch_w1).2.
Definition batch_w3 : Translator.world :=
  (Translator.translate_with_llm (Str.strip (u "three")) (u "zh") None batch_w2).2.
Definition batch_w4 : Translator.world :=
  (Translator.translate_with_llm (Str.strip (u "four")) (u "zh") None batch_w3).2.
Definition batch_w5 : Translator.world :=
  (Translator.translate_with_llm (Str.strip (u "five")) (u "zh") None batch_w4).2.

(** A service that answers every poll at once with the same state. *)
Definition always_in_state (state : string) : nat → Mineru.poll_reply * N :=
  λ _, (Mineru.PollData (jobj [("state"%string, jstr state)]), 0%N).

Definition polling_world (state : string) : Mineru.world :=
  Mineru.World 0 (always_in_state state) 0 [].

(** The text and the language of the examples, and the application as
    shipped with the Qwen key, with the OpenAI-compatible key only, and
    with no key. *)
Definition hello : list N := u "Hello world".
Definition zh : list N := u "zh".

Definition qwen_world : Translator.world :=
  shipped_world qwen_config (always "你好，世界").

(** The key of "Hello world" into "zh". *)
Definition hello_key : list N :=
  u "369af08fcedcb3f68b4e648f3ae013303bd88dd9a30c18d2207bcb0f0e421f4c".


(** A layout of two blocks, the second without text, and what a first run
    of the batch makes of it. *)
Definition two_blocks : list pyval :=
  [PDict [(u "text", PStr (u "one"))]; PDict [(u "text", PStr (u "  "))]].

Definition two_blocks_done : list pyval :=
  [translated [(u "text", PStr (u "one"))] (u "译文"); PDict [(u "text", PStr (u "  "))]].

(** An application without any key, before and after a call. *)
Definition no_key_w0 : Translator.world := uncached_world no_key_config (always "译文").
Definition no_key_w1 : Translator.world :=
  (Translator.translate_with_llm (u "one") (u "zh") None no_key_w0).2.

(** A [layout.json] that also has the key of the old format. *)
Definition both_formats : list (list N * pyval) :=
  [(u "pdf_info", PList []); (u "pages", PList [legacy_page_example])].

(** The fields of the equation of [equation_input]. *)
Definition equation_fields : list (list N * pyval) :=
  [(u "type", PStr (u "equation")); (u "text", PStr (u "E = mc^2"));
   (u "bbox", PList [PInt 1; PInt 2; PInt 3; PInt 4]); (u "page_idx", PInt 0)].

(** A document of the old format with a heading and a paragraph, and the
    same after its translation. *)
Definition old_document : pyval :=
  jobj [("pages", jarr [jobj [
    ("page_no", jint 1);
    ("blocks", jarr [
       jobj [("type", jstr "title"); ("lines", jarr [jobj [("text", jstr "Head")]])];
       jobj [("type", jstr "text"); ("lines", jarr [jobj [("text", jstr "Body")]])]])]])]%string.

Definition old_document_done : pyval :=
  jobj [("pages", jarr [jobj [
    ("page_no", jint 1);
    ("blocks", jarr [
       jobj [("type", jstr "title"); ("lines", jarr [jobj [("text", jstr "Head")]])];
       jobj [("type", jstr "text"); ("lines", jarr [jobj [("text", jstr "Body")]]);
             ("translated_text", jstr "译文")]])]])]%string.

Definition document_w0 : Translator.world := uncached_world qwen_config (always "译文").
Definition document_w1 : Translator.world :=
  (Translator.translate_with_llm (u "Body") (u "zh") None document_w0).2.

(** A configured parsing service that accepts every task, and one without
    a token. *)
Definition api_config : Api.Config :=
  {| Api.MINERU_TOKEN := u "token";
     Api.MINERU_BASE_URL := u "https://mineru.net/api/v4";
     Api.MINERU_MODEL_VERSION := u "vlm" |}.

Definition accepting_world : Api.world :=
  Api.World api_config
    (λ _ _, Api.Json (jobj [("code", jint 0);
                            ("data", jobj [("task_id", jstr "t-1")])]%string))
    [].

Definition accepting_world_done : Api.world :=
  (Api.create_extract_task (u "https://example.org/a.pdf") None
     [(u "is_ocr", PBool true); (u "secret", PStr (u "x"))] accepting_world).2.


(** The fields of a block of a page grid. *)
Definition grid_fields : list (list N * pyval) :=
  [(u "content", PStr (u "B")); (u "bbox", PList [PInt 0; PInt 0; PInt 1; PInt 1])].

(** * Properties *)

(** ** Strings *)

Section StrFacts.

Implicit Types s t : list N.

Lemma lstrip_nil s : Str.lstrip s = [] ↔ blank s = true.
Proof.
  induction s as [|c r IH]; simpl; [done|].
  destruct (Str.is_space c); simpl; [exact IH|].
  split; discriminate.
Qed.

Lemma lstrip_head s c r : Str.lstrip s = c :: r → Str.is_space c = false.
Proof.
  induction s as [|a s IH]; simpl; [discriminate|].
  destruct (Str.is_space a) eqn:Ha; [exact IH|].
  intros [= <- <-]. exact Ha.
Qed.

Lemma lstrip_fixed c r : Str.is_space c = false → Str.lstrip (c :: r) = c :: r.
Proof. intros H. simpl. by rewrite H. Qed.

(** [lstrip] removes a prefix of whitespace. *)
Lemma lstrip_suffix s : ∃ p, s = p ++ Str.lstrip s ∧ blank p = true.
Proof.
  induction s as [|c r [p [Hp Hb]]]; [by exists []|].
  simpl. destruct (Str.is_space c) eqn:Hc.
  - exists (c :: p). simpl. rewrite Hc, Hb. split; [by f_equal|done].
  - by exists [].
Qed.

Lemma blank_app s t : blank (s ++ t) = blank s && blank t.
Proof. apply forallb_app. Qed.

Lemma blank_rev s : blank (rev s) = blank s.
Proof.
  induction s as [|c r IH]; [done|].
  simpl. rewrite blank_app, IH. simpl. rewrite andb_true_r. apply andb_comm.
Qed.

Lemma rstrip_nil s : Str.rstrip s = [] ↔ blank s = true.
Proof.
  unfold Str.rstrip. rewrite <- blank_rev, <- lstrip_nil.
  split; intros H.
  - apply (f_equal (@rev N)) in H. by rewrite rev_involutive in H.
  - by rewrite H.
Qed.

Lemma strip_nil s : Str.strip s = [] ↔ blank s = true.
Proof.
  unfold Str.strip. rewrite rstrip_nil.
  destruct (lstrip_suffix s) as [p [Hp Hb]].
  split; intros H.
  - rewrite Hp, blank_app, Hb, H. done.
  - rewrite Hp, blank_app, Hb in H. exact H.
Qed.

(** What [rstrip] keeps is a prefix of its argument. *)
Lemma rstrip_prefix s : ∃ q, s = Str.rstrip s ++ q ∧ blank q = true.
Proof.
  unfold Str.rstrip. destruct (lstrip_suffix (rev s)) as [p [Hp Hb]].
  exists (rev p). split; [|by rewrite blank_rev].
  rewrite <- rev_app_distr, <- Hp. by rewrite rev_involutive.
Qed.

Lemma rstrip_fixed s : Str.rstrip (Str.rstrip s) = Str.rstrip s.
Proof.
  unfold Str.rstrip. rewrite rev_involutive. f_equal.
  destruct (Str.lstrip (rev s)) as [|c r] eqn:E; [done|].
  apply lstrip_fixed. by apply lstrip_head in E.
Qed.

(** The result of [strip] has no whitespace left at either end: stripping
    it again changes nothing. *)
Lemma strip_strip s : Str.strip (Str.strip s) = Str.strip s.
Proof.
  unfold Str.strip at 1.
  assert (Str.lstrip (Str.strip s) = Str.strip s) as ->.
  { unfold Str.strip.
    destruct (Str.lstrip s) as [|c r] eqn:E; [done|].
    destruct (rstrip_prefix (c :: r)) as [q [Hq _]].
    destruct (Str.rstrip (c :: r)) as [|c' r'] eqn:E'; [done|].
    simpl in Hq. injection Hq as <- _.
    apply lstrip_fixed. by apply lstrip_head in E. }
  apply rstrip_fixed.
Qed.

Lemma strip_blank_false s : blank s = false → Str.strip s ≠ [].
Proof. intros H E. apply strip_nil in E. congruence. Qed.

End StrFacts.

(** ** The translation client *)

Section TranslatorFacts.

Import Translator.

Implicit Types (w : world) (text target_lang : list N) (model : option (list N)).

Lemma nonempty_blank s : blank s = false → nonempty s = true.
Proof. by destruct s. Qed.

Lemma nonempty_strip s : blank s = false → nonempty (Str.strip s) = true.
Proof.
  intros H. apply strip_blank_false in H. by destruct (Str.strip s).
Qed.

(** The lookup reads the world and at most adds a warning to the log. *)
Lemma cache_lookup_world text target_lang w o w1 :
  cache_lookup text target_lang w = (o, w1) →
  config w1 = config w ∧ cache w1 = cache w ∧ now w1 = now w
  ∧ remote w1 = remote w ∧ sent w1 = sent w.
Proof.
  unfold cache_lookup. intros H.
  repeat case_match; simplify_eq; done.
Qed.

Lemma cache_lookup_hit text target_lang w v w1 :
  cache_lookup text target_lang w = (Some v, w1) → w1 = w ∧ nonempty v = true.
Proof.
  unfold cache_lookup. intros H.
  repeat case_match; simplify_eq; done.
Qed.

(** A hit ends the call: the cached value is returned and nothing is
    sent. *)
Lemma translate_hit text target_lang model w v w1 :
  blank text = false →
  cache_lookup text target_lang w = (Some v, w1) →
  translate_with_llm text target_lang model w = (Ok v, w).
Proof.
  intros Hb Hl. unfold translate_with_llm.
  rewrite (nonempty_blank _ Hb), (nonempty_strip _ Hb). simpl.
  rewrite Hl. by apply cache_lookup_hit in Hl as [-> _].
Qed.

(** Only a store is ever read: without one the lookup finds nothing. *)
Lemma lookup_without_store text target_lang w :
  cache w = None ∨ cache w = Some Registry →
  (cache_lookup text target_lang w).1 = None.
Proof.
  unfold cache_lookup. intros [-> | ->]; [done|].
  by destruct (get_translation_cache_key text target_lang).
Qed.

Lemma store_inj (s s' : store) : Some (Store s) = Some (Store s') → s = s'.
Proof. congruence. Qed.

(** On the registry the write always fails, and the failure is logged. *)
Lemma cache_save_registry text target_lang v w :
  cache w = Some Registry →
  cache_save text target_lang v w = emit WarnCacheWrite w.
Proof.
  unfold cache_save. intros ->.
  by destruct (get_translation_cache_key text target_lang).
Qed.

Lemma cache_save_world text target_lang v w :
  config (cache_save text target_lang v w) = config w
  ∧ now (cache_save text target_lang v w) = now w
  ∧ remote (cache_save text target_lang v w) = remote w
  ∧ sent (cache_save text target_lang v w) = sent w.
Proof. unfold cache_save. repeat case_match; done. Qed.

(** The [try] block sends exactly one request, whatever comes back. *)
Lemma request_translation_sent text target_lang key url m w r w' :
  request_translation text target_lang key url m w = (r, w') →
  sent w' = sent w ++ [Request key url m (make_prompt text target_lang)].
Proof.
  unfold request_translation, create. intros H.
  repeat case_match; simplify_eq; simpl;
    rewrite ?(proj2 (proj2 (proj2 (cache_save_world _ _ _ _)))); simpl;
    repeat case_match; done.
Qed.

Lemma reraise_sent e w r w' : reraise e w = (r, w') → sent w' = sent w.
Proof. unfold reraise. intros [= <- <-]. done. Qed.

(** A failed call always carries a message: it starts with the fixed
    prefix the outer handler puts before the cause. *)
Lemma translate_raise_message text target_lang model w e w' :
  translate_with_llm text target_lang model w = (Raise e, w') →
  ∃ cause, exn_msg e = u "翻译失败: " ++ cause.
Proof.
  unfold translate_with_llm, reraise. intros H.
  repeat case_match; simplify_eq; eauto.
Qed.

(** The [try] block when the endpoint answers with a text that is not
    blank: the stripped answer is returned and stored for 86400 seconds
    from the moment the call returned. *)
Lemma request_translation_content text target_lang api url m w s key content secs :
  cache w = Some (Store s) →
  get_translation_cache_key text target_lang = Some key →
  remote w (length (sent w)) (Request api url m (make_prompt text target_lang))
    = (Content (Some content), secs) →
  blank content = false →
  ∃ w1, request_translation text target_lang api url m w = (Ok (Str.strip content), w1)
    ∧ now w1 = (now w + Z.of_N secs)%Z
    ∧ cache w1
      = Some (Store (store_set s key (Str.strip content) 86400 (now w + Z.of_N secs))).
Proof.
  intros Hc Hk Hrem Hcontent.
  unfold request_translation, create, emit.
  destruct (6000 <? Z.of_nat (length text))%Z.
  all: cbn [config cache now remote sent log]; rewrite Hrem.
  all: rewrite (nonempty_strip _ Hcontent); cbn [negb].
  all: eexists; split; [reflexivity|].
  all: unfold cache_save, emit; rewrite Hk.
  all: destruct (decide (Str.strip content = text)); simpl; rewrite Hc; done.
Qed.

(** A miss that is answered with a text which is not blank. *)
Lemma translate_stores text target_lang model w s key api url m content secs :
  blank text = false →
  cache w = Some (Store s) →
  get_translation_cache_key text target_lang = Some key →
  (cache_lookup text target_lang w).1 = None →
  select_api model (config w) = (api, url, m) →
  nonempty api = true →
  remote w (length (sent w)) (Request api url m (make_prompt text target_lang))
    = (Content (Some content), secs) →
  blank content = false →
  ∃ w1, translate_with_llm text target_lang model w = (Ok (Str.strip content), w1)
    ∧ sent w1 = sent w ++ [Request api url m (make_prompt text target_lang)]
    ∧ now w1 = (now w + Z.of_N secs)%Z
    ∧ cache w1
      = Some (Store (store_set s key (Str.strip content) 86400 (now w + Z.of_N secs))).
Proof.
  intros Hb Hc Hk Hmiss Hsel Hapi Hrem Hcontent.
  unfold translate_with_llm.
  rewrite (nonempty_blank _ Hb), (nonempty_strip _ Hb). cbn [negb orb].
  destruct (cache_lookup text target_lang w) as [o w0] eqn:Hl.
  simpl in Hmiss. subst o.
  assert (w0 = w) as ->.
  { unfold cache_lookup in Hl. rewrite Hc, Hk in Hl.
    repeat case_match; simplify_eq; done. }
  rewrite Hsel, Hapi. cbn [negb].
  destruct (request_translation_content _ _ api url m _ _ _ _ _ Hc Hk Hrem Hcontent)
    as (w1 & Hreq & Hnow & Hcache).
  rewrite Hreq. exists w1. split; [done|].
  split; [|done]. by apply request_translation_sent in Hreq.
Qed.

(** An entry that is stored and has not expired is a hit. *)
Lemma lookup_stored text target_lang w s key v stored :
  cache w = Some (Store (store_set s key v 86400 stored)) →
  get_translation_cache_key text target_lang = Some key →
  nonempty v = true →
  (now w < stored + 86400)%Z →
  cache_lookup text target_lang w = (Some v, w).
Proof.
  intros Hc Hk Hv Ht. unfold cache_lookup.
  rewrite Hc, Hk. unfold cache_get, store_get, store_set. rewrite lookup_insert_eq.
  destruct (Z.ltb_spec (now w) (stored + 86400)); [|lia].
  by rewrite Hv.
Qed.

(** An entry whose time is up is a miss. *)
Lemma lookup_expired text target_lang w s key v stored :
  cache w = Some (Store (store_set s key v 86400 stored)) →
  get_translation_cache_key text target_lang = Some key →
  (stored + 86400 ≤ now w)%Z →
  cache_lookup text target_lang w = (None, w).
Proof.
  intros Hc Hk Ht. unfold cache_lookup.
  rewrite Hc, Hk. unfold cache_get, store_get, store_set. rewrite lookup_insert_eq.
  by destruct (Z.ltb_spec (now w) (stored + 86400)); [lia|].
Qed.

(** A miss with a key configured: the request goes out, whatever comes
    back. *)
Lemma translate_miss_sent text target_lang model w api url m r w' :
  blank text = false →
  (cache_lookup text target_lang w).1 = None →
  select_api model (config w) = (api, url, m) →
  nonempty api = true →
  translate_with_llm text target_lang model w = (r, w') →
  sent w' = sent w ++ [Request api url m (make_prompt text target_lang)].
Proof.
  intros Hb Hmiss Hsel Hapi. unfold translate_with_llm.
  rewrite (nonempty_blank _ Hb), (nonempty_strip _ Hb). cbn [negb orb].
  destruct (cache_lookup text target_lang w) as [o w0] eqn:Hl.
  simpl in Hmiss. subst o.
  apply cache_lookup_world in Hl as (Hcfg & _ & _ & _ & Hsent).
  rewrite Hcfg, Hsel, Hapi. cbn [negb]. intros Hrun.
  destruct (request_translation _ _ _ _ _ w0) as [[v|e] w1] eqn:Hreq;
    apply request_translation_sent in Hreq; rewrite Hsent in Hreq.
  - by injection Hrun as <- <-.
  - apply reraise_sent in Hrun. by rewrite Hrun.
Qed.

Lemma cache_save_log text target_lang v w :
  log w `prefix_of` log (cache_save text target_lang v w).
Proof.
  unfold cache_save, emit. repeat case_match; simpl; try done.
  all: by apply prefix_app_r.
Qed.

Lemma request_translation_world text target_lang key url m w r w' :
  request_translation text target_lang key url m w = (r, w') →
  config w' = config w ∧ remote w' = remote w ∧ (now w ≤ now w')%Z
  ∧ log w `prefix_of` log w'.
Proof.
  unfold request_translation. intros H.
  set (w0 := if (6000 <? _)%Z then emit WarnTextTooLong w else w) in H.
  assert (config w0 = config w ∧ remote w0 = remote w ∧ now w0 = now w
          ∧ log w `prefix_of` log w0) as (Hc & Hr & Hn & Hl).
  { subst w0. destruct (_ <? _)%Z; simpl; repeat split; try done.
    by apply prefix_app_r. }
  clearbody w0. unfold create in H.
  destruct (remote w0 _ _) as [r0 secs]. pose proof (N2Z.is_nonneg secs) as Hs.
  rewrite <- Hc, <- Hr, <- Hn.
  destruct r0 as [ty msg| | |[content|]].
  1-3, 5: injection H as <- <-; simpl; repeat split; try done; try lia;
          by repeat apply prefix_app_r.
  destruct (negb (nonempty (Str.strip content))).
  { injection H as <- <-; simpl; repeat split; try done; try lia.
    by apply prefix_app_r. }
  injection H as <- <-.
  match goal with |- context [cache_save ?a ?b ?c ?x] =>
    destruct (cache_save_world a b c x) as (-> & -> & -> & _);
    pose proof (cache_save_log a b c x) as Hlog
  end.
  split; [by destruct (decide _)|]. split; [by destruct (decide _)|].
  split; [destruct (decide _); simpl; lia|].
  etrans; [|exact Hlog]. etrans; [exact Hl|].
  destruct (decide _); simpl; [by apply prefix_app_r|done].
Qed.
Lemma cache_lookup_log text target_lang w :
  log w `prefix_of` log (cache_lookup text target_lang w).2.
Proof.
  unfold cache_lookup, emit. repeat case_match; simpl; try done.
  by apply prefix_app_r.
Qed.

(** What a call leaves of the world. *)
Lemma translate_world text target_lang model w r w' :
  translate_with_llm text target_lang model w = (r, w') →
  config w' = config w ∧ remote w' = remote w ∧ (now w ≤ now w')%Z
  ∧ log w `prefix_of` log w'
  ∧ (sent w' = sent w
     ∨ sent w' = sent w ++ [request_of text target_lang model (config w)]).
Proof.
  unfold translate_with_llm. intros H.
  destruct (negb (nonempty text) || negb (nonempty (Str.strip text))).
  { injection H as <- <-. split; [done|]. split; [done|]. split; [lia|].
    split; [done|by left]. }
  pose proof (cache_lookup_log text target_lang w) as Hlog.
  destruct (cache_lookup text target_lang w) as [o w0] eqn:Hl. simpl in Hlog.
  apply cache_lookup_world in Hl as (Hc & _ & Hn & Hr & Hs).
  destruct o as [v|].
  { injection H as <- <-. split; [done|]. split; [done|]. split; [lia|].
    split; [done|by left]. }
  unfold request_of. rewrite <- Hc.
  destruct (select_api model (config w0)) as [[api url] m].
  destruct (negb (nonempty api)).
  { injection H as <- <-. simpl. split; [done|]. split; [done|]. split; [lia|].
    split; [|by left]. etrans; [exact Hlog|]. rewrite <- app_assoc. by apply prefix_app_r. }
  destruct (request_translation _ _ _ _ _ w0) as [[v|e] w1] eqn:Hreq.
  - injection H as <- <-.
    destruct (request_translation_world _ _ _ _ _ _ _ _ Hreq) as (-> & -> & ? & ?).
    apply request_translation_sent in Hreq.
    split; [done|]. split; [done|]. split; [lia|].
    split; [by etrans|]. right. by rewrite Hreq, Hs.
  - destruct (request_translation_world _ _ _ _ _ _ _ _ Hreq) as (Hc1 & Hr1 & ? & ?).
    apply request_translation_sent in Hreq.
    unfold reraise in H. injection H as <- <-. simpl.
    split; [by rewrite Hc1|]. split; [by rewrite Hr1|]. split; [lia|].
    split; [|right; by rewrite Hreq, Hs].
    apply prefix_app_r. by etrans.
Qed.

(** The [try] block changes the cache only by storing what it returns. *)
Lemma request_translation_cache text target_lang key url m w r w' :
  request_translation text target_lang key url m w = (r, w') →
  cache w' = cache w
  ∨ ∃ s k v, cache w = Some (Store s) ∧ get_translation_cache_key text target_lang = Some k
      ∧ r = Ok v ∧ nonempty v = true
      ∧ cache w' = Some (Store (store_set s k v 86400 (now w'))).
Proof.
  unfold request_translation. intros H.
  set (w0 := if (6000 <? _)%Z then emit WarnTextTooLong w else w) in H.
  assert (cache w0 = cache w) as Hc by (subst w0; by destruct (_ <? _)%Z).
  clearbody w0. unfold create in H.
  destruct (remote w0 _ _) as [r0 secs]. rewrite <- Hc.
  destruct r0 as [ty msg| | |[content|]].
  1-3, 5: injection H as <- <-; by left.
  destruct (nonempty (Str.strip content)) eqn:Hv; cbn [negb] in H;
    [|injection H as <- <-; by left].
  injection H as <- <-.
  match goal with |- context [cache_save ?a ?b ?c ?x] =>
    destruct (cache_save_world a b c x) as (_ & Hnow & _); rewrite Hnow;
    assert (cache x = cache w0 ∧ now x = (now w0 + Z.of_N secs)%Z) as [Hcx Hnx]
      by (by destruct (decide _));
    unfold cache_save; rewrite Hcx, Hnx
  end.
  destruct (cache w0) as [[|s]|]; [| |by left].
  { left. by destruct (get_translation_cache_key text target_lang), (decide _). }
  destruct (get_translation_cache_key text target_lang) as [k|] eqn:Hk;
    [|left; by destruct (decide _)].
  right. exists s, k, (Str.strip content). by cbn [cache cache_set].
Qed.

(** A text that is not blank is never answered with an empty string. *)
Lemma request_translation_nonempty text target_lang key url m w v w' :
  nonempty text = true →
  request_translation text target_lang key url m w = (Ok v, w') →
  nonempty v = true.
Proof.
  unfold request_translation. intros Ht H.
  destruct (create _ _) as [r0 w1].
  destruct r0 as [ty msg| | |[content|]]; try discriminate H.
  destruct (nonempty (Str.strip content)) eqn:Hv; cbn [negb] in H.
  - by injection H as <- _.
  - by injection H as <- _.
Qed.

Lemma translate_nonempty text target_lang model w v w' :
  blank text = false →
  translate_with_llm text target_lang model w = (Ok v, w') →
  nonempty v = true.
Proof.
  intros Hb. unfold translate_with_llm.
  rewrite (nonempty_blank _ Hb), (nonempty_strip _ Hb). cbn [negb orb].
  destruct (cache_lookup text target_lang w) as [[c|] w0] eqn:Hl.
  { intros [= <- <-]. by apply cache_lookup_hit in Hl as [_ ?]. }
  destruct (select_api model (config w0)) as [[api url] m].
  destruct (negb (nonempty api)).
  { intros [= <- <-]. by apply nonempty_blank. }
  destruct (request_translation _ _ _ _ _ w0) as [[v1|e] w1] eqn:Hreq.
  - intros [= <- <-]. eapply request_translation_nonempty; [|exact Hreq].
    by apply nonempty_blank.
  - unfold reraise. discriminate.
Qed.

(** The cache after a call. *)
Lemma translate_cache text target_lang model w r w' :
  translate_with_llm text target_lang model w = (r, w') →
  cache w' = cache w
  ∨ ∃ s k v, cache w = Some (Store s) ∧ get_translation_cache_key text target_lang = Some k
      ∧ r = Ok v ∧ nonempty v = true
      ∧ cache w' = Some (Store (store_set s k v 86400 (now w'))).
Proof.
  unfold translate_with_llm. intros H.
  destruct (negb (nonempty text) || negb (nonempty (Str.strip text)));
    [injection H as <- <-; by left|].
  destruct (cache_lookup text target_lang w) as [o w0] eqn:Hl.
  apply cache_lookup_world in Hl as (_ & Hc & _).
  destruct o as [v|]; [injection H as <- <-; by left|].
  destruct (select_api model (config w0)) as [[api url] m].
  destruct (negb (nonempty api)); [injection H as <- <-; by left|].
  destruct (request_translation _ _ _ _ _ w0) as [[v|e] w1] eqn:Hreq.
  - injection H as <- <-. rewrite <- Hc. by apply request_translation_cache with api url m.
  - unfold reraise in H. injection H as <- <-. simpl. left.
    destruct (request_translation_cache _ _ _ _ _ _ _ _ Hreq)
      as [Heq|(? & ? & ? & _ & _ & ? & _)]; [by rewrite Heq|discriminate].
Qed.

(** Without a key the call returns at once. *)
Lemma translate_no_key text target_lang model w :
  nonempty (QWEN_API_KEY (config w)) = false →
  nonempty (OPENAI_API_KEY (config w)) = false →
  ∃ v w', translate_with_llm text target_lang model w = (Ok v, w')
    ∧ config w' = config w ∧ cache w' = cache w ∧ sent w' = sent w
    ∧ (cache w = None → v = text).
Proof.
  intros Hq Ho. unfold translate_with_llm.
  destruct (negb (nonempty text) || negb (nonempty (Str.strip text)));
    [by eexists _, _|].
  destruct (cache_lookup text target_lang w) as [o w0] eqn:Hl.
  assert (cache w = None → o = None) as Hnone.
  { intros Hc. unfold cache_lookup in Hl. rewrite Hc in Hl. by injection Hl as <- _. }
  apply cache_lookup_world in Hl as (Hc & Hca & _ & _ & Hs).
  destruct o as [v|].
  { eexists _, _. split; [done|]. repeat split; try done.
    intros Hcache. by specialize (Hnone Hcache). }
  unfold select_api. rewrite Hc, Hq, Ho. cbn [negb nonempty].
  eexists _, _. split; [done|]. by repeat split.
Qed.

(** The [try] block when the endpoint has been asked. *)
Lemma request_translation_reply text target_lang key url m w reply secs :
  remote w (length (sent w)) (Request key url m (make_prompt text target_lang))
    = (reply, secs) →
  ∃ w1, cache w1 = cache w
    ∧ create (Request key url m (make_prompt text target_lang)) w1
      = (reply, World (config w) (cache w) (now w + Z.of_N secs) (remote w)
                  (sent w ++ [Request key url m (make_prompt text target_lang)])
                  (log w1))
    ∧ request_translation text target_lang key url m w
      = (let '(r, w2) := create (Request key url m (make_prompt text target_lang)) w1 in
         match r with
         | CallRaises _ error_msg =>
           (Raise (Exn (u "Exception") (api_error_message m error_msg)),
            emit (ErrApiCall error_msg) w2)
         | EmptyResponse => (Raise (Exn (u "Exception") (u "API返回空响应")), w2)
         | MissingMessage =>
           (Raise (Exn (u "Exception") (u "API响应格式错误：缺少message字段")), w2)
         | Content None =>
           (Raise (Exn (u "AttributeError")
                     (u "'NoneType' object has no attribute 'strip'")), w2)
         | Content (Some content) =>
           if negb (nonempty (Str.strip content)) then (Ok text, emit WarnEmptyResult w2)
           else
             (Ok (Str.strip content),
              cache_save text target_lang (Str.strip content)
                (if decide (Str.strip content = text) then emit WarnUnchanged w2 else w2))
         end).
Proof.
  intros Hrem. unfold request_translation.
  exists (if (6000 <? Z.of_nat (length text))%Z then emit WarnTextTooLong w else w).
  split; [by destruct (_ <? _)%Z|]. split; [|done].
  unfold create. destruct (_ <? _)%Z; cbn [emit config cache now remote sent log];
    by rewrite Hrem.
Qed.

End TranslatorFacts.

Section TranslatorClaims.

Import Translator.

(** C9. For every text that is empty or consists only of whitespace,
    [translate_with_llm] returns the text itself, for any target language
    and model, and leaves the world as it was: no request is sent, the
    cache and the log are untouched. *)
Theorem translate_blank_is_noop (text target_lang : list N) (model : option (list N))
    (w : world) :
  blank text = true →
  translate_with_llm text target_lang model w = (Ok text, w).
Proof.
  intros H. unfold translate_with_llm.
  apply strip_nil in H. rewrite H.
  cbn [nonempty negb]. by rewrite orb_true_r.
Qed.

Lemma translate_blank_is_noop_witness :
  translate_with_llm [] (u "zh") None (fresh_world qwen_config (always "x"))
    = (Ok [], fresh_world qwen_config (always "x"))
  ∧ translate_with_llm (u "   ") (u "zh") None (fresh_world qwen_config (always "x"))
    = (Ok (u "   "), fresh_world qwen_config (always "x")).
Proof.
  split; apply translate_blank_is_noop; reflexivity.
Defined.

(** Which key the call goes out with. *)
Lemma select_api_key model c :
  nonempty (select_api model c).1.1
  = nonempty (QWEN_API_KEY c) || nonempty (OPENAI_API_KEY c).
Proof.
  unfold select_api. by destruct (nonempty (QWEN_API_KEY c)) eqn:Hq.
Qed.




(** C5. In the application as [create_app()] builds it nothing is ever
    served from the cache.  What [get_cache()] finds is the registry:
    the lookup misses and the write raises.  So with a key configured, two
    calls for the same text and target language, [d] seconds apart, send
    two requests, one each; and when the endpoint answers the first with a
    text that is not blank, the call returns it and its last log record is
    the warning that the cache could not be written. *)
Theorem registry_serves_nothing (text target_lang : list N) (model model' : option (list N))
    (d : Z) (w : world) r w1 r' w2 :
  blank text = false →
  cache w = Some Registry →
  nonempty (QWEN_API_KEY (config w)) || nonempty (OPENAI_API_KEY (config w)) = true →
  translate_with_llm text target_lang model w = (r, w1) →
  translate_with_llm text target_lang model' (later d w1) = (r', w2) →
  cache w1 = Some Registry ∧ cache w2 = Some Registry
  ∧ sent w2 = sent w ++ [request_of text target_lang model (config w);
                         request_of text target_lang model' (config w)]
  ∧ (∀ content secs,
       remote w (length (sent w)) (request_of text target_lang model (config w))
         = (Content (Some content), secs) →
       blank content = false →
       r = Ok (Str.strip content) ∧ last (log w1) = Some WarnCacheWrite).
Proof.
  intros Hb Hc Hkey H1 H2.
  assert (∀ m0 w0 r0 w0', cache w0 = Some Registry → config w0 = config w →
            translate_with_llm text target_lang m0 w0 = (r0, w0') →
            cache w0' = Some Registry ∧ config w0' = config w
            ∧ sent w0' = sent w0 ++ [request_of text target_lang m0 (config w)])
    as Hcall.
  { intros m0 w0 r0 w0' Hc0 Hcfg Hrun. split; [|split].
    - destruct (translate_cache _ _ _ _ _ _ Hrun) as [Heq|(s & ? & ? & Hs & _)];
        [by rewrite Heq|]. rewrite Hc0 in Hs. discriminate Hs.
    - apply translate_world in Hrun as (-> & _). exact Hcfg.
    - rewrite <- Hcfg. unfold request_of.
      pose proof (select_api_key m0 (config w0)) as Hk. rewrite Hcfg, Hkey in Hk.
      rewrite <- Hcfg in Hk.
      destruct (select_api m0 (config w0)) as [[api url] m] eqn:Hsel.
      apply translate_miss_sent with m0 r0; try done.
      apply lookup_without_store. by right. }
  destruct (Hcall _ _ _ _ Hc eq_refl H1) as (Hc1 & Hcfg1 & Hs1).
  destruct (Hcall model' (later d w1) _ _ Hc1 Hcfg1 H2) as (Hc2 & _ & Hs2).
  split; [exact Hc1|]. split; [exact Hc2|].
  split; [rewrite Hs2; simpl; rewrite Hs1; by rewrite <- app_assoc|].
  intros content secs Hrem Hcontent. revert H1. unfold translate_with_llm.
  rewrite (nonempty_blank _ Hb), (nonempty_strip _ Hb). cbn [negb orb].
  destruct (cache_lookup text target_lang w) as [o w0] eqn:Hl.
  pose proof (lookup_without_store text target_lang w (or_intror Hc)) as Hmiss.
  rewrite Hl in Hmiss. simpl in Hmiss. subst o.
  apply cache_lookup_world in Hl as (Hcfg0 & Hca0 & _ & Hr0 & Hs0).
  unfold request_of in Hrem. rewrite <- Hcfg0 in Hrem.
  pose proof (select_api_key model (config w0)) as Hk. rewrite Hcfg0, Hkey in Hk.
  rewrite <- Hcfg0 in Hk.
  destruct (select_api model (config w0)) as [[api url] m]. simpl in Hk.
  rewrite Hk. cbn [negb].
  rewrite <- Hr0, <- Hs0 in Hrem.
  destruct (request_translation_reply _ _ _ _ _ _ _ _ Hrem) as (w3 & Hc3 & Hcreate & ->).
  rewrite Hcreate. rewrite (nonempty_strip _ Hcontent). cbn [negb].
  rewrite cache_save_registry.
  - intros [= <- <-]. split; [done|]. simpl. by rewrite last_snoc.
  - destruct (decide _); simpl; by rewrite Hca0.
Qed.

Lemma registry_serves_nothing_witness :
  sent (translate_with_llm hello zh None
          (later 3600 (translate_with_llm hello zh None qwen_world).2)).2
    = sent qwen_world ++ [request_of hello zh None (config qwen_world);
                          request_of hello zh None (config qwen_world)]
  ∧ (translate_with_llm hello zh None qwen_world).1 = Ok (Str.strip (u "你好，世界"))
  ∧ last (log (translate_with_llm hello zh None qwen_world).2) = Some WarnCacheWrite.
Proof.
  assert (blank hello = false) as Hb by (vm_compute; reflexivity).
  assert (blank (u "你好，世界") = false) as Hcontent by (vm_compute; reflexivity).
  destruct (registry_serves_nothing hello zh None None 3600 qwen_world _ _ _ _
              Hb eq_refl eq_refl (surjective_pairing _) (surjective_pairing _))
    as (_ & _ & Hsent & Hlast).
  destruct (Hlast (u "你好，世界") 1%N eq_refl Hcontent) as [Hr Hlog].
  exact (conj Hsent (conj Hr Hlog)).
Defined.


End TranslatorClaims.

(** ** The layout normalizer *)

(** One step through a loop body: the binds of the option monad are
    reduced, the operations on Python values are left folded. *)
Ltac run H := cbn [mbind option_bind negb] in H.

(** The next bind of [H : (x ← e; k) = Some _]: [e] has a value. *)
Ltac bind H :=
  match type of H with
  | mbind _ ?e = Some _ =>
    let E := fresh "E" in destruct e eqn:E; [run H | discriminate H]
  end.

(** The next test of [H : (if c then _ else _) = Some _]. *)
Ltac test H :=
  match type of H with
  | (if ?c then _ else _) = Some _ =>
    let E := fresh "E" in destruct c eqn:E; run H
  end.

Section LayoutFacts.

Import Layout.

Lemma elem_of_mapM_concat {A B} (f : A → option (list B)) l out b :
  mapM f l = Some out → b ∈ concat out →
  ∃ x bs, x ∈ l ∧ f x = Some bs ∧ b ∈ bs.
Proof.
  rewrite mapM_Some. intros HF. induction HF as [|x bs l out Hx _ IH]; simpl.
  - intros H. by apply elem_of_nil in H.
  - rewrite elem_of_app. intros [H|H].
    + exists x, bs. split; [left|done].
    + destruct (IH H) as (x' & bs' & Hin & Hf & Hb).
      exists x', bs'. split; [by right|done].
Qed.

Lemma is_text_or_title_spec v : is_text_or_title v = true → text_or_title v.
Proof.
  unfold is_text_or_title, text_or_title, eq_str. destruct v; try done.
  intros [H|H]%orb_true_iff; apply bool_decide_eq_true in H; subst; auto.
Qed.

Lemma bbox_accepted v : bbox_rejected v = Some false → long_bbox v.
Proof.
  unfold bbox_rejected, long_bbox. destruct (truthy v); [|done].
  simpl. destruct (len v) as [n|]; [|done]. simpl.
  intros [= H]. split; [done|]. exists n. split; [done|].
  apply Nat.ltb_ge in H. exact H.
Qed.

Lemma stripped_trimmed s : truthy (PStr (Str.strip s)) = true → trimmed (Str.strip s).
Proof.
  intros H. split; [|apply strip_strip]. by destruct (Str.strip s).
Qed.

Lemma no_block {A} (b : A) : b ∈ @nil A → False.
Proof. apply elem_of_nil. Qed.

(** Format 1, one paragraph block. *)
Lemma para_block_emits page_no block bs b :
  para_block page_no block = Some bs → b ∈ bs →
  page b = page_no ∧ trimmed (text b) ∧ long_bbox (bbox b) ∧ text_or_title (type b).
Proof.
  unfold para_block. intros H Hb.
  destruct (get block (u "type") (PStr [])) as [block_type|]; [|done]. run H.
  destruct (is_text_or_title block_type) eqn:Htt; run H;
    [|injection H as <-; by apply no_block in Hb].
  destruct (get block (u "bbox") (PList [])) as [box|]; [|done]. run H.
  destruct (bbox_rejected box) as [[|]|] eqn:Hrej; run H; [| |done].
  { injection H as <-. by apply no_block in Hb. }
  destruct (get block (u "lines") (PList [])) as [lines|]; [|done]. run H.
  destruct (iter lines) as [items|]; [|done]. run H.
  destruct (mapM line_parts items) as [parts|]; [|done]. run H.
  destruct (join_space (concat parts)) as [joined|]; [|done]. run H.
  destruct (truthy (PStr (Str.strip joined))) eqn:Htext; injection H as <-;
    [|by apply no_block in Hb].
  apply list_elem_of_singleton in Hb as ->. simpl.
  split; [done|]. split; [by apply stripped_trimmed|].
  split; [by apply bbox_accepted|by apply is_text_or_title_spec].
Qed.

(** Format 1, one page. *)
Lemma pdf_page_emits page_data bs b :
  pdf_page page_data = Some bs → b ∈ bs →
  (∃ fields, page_data = PDict fields ∧ page_of fields (page b))
  ∧ trimmed (text b) ∧ long_bbox (bbox b) ∧ text_or_title (type b).
Proof.
  unfold pdf_page. intros H Hb.
  destruct page_data as [| | | | | |fields]; try discriminate H.
  unfold get in H. run H. bind H.
  test H; [injection H as <-; by apply no_block in Hb|].
  bind H. bind H. bind H. injection H as <-.
  destruct (elem_of_mapM_concat _ _ _ _ E3 Hb) as (block & bs & _ & Hblock & Hin).
  destruct (para_block_emits _ _ _ _ Hblock Hin) as (-> & ? & ? & ?).
  split; [by exists fields|done].
Qed.

Lemma from_pdf_info_emits d bs b :
  from_pdf_info d = Some bs → b ∈ bs →
  (∃ pages page_items fields,
     get d (u "pdf_info") (PList []) = Some pages ∧ iter pages = Some page_items
     ∧ PDict fields ∈ page_items ∧ page_of fields (page b))
  ∧ trimmed (text b) ∧ long_bbox (bbox b) ∧ text_or_title (type b).
Proof.
  unfold from_pdf_info. intros H Hb.
  bind H. bind H. bind H. bind H. injection H as <-.
  destruct (elem_of_mapM_concat _ _ _ _ E2 Hb) as (page_data & bs & Hpage & Hemit & Hin).
  destruct (pdf_page_emits _ _ _ Hemit Hin) as ((fields & -> & ?) & ? & ? & ?).
  split; [by exists p, l, fields|done].
Qed.

(** Format 2, one item: the type is whatever the item says. *)
Lemma content_item_emits item bs b :
  content_item item = Some bs → b ∈ bs →
  trimmed (text b) ∧ long_bbox (bbox b).
Proof.
  unfold content_item. intros H Hb.
  bind H. bind H.
  test H; [injection H as <-; by apply no_block in Hb|].
  bind H. bind H.
  test H; [injection H as <-; by apply no_block in Hb|].
  bind H. bind H. bind H. bind H. injection H as <-.
  apply list_elem_of_singleton in Hb as ->. simpl.
  split; [|by apply bbox_accepted].
  destruct p; try discriminate E0. injection E0 as <-.
  apply stripped_trimmed. by apply negb_false_iff in E1.
Qed.

Lemma from_content_list_emits items bs b :
  from_content_list items = Some bs → b ∈ bs →
  trimmed (text b) ∧ long_bbox (bbox b).
Proof.
  unfold from_content_list. intros H Hb. bind H. injection H as <-.
  destruct (elem_of_mapM_concat _ _ _ _ E Hb) as (item & bs & _ & Hitem & Hin).
  by apply content_item_emits with item bs.
Qed.

(** Where a block of format 2 comes from. *)
Lemma content_item_origin item bs b :
  content_item item = Some bs → b ∈ bs →
  ∃ fields, item = PDict fields ∧ type b = item_type fields
    ∧ page_of fields (page b).
Proof.
  unfold content_item. intros H Hb.
  destruct item as [| | | | | |fields]; try discriminate H.
  exists fields. split; [done|].
  unfold get in H. run H. bind H.
  test H; [injection H as <-; by apply no_block in Hb|].
  bind H.
  test H; [injection H as <-; by apply no_block in Hb|].
  bind H. injection H as <-.
  apply list_elem_of_singleton in Hb as ->. simpl. by split.
Qed.

Lemma from_content_list_origin items bs b :
  from_content_list items = Some bs → b ∈ bs →
  ∃ fields, PDict fields ∈ items ∧ type b = item_type fields
    ∧ page_of fields (page b).
Proof.
  unfold from_content_list. intros H Hb. bind H. injection H as <-.
  destruct (elem_of_mapM_concat _ _ _ _ E Hb) as (item & bs & Hitem & Hemit & Hin).
  destruct (content_item_origin _ _ _ Hemit Hin) as (fields & -> & ? & ?).
  by exists fields.
Qed.

(** Format 3, one block of the page numbered [page_no]. *)
Lemma model_block_emits page_no block bs b :
  model_block page_no block = Some bs → b ∈ bs →
  page b = page_no ∧ trimmed (text b) ∧ long_bbox (bbox b).
Proof.
  unfold model_block. intros H Hb.
  test H; [injection H as <-; by apply no_block in Hb|].
  bind H. bind H.
  test H; [injection H as <-; by apply no_block in Hb|].
  bind H. bind H.
  test H; [injection H as <-; by apply no_block in Hb|].
  bind H. injection H as <-.
  apply list_elem_of_singleton in Hb as ->. simpl.
  split; [done|]. split; [|by apply bbox_accepted].
  destruct p; try discriminate E1. injection E1 as <-.
  apply stripped_trimmed. by apply negb_false_iff in E2.
Qed.

Lemma model_page_emits i page_blocks bs b :
  model_page i page_blocks = Some bs → b ∈ bs →
  page b = PInt (Z.of_nat i + 1) ∧ trimmed (text b) ∧ long_bbox (bbox b).
Proof.
  unfold model_page. intros H Hb.
  destruct page_blocks as [| | | | |blocks|];
    try (injection H as <-; by apply no_block in Hb).
  bind H. injection H as <-.
  destruct (elem_of_mapM_concat _ _ _ _ E Hb) as (block & bs & _ & Hblock & Hin).
  by apply model_block_emits with block bs.
Qed.

Lemma from_model_emits pages bs b :
  from_model pages = Some bs → b ∈ bs →
  at_least_one (page b) ∧ trimmed (text b) ∧ long_bbox (bbox b).
Proof.
  unfold from_model. intros H Hb. bind H. injection H as <-.
  destruct (elem_of_mapM_concat _ _ _ _ E Hb) as (r & bs & Hr & Hid & Hin).
  apply elem_of_lookup_imap in Hr as (i & page_blocks & -> & _).
  destruct (model_page_emits _ _ _ _ Hid Hin) as (Hpage & ? & ?).
  split; [|done]. exists (Z.of_nat i + 1)%Z. split; [done|lia].
Qed.

(** Where a block of format 3 comes from. *)
Lemma model_block_origin page_no block bs b :
  model_block page_no block = Some bs → b ∈ bs →
  ∃ fields, block = PDict fields ∧ type b = own_type fields.
Proof.
  unfold model_block. intros H Hb.
  destruct block as [| | | | | |fields];
    try (injection H as <-; by apply no_block in Hb).
  exists fields. split; [done|].
  cbn [is_dict negb] in H. unfold get in H. run H. bind H.
  test H; [injection H as <-; by apply no_block in Hb|].
  bind H.
  test H; [injection H as <-; by apply no_block in Hb|].
  injection H as <-.
  by apply list_elem_of_singleton in Hb as ->.
Qed.

Lemma from_model_origin pages bs b :
  from_model pages = Some bs → b ∈ bs →
  ∃ i blocks fields,
    pages !! i = Some (PList blocks) ∧ PDict fields ∈ blocks
    ∧ page b = PInt (Z.of_nat i + 1) ∧ type b = own_type fields.
Proof.
  unfold from_model. intros H Hb. bind H. injection H as <-.
  destruct (elem_of_mapM_concat _ _ _ _ E Hb) as (r & bs & Hr & Hid & Hin).
  apply elem_of_lookup_imap in Hr as (i & page_blocks & -> & Hi).
  destruct (model_page_emits _ _ _ _ Hid Hin) as (Hpage & _).
  unfold id, model_page in Hid.
  destruct page_blocks as [| | | | |blocks|];
    try (injection Hid as <-; by apply no_block in Hin).
  bind Hid. injection Hid as <-.
  destruct (elem_of_mapM_concat _ _ _ _ E0 Hin) as (block & bs & Hblock & Hemit & Hin').
  destruct (model_block_origin _ _ _ _ Hemit Hin') as (fields & -> & ?).
  by exists i, blocks, fields.
Qed.

Lemma legacy_bbox_truthy block box : legacy_bbox block = Some box → truthy box = true.
Proof.
  unfold legacy_bbox, por. intros H.
  bind H. test H; [by injection H as <-|].
  bind H. injection H as <-. by destruct (truthy p0) eqn:E2.
Qed.

(** Format 4, one block of a page whose number is [page_no]. *)
Lemma legacy_block_emits page_no block bs b :
  legacy_block page_no block = Some bs → b ∈ bs →
  page b = page_no ∧ legacy_bbox block = Some (bbox b)
  ∧ trimmed (text b) ∧ text_or_title (type b).
Proof.
  unfold legacy_block. intros H Hb.
  bind H. test H; [|injection H as <-; by apply no_block in Hb].
  bind H. test H; [injection H as <-; by apply no_block in Hb|].
  bind H. bind H. bind H.
  test H; [|injection H as <-; by apply no_block in Hb].
  bind H. injection H as <-.
  apply list_elem_of_singleton in Hb as ->. simpl.
  split; [done|]. split; [done|].
  split; [by apply stripped_trimmed|by apply is_text_or_title_spec].
Qed.

Lemma legacy_page_emits page_data bs b :
  legacy_page page_data = Some bs → b ∈ bs →
  ∃ blocks items block,
    get page_data (u "blocks") (PList []) = Some blocks
    ∧ iter blocks = Some items ∧ block ∈ items
    ∧ legacy_page_no page_data = Some (page b)
    ∧ legacy_bbox block = Some (bbox b)
    ∧ trimmed (text b) ∧ text_or_title (type b).
Proof.
  unfold legacy_page. intros H Hb.
  bind H. bind H.
  test H; [injection H as <-; by apply no_block in Hb|].
  bind H. bind H. bind H. injection H as <-.
  destruct (elem_of_mapM_concat _ _ _ _ E4 Hb) as (block & bs & Hblock & Hemit & Hin).
  destruct (legacy_block_emits _ _ _ _ Hemit Hin) as (<- & ? & ? & ?).
  by exists p0, l, block.
Qed.

Lemma from_pages_emits d bs b :
  from_pages d = Some bs → b ∈ bs →
  ∃ pages page_items page_data blocks items block,
    get d (u "pages") (PList []) = Some pages
    ∧ iter pages = Some page_items ∧ page_data ∈ page_items
    ∧ get page_data (u "blocks") (PList []) = Some blocks
    ∧ iter blocks = Some items ∧ block ∈ items
    ∧ legacy_page_no page_data = Some (page b)
    ∧ legacy_bbox block = Some (bbox b)
    ∧ trimmed (text b) ∧ text_or_title (type b).
Proof.
  unfold from_pages. intros H Hb.
  bind H. test H; [|injection H as <-; by apply no_block in Hb].
  bind H. bind H. bind H. injection H as <-.
  destruct (elem_of_mapM_concat _ _ _ _ E3 Hb) as (page_data & bs & Hpage & Hemit & Hin).
  destruct (legacy_page_emits _ _ _ Hemit Hin)
    as (blocks & items & block & ? & ? & ? & ? & ? & ? & ?).
  by exists p, l, page_data, blocks, items, block.
Qed.

(** Where a block of format 4 comes from: the block of the page that
    gives it its text, its type and its box, alone. *)
Lemma legacy_block_origin page_no block bs b :
  legacy_block page_no block = Some bs → b ∈ bs →
  bs = [b] ∧ ∃ fields, block = PDict fields ∧ type b = field fields (u "type").
Proof.
  unfold legacy_block. intros H Hb.
  destruct block as [| | | | | |fields]; try discriminate H.
  unfold get in H. run H.
  assert (default (PStr []) (lookup (u "type") fields) = field fields (u "type")
          ∨ is_text_or_title (default (PStr []) (lookup (u "type") fields)) = false)
    as [Hty|Hty].
  { unfold field. destruct (lookup (u "type") fields); [by left|by right]. }
  2: { rewrite Hty in H. injection H as <-. by apply no_block in Hb. }
  rewrite Hty in H.
  test H; [|injection H as <-; by apply no_block in Hb].
  test H; [injection H as <-; by apply no_block in Hb|].
  bind H. bind H. bind H.
  test H; [|injection H as <-; by apply no_block in Hb].
  bind H. injection H as <-.
  apply list_elem_of_singleton in Hb as ->. split; [done|].
  by exists fields.
Qed.

Lemma legacy_page_origin page_data bs b :
  legacy_page page_data = Some bs → b ∈ bs →
  ∃ blocks items block,
    get page_data (u "blocks") (PList []) = Some blocks
    ∧ iter blocks = Some items ∧ block ∈ items
    ∧ legacy_block (page b) block = Some [b]
    ∧ legacy_page_no page_data = Some (page b).
Proof.
  unfold legacy_page. intros H Hb.
  bind H. bind H.
  test H; [injection H as <-; by apply no_block in Hb|].
  bind H. bind H. bind H. injection H as <-.
  destruct (elem_of_mapM_concat _ _ _ _ E4 Hb) as (block & bs & Hblock & Hemit & Hin).
  destruct (legacy_block_emits _ _ _ _ Hemit Hin) as (<- & _).
  destruct (legacy_block_origin _ _ _ _ Hemit Hin) as (-> & _).
  by exists p0, l, block.
Qed.

Lemma from_pages_origin d bs b :
  from_pages d = Some bs → b ∈ bs →
  ∃ pages page_items page_data blocks items block,
    get d (u "pages") (PList []) = Some pages
    ∧ iter pages = Some page_items ∧ page_data ∈ page_items
    ∧ get page_data (u "blocks") (PList []) = Some blocks
    ∧ iter blocks = Some items ∧ block ∈ items
    ∧ legacy_block (page b) block = Some [b]
    ∧ legacy_page_no page_data = Some (page b).
Proof.
  unfold from_pages. intros H Hb.
  bind H. test H; [|injection H as <-; by apply no_block in Hb].
  bind H. bind H. bind H. injection H as <-.
  destruct (elem_of_mapM_concat _ _ _ _ E3 Hb) as (page_data & bs & Hpage & Hemit & Hin).
  destruct (legacy_page_origin _ _ _ Hemit Hin)
    as (blocks & items & block & ? & ? & ? & ? & ?).
  by exists p, l, page_data, blocks, items, block.
Qed.

(** The two or-chains of format 4 pick the first truthy value. *)
Lemma legacy_page_no_first_truthy fields :
  legacy_page_no (PDict fields) = first_truthy_page_no fields.
Proof.
  unfold legacy_page_no, first_truthy_page_no, first_truthy, field, get.
  cbn [mbind option_bind].
  repeat (destruct (truthy _); [reflexivity|]). reflexivity.
Qed.

Lemma legacy_bbox_first_truthy fields :
  legacy_bbox (PDict fields) = Some (first_truthy_bbox fields).
Proof.
  unfold legacy_bbox, first_truthy_bbox, first_truthy, field, get, por.
  cbn [mbind option_bind].
  repeat (destruct (truthy _); [reflexivity|]). reflexivity.
Qed.

Lemma get_is_dict v k default r : get v k default = Some r → ∃ fields, v = PDict fields.
Proof. destruct v; try done. by eexists. Qed.

(** Format 4 as a whole: every block comes from one block of one page of
    "pages", which gives it its text, type and box, and whose page gives
    it its number; both or-chains pick the first truthy value. *)
Lemma legacy_origin items b :
  lookup (u "pdf_info") items = None →
  b ∈ parse_mineru_layout_from_data (PDict items) →
  ∃ pages page_items page_fields blocks block_items block_fields,
    get (PDict items) (u "pages") (PList []) = Some pages
    ∧ iter pages = Some page_items ∧ PDict page_fields ∈ page_items
    ∧ get (PDict page_fields) (u "blocks") (PList []) = Some blocks
    ∧ iter blocks = Some block_items ∧ PDict block_fields ∈ block_items
    ∧ legacy_block (page b) (PDict block_fields) = Some [b]
    ∧ type b = field block_fields (u "type")
    ∧ first_truthy_page_no page_fields = Some (page b)
    ∧ first_truthy_bbox block_fields = bbox b.
Proof.
  intros Hpdf. unfold parse_mineru_layout_from_data, parse_try. intros Hb.
  destruct (truthy (PDict items)); cbn [negb] in Hb; [|by apply no_block in Hb].
  cbn [has mbind option_bind] in Hb. rewrite Hpdf in Hb.
  rewrite bool_decide_eq_false_2 in Hb by (by intros [? ?]).
  destruct (from_pages _) as [bs|] eqn:H; [|by apply no_block in Hb].
  destruct (from_pages_origin _ _ _ H Hb)
    as (pages & page_items & page_data & blocks & block_items & block
        & Hpages & Hiter & Hpage & Hblocks & Hiter' & Hblock & Hemit & Hno).
  destruct (get_is_dict _ _ _ _ Hblocks) as [page_fields ->].
  destruct (legacy_block_origin _ _ _ _ Hemit (list_elem_of_here _ _))
    as (_ & block_fields & -> & Hty).
  destruct (legacy_block_emits _ _ _ _ Hemit (list_elem_of_here _ _))
    as (_ & Hbox & _).
  rewrite legacy_page_no_first_truthy in Hno.
  rewrite legacy_bbox_first_truthy in Hbox. injection Hbox as Hbox.
  by exists pages, page_items, page_fields, blocks, block_items, block_fields.
Qed.

End LayoutFacts.

Section LayoutClaims.

Import Layout.

Lemma has_in_list k l : existsb (λ x, eq_str x k) l = true → PStr k ∈ l.
Proof.
  intros (x & Hin & Hx)%existsb_exists.
  apply list_elem_of_In in Hin. unfold eq_str in Hx.
  destruct x; try done. by apply bool_decide_eq_true in Hx as ->.
Qed.

(** A list with a string among its items is no content list: the loop
    fails on that item. *)
Lemma from_content_list_string k items :
  PStr k ∈ items → from_content_list items = None.
Proof.
  intros Hin. unfold from_content_list.
  assert (mapM content_item items = None) as ->; [|done].
  apply mapM_None, Exists_exists. by exists (PStr k).
Qed.

(** C10. On the input of the scenario the normalizer returns the single
    block of page 1 with the box [0, 0, 100, 20], the text "Intro" and the
    type "title". *)
Theorem scenario_output :
  parse_mineru_layout_from_data scenario_input
    = [Block (jint 1) (jarr [jint 0; jint 0; jint 100; jint 20]) (u "Intro") (jstr "title")]
  ∧ map to_py (parse_mineru_layout_from_data scenario_input)
    = [jobj [("page", jint 1); ("bbox", jarr [jint 0; jint 0; jint 100; jint 20]);
             ("text", jstr "Intro"); ("type", jstr "title")]%string].
Proof.
  assert (parse_try scenario_input
          = Some [Block (jint 1) (jarr [jint 0; jint 0; jint 100; jint 20])
                        (u "Intro") (jstr "title")]) as H.
  { vm_compute. reflexivity. }
  unfold parse_mineru_layout_from_data. rewrite H. split; [reflexivity|].
  vm_compute. reflexivity.
Qed.

(** C7. A list that is not empty and whose first item is a dict with the
    keys "text" and "page_idx" is read as a content list, whatever else
    holds of it: the result is what the loop of format 2 gives, and the
    empty layout when that loop raises.  Format 3 is reached only when
    this test has failed: a list whose first item is a list (and which has
    no item "pdf_info") is read page by page. *)
Theorem content_list_first (first_item : pyval) (rest : list pyval) :
  (is_content_item first_item = true →
   parse_mineru_layout_from_data (PList (first_item :: rest))
     = default [] (from_content_list (first_item :: rest)))
  ∧ (is_content_item first_item = false →
     is_list first_item = true →
     PStr (u "pdf_info") ∉ first_item :: rest →
     parse_mineru_layout_from_data (PList (first_item :: rest))
       = default [] (from_model (first_item :: rest))).
Proof.
  unfold parse_mineru_layout_from_data, parse_try.
  cbn [truthy negb has mbind option_bind].
  split.
  - intros Hfirst.
    destruct (existsb _ (first_item :: rest)) eqn:Hpdf.
    + apply has_in_list in Hpdf.
      rewrite (from_content_list_string _ _ Hpdf). reflexivity.
    + by rewrite Hfirst.
  - intros Hfirst Hlist Hpdf.
    destruct (existsb _ (first_item :: rest)) eqn:Hhas.
    + by apply has_in_list in Hhas.
    + by rewrite Hfirst, Hlist.
Qed.

Lemma content_list_first_witness :
  parse_mineru_layout_from_data equation_input
    = default [] (from_content_list
        [jobj [("type", jstr "equation"); ("text", jstr "E = mc^2");
               ("bbox", jarr [jint 1; jint 2; jint 3; jint 4]);
               ("page_idx", jint 0)]%string])
  ∧ parse_mineru_layout_from_data
      (jarr [jarr [jobj [("content", jstr "Abstract");
                         ("bbox", jarr [jint 0; jint 0; jint 1; jint 1])]%string]])
    = default [] (from_model
        [jarr [jobj [("content", jstr "Abstract");
                     ("bbox", jarr [jint 0; jint 0; jint 1; jint 1])]%string]]).
Proof.
  split.
  - apply content_list_first. vm_compute. reflexivity.
  - apply content_list_first.
    + vm_compute. reflexivity.
    + vm_compute. reflexivity.
    + intros H. apply list_elem_of_singleton in H. discriminate H.
Defined.

(** C1, as stated, fails: an equation of a content list is emitted with
    the type "equation"; a block of a [layout.json] page whose index is -1
    is emitted with the page 0; and a block of the old format with a box of
    two items, on a page whose index is -1, is emitted with that box and
    the page 0. *)
Lemma claimed_block_counterexample :
  (∃ b, b ∈ parse_mineru_layout_from_data equation_input ∧ ¬ claimed_block b)
  ∧ (∃ b, b ∈ parse_mineru_layout_from_data negative_page_input ∧ ¬ claimed_block b)
  ∧ (∃ b, b ∈ parse_mineru_layout_from_data legacy_short_input
          ∧ ¬ (∃ n, len (bbox b) = Some n ∧ 4 ≤ n) ∧ ¬ at_least_one (page b)
          ∧ ¬ claimed_block b).
Proof.
  split; [|split].
  - exists (Block (jint 1) (jarr [jint 1; jint 2; jint 3; jint 4])
                  (u "E = mc^2") (jstr "equation")).
    split.
    + assert (parse_mineru_layout_from_data equation_input
              = [Block (jint 1) (jarr [jint 1; jint 2; jint 3; jint 4])
                       (u "E = mc^2") (jstr "equation")]) as ->
        by (vm_compute; reflexivity).
      by apply list_elem_of_singleton.
    + intros (_ & _ & _ & [H|H]); vm_compute in H; discriminate H.
  - exists (Block (jint 0) (jarr [jint 0; jint 0; jint 100; jint 20])
                  (u "Intro") (jstr "text")).
    split.
    + assert (parse_mineru_layout_from_data negative_page_input
              = [Block (jint 0) (jarr [jint 0; jint 0; jint 100; jint 20])
                       (u "Intro") (jstr "text")]) as ->
        by (vm_compute; reflexivity).
      by apply list_elem_of_singleton.
    + intros (_ & _ & (z & Hz & Hle) & _). injection Hz as <-. lia.
  - exists (Block (jint 0) (jarr [jint 1; jint 2]) (u "x") (jstr "text")).
    assert (¬ (∃ n, len (jarr [jint 1; jint 2]) = Some n ∧ 4 ≤ n)) as Hbox.
    { intros (n & Hn & Hle). injection Hn as <-. simpl in Hle. lia. }
    assert (¬ at_least_one (jint 0)) as Hpage.
    { intros (z & Hz & Hle). injection Hz as <-. lia. }
    split; [|split; [exact Hbox|split; [exact Hpage|]]].
    + assert (parse_mineru_layout_from_data legacy_short_input
              = [Block (jint 0) (jarr [jint 1; jint 2]) (u "x") (jstr "text")]) as ->
        by (vm_compute; reflexivity).
      by apply list_elem_of_singleton.
    + intros (_ & H & _). by apply Hbox.
Qed.

(** C1, amended. Every block the normalizer emits, for every input, has a
    text that is not empty and has no whitespace at its ends, and a box
    that is truthy.  For a dict (formats 1 and 4) its type is "text" or
    "title".  With the key "pdf_info" (format 1) its box has at least four
    items and its page is the [page_idx] of a page of "pdf_info" (0 when
    absent) plus 1.  Without it (format 4) the block comes from one block
    of a page of "pages": its type is that block's, its box is the first
    truthy value among that block's [bbox] and [bbox_coords] and otherwise
    [0, 0, 0, 0], of whatever length, and its page is the first truthy
    value among the page's [page_no], [page] and [pageNo], whatever it is,
    and otherwise the page's [page_idx] (0 when absent) plus 1.  For a
    list (formats 2 and 3) its box has at least four items; when the first
    item is a content item (format 2) the block comes from an item of the
    list, its page is that item's [page_idx] (0 when absent) plus 1 and its
    type is "title" when the item's [text_level] equals 1 and the item's
    own type otherwise ("text" when absent); when it is not (format 3) the
    block comes from a block of a page of the list, its page is the
    position of that page counted from 1 and its type is the block's own.
    No other input emits a block. *)
Theorem emitted_blocks (d : pyval) (b : LayoutBlock) :
  b ∈ parse_mineru_layout_from_data d →
  trimmed (text b) ∧ truthy (bbox b) = true
  ∧ match d with
    | PDict items =>
      text_or_title (type b)
      ∧ (is_Some (lookup (u "pdf_info") items) →
         long_bbox (bbox b)
         ∧ ∃ pages page_items fields,
             lookup (u "pdf_info") items = Some pages ∧ iter pages = Some page_items
             ∧ PDict fields ∈ page_items ∧ page_of fields (page b))
      ∧ (lookup (u "pdf_info") items = None →
         ∃ pages page_items page_fields blocks block_items block_fields,
           lookup (u "pages") items = Some pages
           ∧ iter pages = Some page_items ∧ PDict page_fields ∈ page_items
           ∧ get (PDict page_fields) (u "blocks") (PList []) = Some blocks
           ∧ iter blocks = Some block_items ∧ PDict block_fields ∈ block_items
           ∧ legacy_block (page b) (PDict block_fields) = Some [b]
           ∧ type b = field block_fields (u "type")
           ∧ first_truthy_page_no page_fields = Some (page b)
           ∧ first_truthy_bbox block_fields = bbox b)
    | PList items =>
      long_bbox (bbox b)
      ∧ ∃ first_item rest, items = first_item :: rest
        ∧ if is_content_item first_item then
            ∃ fields, PDict fields ∈ items ∧ type b = item_type fields
              ∧ page_of fields (page b)
          else
            ∃ i blocks fields, items !! i = Some (PList blocks) ∧ PDict fields ∈ blocks
              ∧ page b = PInt (Z.of_nat i + 1) ∧ type b = own_type fields
    | _ => False
    end.
Proof.
  intros Hin. pose proof Hin as Hb. revert Hb.
  unfold parse_mineru_layout_from_data, parse_try. intros Hb.
  destruct (truthy d) eqn:Htruthy; cbn [negb] in Hb; [|by apply no_block in Hb].
  destruct d as [| | | |s|items|items]; cbn [has mbind option_bind] in Hb;
    try by apply no_block in Hb.
  - (* a string has no [get] *)
    destruct (Str.contains _ s); by apply no_block in Hb.
  - (* a list *)
    destruct (existsb _ items); [by apply no_block in Hb|].
    destruct items as [|first_item rest]; [by apply no_block in Hb|].
    destruct (is_content_item first_item) eqn:Hfirst.
    + destruct (from_content_list _) as [bs|] eqn:H; [|by apply no_block in Hb].
      destruct (from_content_list_emits _ _ _ H Hb) as (? & Hbox).
      split; [done|]. split; [apply Hbox|]. split; [done|].
      exists first_item, rest. split; [done|]. rewrite Hfirst.
      by apply from_content_list_origin with bs.
    + destruct (is_list first_item); [|by apply no_block in Hb].
      destruct (from_model _) as [bs|] eqn:H; [|by apply no_block in Hb].
      destruct (from_model_emits _ _ _ H Hb) as (_ & ? & Hbox).
      split; [done|]. split; [apply Hbox|]. split; [done|].
      exists first_item, rest. split; [done|]. rewrite Hfirst.
      by apply from_model_origin with bs.
  - (* a dict *)
    destruct (bool_decide (is_Some (lookup (u "pdf_info") items))) eqn:Hpdf.
    + destruct (from_pdf_info _) as [bs|] eqn:H; [|by apply no_block in Hb].
      destruct (from_pdf_info_emits _ _ _ H Hb)
        as ((pages & page_items & fields & Hget & ? & ? & ?) & ? & Hbox & ?).
      split; [done|]. split; [apply Hbox|]. split; [done|]. split.
      * intros [v Hv]. split; [done|].
        exists pages, page_items, fields. split; [|done].
        unfold get in Hget. rewrite Hv in Hget |- *. by injection Hget as <-.
      * intros Hnone. apply bool_decide_eq_true in Hpdf as [v Hv].
        rewrite Hv in Hnone. discriminate Hnone.
    + destruct (from_pages _) as [bs|] eqn:H; [|by apply no_block in Hb].
      destruct (from_pages_emits _ _ _ H Hb)
        as (? & ? & ? & ? & ? & block & _ & _ & _ & _ & _ & _ & _ & Hbox & ? & ?).
      split; [done|]. split; [by apply legacy_bbox_truthy with block|].
      split; [done|]. split.
      * intros Hsome. by apply bool_decide_eq_false in Hpdf.
      * intros Hnone.
        destruct (legacy_origin _ _ Hnone Hin)
          as (pages & page_items & page_fields & blocks & block_items & block_fields
              & Hpages & Hrest).
        exists pages, page_items, page_fields, blocks, block_items, block_fields.
        split; [|exact Hrest].
        unfold get in Hpages. simpl in Hpages.
        destruct (lookup (u "pages") items) as [v|] eqn:Hv; [exact Hpages|].
        simpl in Hpages. injection Hpages as <-.
        destruct Hrest as (Hiter & Hpage & _). injection Hiter as <-.
        by apply no_block in Hpage.
Qed.

Lemma emitted_blocks_witness :
  (trimmed (u "E = mc^2") ∧ long_bbox (jarr [jint 1; jint 2; jint 3; jint 4]))
  ∧ ∃ page_fields block_fields,
      first_truthy_page_no page_fields = Some (jint 0)
      ∧ first_truthy_bbox block_fields = jarr [jint 1; jint 2].
Proof.
  split.
  - assert (Block (jint 1) (jarr [jint 1; jint 2; jint 3; jint 4])
                  (u "E = mc^2") (jstr "equation")
            ∈ parse_mineru_layout_from_data equation_input) as Hin.
    { assert (parse_mineru_layout_from_data equation_input
              = [Block (jint 1) (jarr [jint 1; jint 2; jint 3; jint 4])
                       (u "E = mc^2") (jstr "equation")]) as ->
        by (vm_compute; reflexivity).
      by apply list_elem_of_singleton. }
    destruct (emitted_blocks _ _ Hin) as (Ht & _ & Hbox & _).
    exact (conj Ht Hbox).
  - assert (Block (jint 0) (jarr [jint 1; jint 2]) (u "x") (jstr "text")
            ∈ parse_mineru_layout_from_data legacy_short_input) as Hin.
    { assert (parse_mineru_layout_from_data legacy_short_input
              = [Block (jint 0) (jarr [jint 1; jint 2]) (u "x") (jstr "text")]) as ->
        by (vm_compute; reflexivity).
      by apply list_elem_of_singleton. }
    destruct (emitted_blocks _ _ Hin) as (_ & _ & _ & _ & Hlegacy).
    destruct (Hlegacy eq_refl)
      as (_ & _ & page_fields & _ & _ & block_fields
          & _ & _ & _ & _ & _ & _ & _ & _ & Hno & Hbox).
    exists page_fields, block_fields. exact (conj Hno Hbox).
Defined.

(** C4, as stated, fails: a page with [page_no] 0 and [page] 7 gives its
    block the page 7 (and a block with an empty [bbox] and a [bbox_coords]
    gets the latter), where the first field present gives the page 0. *)
Lemma first_present_counterexample :
  parse_mineru_layout_from_data legacy_input
    = [Block (jint 7) (jarr [jint 1; jint 2; jint 3; jint 4]) (u "x") (jstr "text")]
  ∧ ¬ first_present_claim legacy_input.
Proof.
  assert (parse_mineru_layout_from_data legacy_input
          = [Block (jint 7) (jarr [jint 1; jint 2; jint 3; jint 4]) (u "x") (jstr "text")])
    as Hout by (vm_compute; reflexivity).
  split; [exact Hout|].
  intros Hclaim.
  destruct (Hclaim (Block (jint 7) (jarr [jint 1; jint 2; jint 3; jint 4])
                          (u "x") (jstr "text")))
    as (pages & page_fields & blocks & block_fields & Hpages & Hpage & _ & _ & Hno & _).
  { rewrite Hout. by apply list_elem_of_singleton. }
  vm_compute in Hpages. injection Hpages as <-.
  apply list_elem_of_singleton in Hpage. injection Hpage as ->.
  vm_compute in Hno. discriminate Hno.
Qed.

(** C4, amended. In the old format every emitted block comes from one
    block of one page of "pages": that block alone gives it its text and
    its type, and its box is the first truthy value among that same
    block's [bbox] and [bbox_coords], and otherwise [0, 0, 0, 0]; its page
    is the first truthy value among that page's [page_no], [page] and
    [pageNo], and otherwise the page's [page_idx] (0 when absent) plus
    1. *)
Theorem legacy_first_truthy (items : list (list N * pyval)) (b : LayoutBlock) :
  lookup (u "pdf_info") items = None →
  b ∈ parse_mineru_layout_from_data (PDict items) →
  ∃ pages page_items page_fields blocks block_items block_fields,
    get (PDict items) (u "pages") (PList []) = Some pages
    ∧ iter pages = Some page_items ∧ PDict page_fields ∈ page_items
    ∧ get (PDict page_fields) (u "blocks") (PList []) = Some blocks
    ∧ iter blocks = Some block_items ∧ PDict block_fields ∈ block_items
    ∧ legacy_block (page b) (PDict block_fields) = Some [b]
    ∧ type b = field block_fields (u "type")
    ∧ first_truthy_page_no page_fields = Some (page b)
    ∧ first_truthy_bbox block_fields = bbox b.
Proof. apply legacy_origin. Qed.

Lemma legacy_first_truthy_witness :
  ∃ page_fields block_fields,
    legacy_block (jint 7) (PDict block_fields)
      = Some [Block (jint 7) zero_rect (u "b") (jstr "title")]
    ∧ first_truthy_page_no page_fields = Some (jint 7)
    ∧ first_truthy_bbox block_fields = zero_rect.
Proof.
  assert (lookup (u "pdf_info") legacy_pair_fields = None) as Hpdf
    by (vm_compute; reflexivity).
  assert (Block (jint 7) zero_rect (u "b") (jstr "title")
          ∈ parse_mineru_layout_from_data (PDict legacy_pair_fields)) as Hin.
  { assert (parse_mineru_layout_from_data (PDict legacy_pair_fields)
            = [Block (jint 7) (jarr [jint 1; jint 2; jint 3; jint 4]) (u "x") (jstr "text");
               Block (jint 7) zero_rect (u "b") (jstr "title")])
      as -> by (vm_compute; reflexivity).
    apply list_elem_of_further, list_elem_of_here. }
  destruct (legacy_first_truthy _ _ Hpdf Hin)
    as (_ & _ & page_fields & _ & _ & block_fields
        & _ & _ & _ & _ & _ & _ & Hemit & _ & Hno & Hbox).
  exists page_fields, block_fields. exact (conj Hemit (conj Hno Hbox)).
Defined.

End LayoutClaims.

(** ** Batch translation *)

Section BatchClaims.

Import Translator Batch.

Lemma lookup_set_item k v d : lookup k (set_item k v d) = Some v.
Proof.
  induction d as [|[k' v'] d IH]; simpl.
  - by rewrite decide_True.
  - destruct (decide (k = k')) as [->|Hne]; simpl.
    + by rewrite decide_True.
    + by rewrite decide_False.
Qed.

(** One iteration on a block whose text is not blank and which is not
    skipped. *)
Lemma translate_block_runs target_lang model force d raw t w :
  lookup (u "text") d = Some (PStr raw) →
  blank raw = false →
  force = true ∨ truthy (field d (u "translated_text")) = false →
  translate_block target_lang model force (PDict d) t w
  = match translate_with_llm (Str.strip raw) target_lang model w with
    | (Ok translated_text, w') =>
      Some (translated d translated_text,
            Tally (S (translated_count t)) (skipped_count t) (failed_count t) (first_error t),
            w')
    | (Raise e, w') =>
      Some (if truthy (field d (u "translated_text")) then PDict d
            else translated d (Str.strip raw),
            Tally (translated_count t) (skipped_count t) (S (failed_count t))
                  (if (failed_count t =? 0)%nat then Some (exn_msg e) else first_error t),
            w')
    end.
Proof.
  intros Htext Hraw Hrun. unfold translate_block, get, strip, field.
  rewrite Htext. cbn [from_option id mbind option_bind].
  rewrite (nonempty_strip _ Hraw). cbn [negb].
  assert (negb force && truthy (default PNone (lookup (u "translated_text") d)) = false)
    as ->.
  { destruct Hrun as [->|Hrun]; [done|]. unfold field in Hrun. rewrite Hrun.
    apply andb_false_r. }
  destruct (translate_with_llm _ _ _ _) as [[v|e] w']; [done|].
  by destruct (truthy _).
Qed.

Lemma translate_block_untranslated target_lang model force d raw t w :
  untranslated d raw →
  translate_block target_lang model force (PDict d) t w
  = match translate_with_llm (Str.strip raw) target_lang model w with
    | (Ok translated_text, w') =>
      Some (translated d translated_text,
            Tally (S (translated_count t)) (skipped_count t) (failed_count t) (first_error t),
            w')
    | (Raise e, w') =>
      Some (translated d (Str.strip raw),
            Tally (translated_count t) (skipped_count t) (S (failed_count t))
                  (if (failed_count t =? 0)%nat then Some (exn_msg e) else first_error t),
            w')
    end.
Proof.
  intros (Htext & Hraw & Hnone).
  rewrite (translate_block_runs _ _ _ _ raw) by
    (try done; right; unfold field; by rewrite Hnone).
  unfold field. rewrite Hnone. reflexivity.
Qed.

(** C3, as stated, fails: a block whose text has whitespace at its ends
    and whose translation fails gets the stripped text, not its original
    text. *)
Lemma keeps_original_text_counterexample :
  ∃ after t w',
    translate_layout (jarr [text_block " a "]) (u "zh") None false
      (fresh_world qwen_config never_answers) = (Success [after] t, w')
    ∧ failed_count t = 1
    ∧ get (text_block " a ") (u "translated_text") PNone = Some PNone
    ∧ get after (u "translated_text") PNone = Some (jstr "a")
    ∧ ¬ keeps_original_text (text_block " a ") after.
Proof.
  eexists _, _, _. split; [vm_compute; reflexivity|].
  split; [reflexivity|]. split; [reflexivity|]. split; [vm_compute; reflexivity|].
  unfold keeps_original_text. vm_compute. discriminate.
Qed.

(** C3, amended. When the translation of a block raises, the loop goes on
    with the blocks after it from the state the failure left:
    [failed_count] is one more, [first_error] is the message of this
    failure when it is the first and is kept otherwise, the message is not
    empty, and the block gets its stripped text as [translated_text] unless
    it has a truthy one already.  For five blocks without translation,
    with texts that are not blank, of which exactly the third fails, the
    answer has [translated_count] 4, [skipped_count] 0, [failed_count] 1,
    the message of that failure as [first_error], and the stripped text of
    the third block as its [translated_text]. *)
Theorem failed_block_is_isolated (target_lang : list N) (model : option (list N))
    (force : bool) :
  (∀ d raw rest t w e w',
     lookup (u "text") d = Some (PStr raw) →
     blank raw = false →
     force = true ∨ truthy (field d (u "translated_text")) = false →
     translate_with_llm (Str.strip raw) target_lang model w = (Raise e, w') →
     exn_msg e ≠ []
     ∧ translate_blocks target_lang model force (PDict d :: rest) t w
       = ('(rest', t2, w2) ←
            translate_blocks target_lang model force rest
              (Tally (translated_count t) (skipped_count t) (S (failed_count t))
                     (if (failed_count t =? 0)%nat then Some (exn_msg e) else first_error t))
              w';
          Some ((if truthy (field d (u "translated_text")) then PDict d
                 else translated d (Str.strip raw)) :: rest', t2, w2)))
  ∧ (∀ d1 d2 d3 d4 d5 raw1 raw2 raw3 raw4 raw5 r1 r2 e r4 r5 w0 w1 w2 w3 w4 w5,
     untranslated d1 raw1 → untranslated d2 raw2 → untranslated d3 raw3 →
     untranslated d4 raw4 → untranslated d5 raw5 →
     translate_with_llm (Str.strip raw1) target_lang model w0 = (Ok r1, w1) →
     translate_with_llm (Str.strip raw2) target_lang model w1 = (Ok r2, w2) →
     translate_with_llm (Str.strip raw3) target_lang model w2 = (Raise e, w3) →
     translate_with_llm (Str.strip raw4) target_lang model w3 = (Ok r4, w4) →
     translate_with_llm (Str.strip raw5) target_lang model w4 = (Ok r5, w5) →
     translate_layout (PList [PDict d1; PDict d2; PDict d3; PDict d4; PDict d5])
       target_lang model force w0
     = (Success [translated d1 r1; translated d2 r2; translated d3 (Str.strip raw3);
                 translated d4 r4; translated d5 r5]
                (Tally 4 0 1 (Some (exn_msg e))), w5)
     ∧ exn_msg e ≠ []
     ∧ get (translated d3 (Str.strip raw3)) (u "translated_text") PNone
       = Some (PStr (Str.strip raw3))).
Proof.
  split.
  - intros d raw rest t w e w' Htext Hraw Hrun Hfail. split.
    + apply translate_raise_message in Hfail as [cause ->]. discriminate.
    + cbn [translate_blocks].
      rewrite (translate_block_runs _ _ _ _ raw) by done.
      rewrite Hfail. reflexivity.
  - intros d1 d2 d3 d4 d5 raw1 raw2 raw3 raw4 raw5 r1 r2 e r4 r5 w0 w1 w2 w3 w4 w5
      U1 U2 U3 U4 U5 T1 T2 T3 T4 T5.
    split; [|split].
    + unfold translate_layout. cbn [truthy negb translate_blocks].
      rewrite (translate_block_untranslated _ _ _ _ _ _ _ U1), T1. cbn [mbind option_bind].
      rewrite (translate_block_untranslated _ _ _ _ _ _ _ U2), T2. cbn [mbind option_bind].
      rewrite (translate_block_untranslated _ _ _ _ _ _ _ U3), T3. cbn [mbind option_bind].
      rewrite (translate_block_untranslated _ _ _ _ _ _ _ U4), T4. cbn [mbind option_bind].
      rewrite (translate_block_untranslated _ _ _ _ _ _ _ U5), T5. cbn [mbind option_bind].
      reflexivity.
    + apply translate_raise_message in T3 as [cause ->]. discriminate.
    + unfold translated, get. by rewrite lookup_set_item.
Qed.

Lemma failed_block_is_isolated_witness :
  translate_layout
    (PList [PDict [(u "text", PStr (u "one"))]; PDict [(u "text", PStr (u "two"))];
            PDict [(u "text", PStr (u "three"))]; PDict [(u "text", PStr (u "four"))];
            PDict [(u "text", PStr (u "five"))]])
    (u "zh") None false batch_w0
  = (Success
       [translated [(u "text", PStr (u "one"))] (u "译文");
        translated [(u "text", PStr (u "two"))] (u "译文");
        translated [(u "text", PStr (u "three"))] (Str.strip (u "three"));
        translated [(u "text", PStr (u "four"))] (u "译文");
        translated [(u "text", PStr (u "five"))] (u "译文")]
       (Tally 4 0 1
          (Some (exn_msg (Exn (u "Exception") (u "翻译失败: API调用失败: Connection error."))))),
     batch_w5).
Proof.
  assert (∀ s, lookup (u "text") [(u "text", PStr s)] = Some (PStr s)) as Htext
    by (intros s; vm_compute; reflexivity).
  assert (∀ s, lookup (u "translated_text") [(u "text", PStr s)] = None) as Hnone
    by (intros s; vm_compute; reflexivity).
  assert (untranslated [(u "text", PStr (u "one"))] (u "one")) as U1.
  { split; [apply Htext|]. split; [vm_compute; reflexivity|apply Hnone]. }
  assert (untranslated [(u "text", PStr (u "two"))] (u "two")) as U2.
  { split; [apply Htext|]. split; [vm_compute; reflexivity|apply Hnone]. }
  assert (untranslated [(u "text", PStr (u "three"))] (u "three")) as U3.
  { split; [apply Htext|]. split; [vm_compute; reflexivity|apply Hnone]. }
  assert (untranslated [(u "text", PStr (u "four"))] (u "four")) as U4.
  { split; [apply Htext|]. split; [vm_compute; reflexivity|apply Hnone]. }
  assert (untranslated [(u "text", PStr (u "five"))] (u "five")) as U5.
  { split; [apply Htext|]. split; [vm_compute; reflexivity|apply Hnone]. }
  assert (translate_with_llm (Str.strip (u "one")) (u "zh") None batch_w0
          = (Ok (u "译文"), batch_w1)) as T1 by (vm_compute; reflexivity).
  assert (translate_with_llm (Str.strip (u "two")) (u "zh") None batch_w1
          = (Ok (u "译文"), batch_w2)) as T2 by (vm_compute; reflexivity).
  assert (translate_with_llm (Str.strip (u "three")) (u "zh") None batch_w2
          = (Raise (Exn (u "Exception") (u "翻译失败: API调用失败: Connection error.")),
             batch_w3)) as T3 by (vm_compute; reflexivity).
  assert (translate_with_llm (Str.strip (u "four")) (u "zh") None batch_w3
          = (Ok (u "译文"), batch_w4)) as T4 by (vm_compute; reflexivity).
  assert (translate_with_llm (Str.strip (u "five")) (u "zh") None batch_w4
          = (Ok (u "译文"), batch_w5)) as T5 by (vm_compute; reflexivity).
  exact (proj1 (proj2 (failed_block_is_isolated (u "zh") None false)
                  _ _ _ _ _ _ _ _ _ _ _ _ _ _ _ _ _ _ _ _ _
                  U1 U2 U3 U4 U5 T1 T2 T3 T4 T5)).
Defined.

(** X2. A block that has a translation is skipped unless a new one is
    forced: without [force_retranslate] it is left as it is, counted as
    skipped, and nothing is sent; with it, the text is translated again and
    the translation replaced. *)
Theorem skipped_unless_forced (target_lang : list N) (model : option (list N))
    d raw t w :
  lookup (u "text") d = Some (PStr raw) →
  blank raw = false →
  truthy (field d (u "translated_text")) = true →
  translate_block target_lang model false (PDict d) t w
    = Some (PDict d,
            Tally (translated_count t) (S (skipped_count t)) (failed_count t) (first_error t),
            w)
  ∧ ∀ v w',
      translate_with_llm (Str.strip raw) target_lang model w = (Ok v, w') →
      translate_block target_lang model true (PDict d) t w
      = Some (translated d v,
              Tally (S (translated_count t)) (skipped_count t) (failed_count t) (first_error t),
              w').
Proof.
  intros Htext Hraw Hold. split.
  - unfold translate_block, get, strip. rewrite Htext.
    cbn [from_option id mbind option_bind].
    rewrite (nonempty_strip _ Hraw). cbn [negb].
    unfold field in Hold. rewrite Hold. reflexivity.
  - intros v w' Hrun.
    rewrite (translate_block_runs _ _ _ _ raw) by (try done; by left).
    by rewrite Hrun.
Qed.

Lemma skipped_unless_forced_witness :
  translate_block (u "zh") None false
    (PDict [(u "text", PStr (u "one")); (u "translated_text", PStr (u "X"))])
    (Tally 0 0 0 None) batch_w0
  = Some (PDict [(u "text", PStr (u "one")); (u "translated_text", PStr (u "X"))],
          Tally 0 1 0 None, batch_w0).
Proof.
  assert (lookup (u "text") [(u "text", PStr (u "one")); (u "translated_text", PStr (u "X"))]
          = Some (PStr (u "one"))) as Htext by (vm_compute; reflexivity).
  assert (blank (u "one") = false) as Hraw by (vm_compute; reflexivity).
  assert (truthy (field [(u "text", PStr (u "one")); (u "translated_text", PStr (u "X"))]
                        (u "translated_text")) = true) as Hold by (vm_compute; reflexivity).
  exact (proj1 (skipped_unless_forced (u "zh") None _ _ (Tally 0 0 0 None) batch_w0
                  Htext Hraw Hold)).
Defined.

End BatchClaims.

(** ** Waiting for a parsing task *)

Section MineruClaims.

Import Mineru.

(** With unknown states the loop never looks at the clock: however many
    polls it is given, it is still running after them. *)
Lemma wait_loop_unknown fuel start max_wait_time poll_interval w :
  (0 ≤ poll_interval)%Z → unknown_forever w →
  wait_loop fuel start max_wait_time poll_interval w = None.
Proof.
  intros Hpos. revert w. induction fuel as [|fuel IH]; intros w Hw; [done|].
  cbn [wait_loop]. unfold get_task_result.
  destruct (Hw (polls w)) as (result & state & d & -> & -> & -> & -> & ->).
  unfold sleep. destruct (Z.ltb_spec poll_interval 0); [lia|].
  apply IH. exact Hw.
Qed.

(** X1. With the states it knows ("pending", "running", "converting") and
    a positive [poll_interval] the loop ends by the timeout, once the polls
    left cover the time left: [TimedOut] is raised, at a moment when more
    than [max_wait_time] has elapsed. *)
Lemma wait_loop_in_progress fuel start max_wait_time poll_interval w :
  (0 < poll_interval)%Z → in_progress_forever w →
  (max_wait_time - (clock w - start) < Z.of_nat fuel * poll_interval)%Z →
  ∃ w', wait_loop (S fuel) start max_wait_time poll_interval w = Some (TimedOut, w')
        ∧ (max_wait_time < clock w' - start)%Z.
Proof.
  intros Hpos. revert w. induction fuel as [|fuel IH]; intros w Hw Hleft.
  - cbn [wait_loop]. unfold get_task_result.
    destruct (Hw (polls w)) as (result & state & d & -> & -> & -> & -> & -> & _).
    cbn [clock].
    destruct (Z.ltb_spec max_wait_time (clock w + Z.of_N d - start)); [|lia].
    eexists. split; [reflexivity|]. simpl. lia.
  - remember (S fuel) as fuel' eqn:Hfuel. cbn [wait_loop]. unfold get_task_result.
    destruct (Hw (polls w)) as (result & state & d & -> & -> & -> & -> & -> & ->).
    cbn [clock].
    destruct (Z.ltb_spec max_wait_time (clock w + Z.of_N d - start)).
    + eexists. split; [reflexivity|]. simpl. lia.
    + unfold sleep. destruct (Z.ltb_spec poll_interval 0); [lia|].
      subst fuel'. apply IH; [exact Hw|]. cbn [clock]. lia.
Qed.

Lemma wait_loop_in_progress_witness :
  ∃ w', wait_loop 3 0 1 1 (polling_world "running") = Some (TimedOut, w')
        ∧ (1 < clock w' - 0)%Z.
Proof.
  apply (wait_loop_in_progress 2 0 1 1 (polling_world "running")).
  - lia.
  - intros n. exists (jobj [("state"%string, jstr "running")]), (jstr "running"), 0%N.
    repeat split; vm_compute; reflexivity.
  - simpl. lia.
Defined.

(** With [max_wait_time] 1, [poll_interval] 1 and a service that always
    answers "running" at once, the timeout is raised at the third poll,
    when the clock reads 2. *)
Example running_times_out :
  wait_for_task_completion 2 1 1 (polling_world "running") = None
  ∧ wait_for_task_completion 3 1 1 (polling_world "running")
    = Some (TimedOut, World 2 (always_in_state "running") 3 []).
Proof. split; vm_compute; reflexivity. Qed.

(** C2 (the loop on unknown states). With a service that always answers
    with the state "queued", [max_wait_time] 1 and [poll_interval] 1,
    [wait_for_task_completion] neither returns nor raises, however many
    polls it makes: after [fuel] polls, for every [fuel], it is still
    running. *)
Theorem unknown_state_never_times_out (fuel : nat) :
  wait_for_task_completion fuel 1 1 (polling_world "queued") = None.
Proof.
  unfold wait_for_task_completion. apply wait_loop_unknown; [lia|].
  intros n. exists (jobj [("state"%string, jstr "queued")]), (jstr "queued"), 0%N.
  repeat split; vm_compute; reflexivity.
Qed.

End MineruClaims.

(** * Further properties *)

(** ** One call of the translation client *)

Section TranslatorProperties.

Import Translator.

Implicit Types (w : world) (text target_lang : list N) (model : option (list N)).

(** X3. Whatever the text, the cache and the endpoint, one call of
    [translate_with_llm] sends at most one request, the one built from the
    selected key, endpoint and model and the prompt for the text.  It
    leaves the configuration and the endpoint as they are, the clock does
    not go back, and the log only grows. *)
Theorem one_request_per_call text target_lang model w :
  config (translate_with_llm text target_lang model w).2 = config w
  ∧ remote (translate_with_llm text target_lang model w).2 = remote w
  ∧ (now w ≤ now (translate_with_llm text target_lang model w).2)%Z
  ∧ log w `prefix_of` log (translate_with_llm text target_lang model w).2
  ∧ (sent (translate_with_llm text target_lang model w).2 = sent w
     ∨ sent (translate_with_llm text target_lang model w).2
       = sent w ++ [request_of text target_lang model (config w)]).
Proof.
  apply translate_world with (translate_with_llm text target_lang model w).1.
  by destruct (translate_with_llm text target_lang model w).
Qed.

(** X4. A call changes what [get_cache()] returns in one way only: when
    that is a store, by storing the text it returns, which is not empty,
    under the key of the text and the target language, for 86400 seconds
    from the moment the call ends.  A call that raises leaves it as it
    was, and so does every call when it is the registry or nothing. *)
Theorem cache_only_stores_result text target_lang model w r w' :
  translate_with_llm text target_lang model w = (r, w') →
  (cache w' = cache w
   ∨ ∃ s k v, cache w = Some (Store s) ∧ get_translation_cache_key text target_lang = Some k
       ∧ r = Ok v ∧ nonempty v = true
       ∧ cache w' = Some (Store (store_set s k v 86400 (now w'))))
  ∧ (∀ e, r = Raise e → cache w' = cache w)
  ∧ (cache w = None ∨ cache w = Some Registry → cache w' = cache w).
Proof.
  intros H. pose proof (translate_cache _ _ _ _ _ _ H) as Hc.
  split; [exact Hc|]. split.
  - intros e ->. destruct Hc as [Hc|(? & ? & ? & _ & _ & ? & _)]; [exact Hc|discriminate].
  - intros Hw. destruct Hc as [Hc|(? & ? & ? & Hs & _)]; [exact Hc|].
    destruct Hw as [Hw|Hw]; rewrite Hw in Hs; discriminate Hs.
Qed.

Lemma cache_only_stores_result_witness :
  cache (translate_with_llm hello zh None (fresh_world qwen_config (always "你好，世界"))).2
    = Some (Store (store_set ∅ hello_key (u "你好，世界") 86400 1))
  ∧ cache (translate_with_llm hello zh None qwen_world).2 = cache qwen_world.
Proof.
  assert (get_translation_cache_key hello zh = Some hello_key) as Hkey
    by (vm_compute; reflexivity).
  assert ((translate_with_llm hello zh None
             (fresh_world qwen_config (always "你好，世界"))).1 = Ok (u "你好，世界")) as Hrun
    by (vm_compute; reflexivity).
  assert (now (translate_with_llm hello zh None
                 (fresh_world qwen_config (always "你好，世界"))).2 = 1%Z) as Hnow
    by (vm_compute; reflexivity).
  assert (cache (translate_with_llm hello zh None
                   (fresh_world qwen_config (always "你好，世界"))).2
          ≠ cache (fresh_world qwen_config (always "你好，世界"))) as Hchanged.
  { intros Heq.
    assert (cache (translate_with_llm hello zh None
                     (fresh_world qwen_config (always "你好，世界"))).2
            = Some (Store (store_set ∅ hello_key (u "你好，世界") 86400 1))) as Hc
      by (vm_compute; reflexivity).
    rewrite Hc in Heq. apply store_inj in Heq. unfold store_set in Heq.
    by apply insert_non_empty in Heq. }
  split.
  - destruct (cache_only_stores_result hello zh None
                (fresh_world qwen_config (always "你好，世界")) _ _ (surjective_pairing _))
      as ([Heq|(s & k & v & Hs & Hk & Hr & _ & Hc)] & _); [by destruct Hchanged|].
    rewrite Hkey in Hk. injection Hk as <-. injection Hs as <-.
    rewrite Hrun in Hr. injection Hr as <-. rewrite Hnow in Hc. exact Hc.
  - exact (proj2 (proj2 (cache_only_stores_result hello zh None qwen_world _ _
                           (surjective_pairing _))) (or_intror eq_refl)).
Defined.

(** X5. When the endpoint answers a text that is not blank with nothing
    but whitespace, the call returns the text itself, warns, and stores
    nothing in the cache. *)
Theorem blank_answer_keeps_text text target_lang model w api url m content secs r w' :
  blank text = false →
  (cache_lookup text target_lang w).1 = None →
  select_api model (config w) = (api, url, m) →
  nonempty api = true →
  remote w (length (sent w)) (Request api url m (make_prompt text target_lang))
    = (Content (Some content), secs) →
  blank content = true →
  translate_with_llm text target_lang model w = (r, w') →
  r = Ok text ∧ cache w' = cache w
  ∧ sent w' = sent w ++ [Request api url m (make_prompt text target_lang)]
  ∧ last (log w') = Some WarnEmptyResult.
Proof.
  intros Hb Hmiss Hsel Hapi Hrem Hcontent. unfold translate_with_llm.
  rewrite (nonempty_blank _ Hb), (nonempty_strip _ Hb). cbn [negb orb].
  destruct (cache_lookup text target_lang w) as [o w0] eqn:Hl.
  simpl in Hmiss. subst o.
  apply cache_lookup_world in Hl as (Hc & Hca & _ & Hr & Hs).
  rewrite Hc, Hsel, Hapi. cbn [negb].
  rewrite <- Hr, <- Hs in Hrem.
  destruct (request_translation_reply _ _ _ _ _ _ _ _ Hrem) as (w1 & Hc1 & Hcreate & ->).
  rewrite Hcreate. apply strip_nil in Hcontent. rewrite Hcontent. cbn [nonempty negb].
  intros [= <- <-]. simpl. rewrite Hca, Hs. repeat split; try done.
  by rewrite last_snoc.
Qed.

Lemma blank_answer_keeps_text_witness :
  (translate_with_llm (u "Hello") (u "zh") None
     (uncached_world qwen_config (always "  "))).1 = Ok (u "Hello")
  ∧ cache (translate_with_llm (u "Hello") (u "zh") None
             (uncached_world qwen_config (always "  "))).2
    = cache (uncached_world qwen_config (always "  ")).
Proof.
  assert (blank (u "Hello") = false) as Hb by (vm_compute; reflexivity).
  assert ((cache_lookup (u "Hello") (u "zh")
             (uncached_world qwen_config (always "  "))).1 = None) as Hmiss
    by (vm_compute; reflexivity).
  assert (select_api None (config (uncached_world qwen_config (always "  ")))
          = (u "sk-qwen", u "https://dashscope.aliyuncs.com/compatible-mode/v1",
             u "qwen-turbo")) as Hsel by (vm_compute; reflexivity).
  assert (nonempty (u "sk-qwen") = true) as Hapi by (vm_compute; reflexivity).
  assert (blank (u "  ") = true) as Hcontent by (vm_compute; reflexivity).
  destruct (blank_answer_keeps_text (u "Hello") (u "zh") None
              (uncached_world qwen_config (always "  "))
              _ _ _ (u "  ") 1%N _ _ Hb Hmiss Hsel Hapi eq_refl Hcontent
              (surjective_pairing _)) as (H1 & H2 & _).
  exact (conj H1 H2).
Defined.

(** X6. When the endpoint raises for a text that is not blank, the call
    raises an [Exception] whose message is "翻译失败: " followed by the
    classified cause, and the classified cause ends with the message of the
    endpoint's exception; the request has been sent and the cache is as it
    was. *)
Theorem endpoint_failure_is_reported text target_lang model w api url m
    error_type error_msg secs r w' :
  blank text = false →
  (cache_lookup text target_lang w).1 = None →
  select_api model (config w) = (api, url, m) →
  nonempty api = true →
  remote w (length (sent w)) (Request api url m (make_prompt text target_lang))
    = (CallRaises error_type error_msg, secs) →
  translate_with_llm text target_lang model w = (r, w') →
  (let cause := api_error_message m error_msg in
   r = Raise (Exn (u "Exception")
                (u "翻译失败: "
                 ++ (if Str.contains (u "<") cause && Str.contains (u "object at 0x") cause
                     then u "Exception: " ++ cause else cause)))
   ∧ ∃ head, cause = head ++ error_msg)
  ∧ cache w' = cache w
  ∧ sent w' = sent w ++ [Request api url m (make_prompt text target_lang)].
Proof.
  intros Hb Hmiss Hsel Hapi Hrem. unfold translate_with_llm.
  rewrite (nonempty_blank _ Hb), (nonempty_strip _ Hb). cbn [negb orb].
  destruct (cache_lookup text target_lang w) as [o w0] eqn:Hl.
  simpl in Hmiss. subst o.
  apply cache_lookup_world in Hl as (Hc & Hca & _ & Hr & Hs).
  rewrite Hc, Hsel, Hapi. cbn [negb].
  rewrite <- Hr, <- Hs in Hrem.
  destruct (request_translation_reply _ _ _ _ _ _ _ _ Hrem) as (w1 & Hc1 & Hcreate & ->).
  rewrite Hcreate. unfold reraise. cbn [exn_msg exn_type].
  intros [= <- <-]. simpl. rewrite Hca, Hs. split; [|done].
  split; [done|].
  unfold api_error_message. repeat case_match; rewrite ?app_assoc; by eexists.
Qed.

Lemma endpoint_failure_is_reported_witness :
  (translate_with_llm (u "Hello") (u "zh") None
     (uncached_world qwen_config never_answers)).1
  = Raise (Exn (u "Exception")
             (u "翻译失败: "
              ++ (if Str.contains (u "<") (api_error_message (u "qwen-turbo")
                                             (u "Connection error."))
                     && Str.contains (u "object at 0x")
                          (api_error_message (u "qwen-turbo") (u "Connection error."))
                  then u "Exception: "
                       ++ api_error_message (u "qwen-turbo") (u "Connection error.")
                  else api_error_message (u "qwen-turbo") (u "Connection error.")))).
Proof.
  assert (blank (u "Hello") = false) as Hb by (vm_compute; reflexivity).
  assert ((cache_lookup (u "Hello") (u "zh")
             (uncached_world qwen_config never_answers)).1 = None) as Hmiss
    by (vm_compute; reflexivity).
  assert (select_api None (config (uncached_world qwen_config never_answers))
          = (u "sk-qwen", u "https://dashscope.aliyuncs.com/compatible-mode/v1",
             u "qwen-turbo")) as Hsel by (vm_compute; reflexivity).
  assert (nonempty (u "sk-qwen") = true) as Hapi by (vm_compute; reflexivity).
  exact (proj1 (proj1 (endpoint_failure_is_reported (u "Hello") (u "zh") None
                  (uncached_world qwen_config never_answers)
                  _ _ _ (u "APIConnectionError") (u "Connection error.") 1%N _ _
                  Hb Hmiss Hsel Hapi eq_refl (surjective_pairing _)))).
Defined.

(** X7. With a store in the place of the registry, a translation is
    served for 86400 seconds and no longer.  When a call has fetched a
    translation of a text whose key can be computed, a call for the same
    text and target language [d] seconds later (whatever its model)
    returns that translation and sends nothing while [d] is below 86400,
    and goes to the endpoint again once [d] has reached 86400. *)
Theorem stored_entry_expires text target_lang model model' w s key api url m
    content secs d r w1 :
  blank text = false →
  cache w = Some (Store s) →
  get_translation_cache_key text target_lang = Some key →
  (cache_lookup text target_lang w).1 = None →
  select_api model (config w) = (api, url, m) →
  nonempty api = true →
  remote w (length (sent w)) (Request api url m (make_prompt text target_lang))
    = (Content (Some content), secs) →
  blank content = false →
  translate_with_llm text target_lang model w = (r, w1) →
  r = Ok (Str.strip content)
  ∧ sent w1 = sent w ++ [Request api url m (make_prompt text target_lang)]
  ∧ ((d < 86400)%Z →
     translate_with_llm text target_lang model' (later d w1) = (r, later d w1))
  ∧ ((86400 ≤ d)%Z →
     sent (translate_with_llm text target_lang model' (later d w1)).2
       = sent w1 ++ [request_of text target_lang model' (config w)]).
Proof.
  intros Hb Hc Hk Hmiss Hsel Hapi Hrem Hcontent Hrun.
  destruct (translate_stores _ _ model _ _ _ _ _ _ _ _ Hb Hc Hk Hmiss Hsel Hapi Hrem Hcontent)
    as (w1' & Hfirst & Hsent & Hnow & Hcache).
  rewrite Hfirst in Hrun. injection Hrun as <- <-.
  split; [done|]. split; [exact Hsent|]. split.
  - intros Hd. apply translate_hit with (later d w1'); [exact Hb|].
    apply lookup_stored with s key (now w + Z.of_N secs)%Z.
    + exact Hcache.
    + exact Hk.
    + by apply nonempty_strip.
    + simpl. lia.
  - intros Hd.
    destruct (translate_world _ _ _ _ _ _ Hfirst) as (Hcfg & _).
    unfold request_of. rewrite <- Hcfg.
    assert (nonempty (select_api model' (config w1')).1.1 = true) as Hkey'.
    { rewrite select_api_key, Hcfg, <- (select_api_key model), Hsel. exact Hapi. }
    destruct (select_api model' (config w1')) as [[api' url'] m'] eqn:Hsel'.
    simpl in Hkey'.
    assert ((cache_lookup text target_lang (later d w1')).1 = None) as Hmiss'.
    { rewrite (lookup_expired text target_lang (later d w1') s key
                 (Str.strip content) (now w + Z.of_N secs)%Z); [done|exact Hcache|exact Hk|].
      simpl. lia. }
    exact (translate_miss_sent text target_lang model' (later d w1') api' url' m' _ _
             Hb Hmiss' Hsel' Hkey' (surjective_pairing _)).
Qed.

Lemma stored_entry_expires_witness :
  translate_with_llm hello zh None
    (later 3600 (translate_with_llm hello zh None
                   (fresh_world qwen_config (always "你好，世界"))).2)
  = ((translate_with_llm hello zh None (fresh_world qwen_config (always "你好，世界"))).1,
     later 3600 (translate_with_llm hello zh None
                   (fresh_world qwen_config (always "你好，世界"))).2)
  ∧ sent (translate_with_llm hello zh None
            (later 86400 (translate_with_llm hello zh None
                            (fresh_world qwen_config (always "你好，世界"))).2)).2
    = sent (translate_with_llm hello zh None
              (fresh_world qwen_config (always "你好，世界"))).2
      ++ [request_of hello zh None (config (fresh_world qwen_config (always "你好，世界")))].
Proof.
  assert (blank hello = false) as Hb by (vm_compute; reflexivity).
  assert (get_translation_cache_key hello zh = Some hello_key) as Hk
    by (vm_compute; reflexivity).
  assert ((cache_lookup hello zh (fresh_world qwen_config (always "你好，世界"))).1 = None)
    as Hmiss by (vm_compute; reflexivity).
  assert (select_api None (config (fresh_world qwen_config (always "你好，世界")))
          = (u "sk-qwen", u "https://dashscope.aliyuncs.com/compatible-mode/v1",
             u "qwen-turbo")) as Hsel by (vm_compute; reflexivity).
  assert (nonempty (u "sk-qwen") = true) as Hapi by (vm_compute; reflexivity).
  assert (blank (u "你好，世界") = false) as Hcontent by (vm_compute; reflexivity).
  split.
  - exact (proj1 (proj2 (proj2
             (stored_entry_expires hello zh None None
                (fresh_world qwen_config (always "你好，世界")) ∅ hello_key _ _ _
                (u "你好，世界") 1%N 3600 _ _
                Hb eq_refl Hk Hmiss Hsel Hapi eq_refl Hcontent (surjective_pairing _))))
             ltac:(lia)).
  - exact (proj2 (proj2 (proj2
             (stored_entry_expires hello zh None None
                (fresh_world qwen_config (always "你好，世界")) ∅ hello_key _ _ _
                (u "你好，世界") 1%N 86400 _ _
                Hb eq_refl Hk Hmiss Hsel Hapi eq_refl Hcontent (surjective_pairing _))))
             ltac:(lia)).
Defined.

End TranslatorProperties.

(** ** The loop of the batch *)

Section BatchRuns.

Import Translator Batch.

Implicit Types (t : tally) (w : world) (d : list (list N * pyval)).

Lemma nonempty_strip_blank s : nonempty (Str.strip s) = negb (blank s).
Proof.
  destruct (blank s) eqn:Hb.
  - apply strip_nil in Hb. by rewrite Hb.
  - by apply nonempty_strip.
Qed.

Lemma blank_strip s : blank s = false → blank (Str.strip s) = false.
Proof.
  intros Hb. destruct (blank (Str.strip s)) eqn:Hs; [|done].
  apply strip_nil in Hs. rewrite strip_strip in Hs. apply strip_nil in Hs. congruence.
Qed.

Lemma lookup_set_item_ne k k' v d : k ≠ k' → lookup k (set_item k' v d) = lookup k d.
Proof.
  intros Hne. induction d as [|[k0 v0] d IH]; simpl.
  - by rewrite decide_False.
  - destruct (decide (k' = k0)) as [->|Hk]; simpl.
    + by rewrite !decide_False.
    + destruct (decide (k = k0)); [done|exact IH].
Qed.

(** The four ways an iteration goes. *)
Lemma translate_block_inv target_lang model force block t w block' t' w' :
  translate_block target_lang model force block t w = Some (block', t', w') →
  ∃ d raw, block = PDict d ∧ default (PStr []) (lookup (u "text") d) = PStr raw
    ∧ ((blank raw = true ∧ block' = block ∧ t' = t ∧ w' = w)
       ∨ (blank raw = false ∧ force = false
          ∧ truthy (field d (u "translated_text")) = true
          ∧ block' = block
          ∧ t' = Tally (translated_count t) (S (skipped_count t)) (failed_count t)
                       (first_error t)
          ∧ w' = w)
       ∨ (blank raw = false ∧ ∃ v,
            translate_with_llm (Str.strip raw) target_lang model w = (Ok v, w')
            ∧ block' = translated d v
            ∧ t' = Tally (S (translated_count t)) (skipped_count t) (failed_count t)
                         (first_error t))
       ∨ (blank raw = false ∧ ∃ e,
            translate_with_llm (Str.strip raw) target_lang model w = (Raise e, w')
            ∧ block' = (if truthy (field d (u "translated_text")) then PDict d
                        else translated d (Str.strip raw))
            ∧ t' = Tally (translated_count t) (skipped_count t) (S (failed_count t))
                         (if (failed_count t =? 0)%nat then Some (exn_msg e)
                          else first_error t))).
Proof.
  intros H. destruct block as [| | | | | |d]; try discriminate H.
  exists d.
  destruct (default (PStr []) (lookup (u "text") d)) as [|?|?|?|raw|?|?] eqn:Htext;
    try (unfold translate_block, get in H; cbn [mbind option_bind] in H;
         rewrite Htext in H; discriminate H).
  exists raw. split; [done|]. split; [done|].
  destruct (blank raw) eqn:Hb.
  { left. unfold translate_block, get in H. cbn [mbind option_bind] in H.
    rewrite Htext in H. cbn [strip mbind option_bind] in H.
    rewrite nonempty_strip_blank, Hb in H. by injection H as <- <- <-. }
  right.
  assert (lookup (u "text") d = Some (PStr raw)) as Hl.
  { destruct (lookup (u "text") d) as [x|]; simpl in Htext; [by subst|].
    injection Htext as <-. discriminate Hb. }
  destruct force eqn:Hforce.
  - right. rewrite (translate_block_runs _ _ _ _ raw) in H by (try done; by left).
    destruct (translate_with_llm _ _ _ _) as [[v|e] w1]; injection H as <- <- <-.
    + left. split; [done|]. by exists v.
    + right. split; [done|]. exists e. split; [done|]. split; [|done].
      by destruct (truthy _).
  - destruct (truthy (field d (u "translated_text"))) eqn:Hold.
    + left. unfold translate_block, get, strip in H. rewrite Hl in H.
      cbn [from_option id mbind option_bind] in H.
      rewrite nonempty_strip_blank, Hb in H. cbn [negb] in H.
      unfold field in Hold. rewrite Hold in H. by injection H as <- <- <-.
    + right. rewrite (translate_block_runs _ _ _ _ raw) in H by (try done; by right).
      rewrite Hold in H.
      destruct (translate_with_llm _ _ _ _) as [[v|e] w1]; injection H as <- <- <-.
      * left. split; [done|]. by exists v.
      * right. split; [done|]. by exists e.
Qed.

Lemma translate_blocks_cons target_lang model force block rest t w out t' w' :
  translate_blocks target_lang model force (block :: rest) t w = Some (out, t', w') →
  ∃ block' t1 w1 rest',
    translate_block target_lang model force block t w = Some (block', t1, w1)
    ∧ translate_blocks target_lang model force rest t1 w1 = Some (rest', t', w')
    ∧ out = block' :: rest'.
Proof.
  cbn [translate_blocks]. intros H.
  destruct (translate_block _ _ _ block t w) as [[[block' t1] w1]|]; [|discriminate H].
  cbn [mbind option_bind] in H.
  destruct (translate_blocks _ _ _ rest t1 w1) as [[[rest' t2] w2]|] eqn:Hrest;
    [|discriminate H].
  cbn [mbind option_bind] in H. simplify_eq.
  by exists block', t1, w1, rest'.
Qed.

Lemma has_text_spec d raw :
  default (PStr []) (lookup (u "text") d) = PStr raw →
  has_text (PDict d) = negb (blank raw).
Proof. intros H. unfold has_text. by rewrite H. Qed.

Lemma translate_layout_success layout target_lang model force w blocks' t w' :
  translate_layout layout target_lang model force w = (Success blocks' t, w') →
  ∃ blocks, layout = PList blocks ∧ blocks ≠ []
    ∧ translate_blocks target_lang model force blocks (Tally 0 0 0 None) w
      = Some (blocks', t, w').
Proof.
  unfold translate_layout. intros H.
  destruct (truthy layout) eqn:Htruthy; cbn [negb] in H; [|discriminate H].
  destruct layout as [| | | | |blocks|]; try discriminate H.
  exists blocks. split; [done|]. split; [by destruct blocks|].
  destruct (translate_blocks _ _ _ _ _ _) as [[[out t1] w1]|]; [|discriminate H].
  by injection H as <- <- <-.
Qed.

(** The counters along the loop. *)
Lemma translate_blocks_counters target_lang model force blocks :
  ∀ t w blocks' t' w',
  translate_blocks target_lang model force blocks t w = Some (blocks', t', w') →
  length blocks' = length blocks
  ∧ translated_count t' + skipped_count t' + failed_count t'
    = translated_count t + skipped_count t + failed_count t
      + length (List.filter has_text blocks)
  ∧ ((first_error t = None ↔ failed_count t = 0)
     → (first_error t' = None ↔ failed_count t' = 0))
  ∧ (force = true → skipped_count t' = skipped_count t).
Proof.
  induction blocks as [|block rest IH]; intros t w blocks' t' w' H.
  - cbn [translate_blocks] in H. simplify_eq. simpl.
    split; [done|]. split; [lia|]. by split.
  - apply translate_blocks_cons in H as (b' & t1 & w1 & rest' & Hb & Hrest & ->).
    apply IH in Hrest as (Hlen & Hsum & Hfirst & Hskip).
    apply translate_block_inv in Hb as (d & raw & -> & Htext & Hcase).
    cbn [List.filter]. rewrite (has_text_spec _ _ Htext).
    destruct Hcase as [(Hb & _ & -> & _)|[(Hb & -> & _ & _ & -> & _)
      |[(Hb & v & _ & _ & ->)|(Hb & e & _ & _ & ->)]]];
      rewrite Hb; cbn [negb length] in *; simpl in *.
    + split; [lia|]. split; [lia|]. by split.
    + split; [lia|]. split; [lia|]. split; [done|]. intros; discriminate.
    + split; [lia|]. split; [lia|]. split; [done|]. exact Hskip.
    + split; [lia|]. split; [lia|]. split; [|exact Hskip].
      intros Hinv. apply Hfirst.
      destruct (failed_count t) as [|n]; simpl; [done|].
      split; [|done]. intros Hnone. apply Hinv in Hnone. discriminate Hnone.
Qed.

(** What the loop does to the blocks. *)
Lemma translate_blocks_frame target_lang model force blocks :
  ∀ t w blocks' t' w',
  translate_blocks target_lang model force blocks t w = Some (blocks', t', w') →
  Forall2 same_but_translation blocks blocks'.
Proof.
  induction blocks as [|block rest IH]; intros t w blocks' t' w' H.
  - cbn [translate_blocks] in H. simplify_eq. constructor.
  - apply translate_blocks_cons in H as (b' & t1 & w1 & rest' & Hb & Hrest & ->).
    constructor; [|by eapply IH].
    apply translate_block_inv in Hb as (d & raw & -> & Htext & Hcase).
    assert (∀ v, blank raw = false → same_but_translation (PDict d) (translated d v))
      as Hset.
    { intros v Hb. split.
      - rewrite (has_text_spec _ _ Htext), Hb. discriminate.
      - intros k dflt Hk. unfold translated, get. by rewrite lookup_set_item_ne. }
    assert (same_but_translation (PDict d) (PDict d)) as Hsame by (by split).
    destruct Hcase as [(_ & -> & _)|[(_ & _ & _ & -> & _)
      |[(Hb & v & _ & -> & _)|(Hb & e & _ & -> & _)]]]; try done.
    + by apply Hset.
    + destruct (truthy _); [done|by apply Hset].
Qed.

(** The requests of the loop. *)
Lemma translate_blocks_sent target_lang model force blocks :
  ∀ t w blocks' t' w',
  translate_blocks target_lang model force blocks t w = Some (blocks', t', w') →
  sent w `prefix_of` sent w'
  ∧ length (sent w') + translated_count t + failed_count t
    ≤ length (sent w) + translated_count t' + failed_count t'.
Proof.
  induction blocks as [|block rest IH]; intros t w blocks' t' w' H.
  - cbn [translate_blocks] in H. simplify_eq. split; [done|lia].
  - apply translate_blocks_cons in H as (b' & t1 & w1 & rest' & Hb & Hrest & ->).
    apply IH in Hrest as (Hpre & Hlen).
    apply translate_block_inv in Hb as (d & raw & -> & Htext & Hcase).
    destruct Hcase as [(_ & _ & -> & ->)|[(_ & _ & _ & _ & -> & ->)
      |[(_ & v & Hrun & _ & ->)|(_ & e & Hrun & _ & ->)]]]; simpl in *.
    + split; [done|lia].
    + split; [done|lia].
    + apply translate_world in Hrun as (_ & _ & _ & _ & [Hs|Hs]); rewrite Hs in *.
      * split; [done|lia].
      * split; [etrans; [|exact Hpre]; by apply prefix_app_r|].
        rewrite length_app in Hlen. simpl in Hlen. lia.
    + apply translate_world in Hrun as (_ & _ & _ & _ & [Hs|Hs]); rewrite Hs in *.
      * split; [done|lia].
      * split; [etrans; [|exact Hpre]; by apply prefix_app_r|].
        rewrite length_app in Hlen. simpl in Hlen. lia.
Qed.

(** After the loop every block is settled. *)
Lemma translate_blocks_settled target_lang model force blocks :
  ∀ t w blocks' t' w',
  translate_blocks target_lang model force blocks t w = Some (blocks', t', w') →
  forallb settled blocks' = true.
Proof.
  induction blocks as [|block rest IH]; intros t w blocks' t' w' H.
  - cbn [translate_blocks] in H. by simplify_eq.
  - apply translate_blocks_cons in H as (b' & t1 & w1 & rest' & Hb & Hrest & ->).
    cbn [forallb]. rewrite (IH _ _ _ _ _ Hrest), andb_true_r.
    apply translate_block_inv in Hb as (d & raw & -> & Htext & Hcase).
    assert (∀ v, nonempty v = true → settled (translated d v) = true) as Hset.
    { intros v Hv. unfold settled, translated, field.
      rewrite lookup_set_item_ne by (by vm_compute). rewrite Htext.
      rewrite lookup_set_item. simpl. rewrite orb_true_iff. right. by destruct v. }
    destruct Hcase as [(Hb & -> & _)|[(Hb & _ & Hold & -> & _)
      |[(Hb & v & Hrun & -> & _)|(Hb & e & Hrun & -> & _)]]].
    + unfold settled. by rewrite Htext, Hb.
    + unfold settled. by rewrite Htext, Hold, orb_true_r.
    + apply Hset. eapply translate_nonempty; [|exact Hrun]. by apply blank_strip.
    + destruct (truthy (field d (u "translated_text"))) eqn:Hold.
      * unfold settled. by rewrite Htext, Hold, orb_true_r.
      * apply Hset. by apply nonempty_strip.
Qed.

(** A layout of settled blocks is left as it is when nothing is forced. *)
Lemma translate_blocks_rerun target_lang model blocks :
  forallb settled blocks = true →
  ∀ t w,
  translate_blocks target_lang model false blocks t w
  = Some (blocks,
          Tally (translated_count t)
                (skipped_count t + length (List.filter has_text blocks))
                (failed_count t) (first_error t),
          w).
Proof.
  induction blocks as [|block rest IH]; intros Hall t w.
  - cbn [translate_blocks List.filter length]. rewrite Nat.add_0_r. by destruct t.
  - cbn [forallb] in Hall. apply andb_true_iff in Hall as [Hblock Hrest].
    cbn [translate_blocks List.filter].
    destruct block as [| | | | | |d]; try discriminate Hblock.
    unfold settled in Hblock.
    destruct (default (PStr []) (lookup (u "text") d)) as [|?|?|?|raw|?|?] eqn:Htext;
      try discriminate Hblock.
    rewrite (has_text_spec _ _ Htext).
    unfold translate_block, get. cbn [mbind option_bind]. rewrite Htext.
    cbn [strip mbind option_bind]. rewrite nonempty_strip_blank.
    destruct (blank raw) eqn:Hb; cbn [negb mbind option_bind].
    + rewrite (IH Hrest). cbn [mbind option_bind]. reflexivity.
    + simpl in Hblock. unfold field in Hblock. rewrite Hblock.
      cbn [negb andb mbind option_bind]. rewrite (IH Hrest).
      cbn [mbind option_bind translated_count skipped_count failed_count first_error length].
      replace (skipped_count t + S (length (List.filter has_text rest)))
        with (S (skipped_count t) + length (List.filter has_text rest)) by lia.
      reflexivity.
Qed.

(** Without a key the loop sends nothing and counts no failure. *)
Lemma translate_blocks_no_key target_lang model force blocks :
  ∀ t w blocks' t' w',
  nonempty (QWEN_API_KEY (config w)) = false →
  nonempty (OPENAI_API_KEY (config w)) = false →
  translate_blocks target_lang model force blocks t w = Some (blocks', t', w') →
  failed_count t' = failed_count t ∧ first_error t' = first_error t
  ∧ sent w' = sent w.
Proof.
  induction blocks as [|block rest IH]; intros t w blocks' t' w' Hq Ho H.
  - cbn [translate_blocks] in H. by simplify_eq.
  - apply translate_blocks_cons in H as (b' & t1 & w1 & rest' & Hb & Hrest & ->).
    apply translate_block_inv in Hb as (d & raw & -> & Htext & Hcase).
    destruct (translate_no_key (Str.strip raw) target_lang model w Hq Ho)
      as (v0 & w0 & Hrun0 & Hc0 & _ & Hs0 & _).
    destruct Hcase as [(_ & _ & -> & ->)|[(_ & _ & _ & _ & -> & ->)
      |[(_ & v & Hrun & _ & ->)|(_ & e & Hrun & _ & ->)]]].
    + by apply IH in Hrest.
    + by apply IH in Hrest.
    + rewrite Hrun0 in Hrun. injection Hrun as <- <-.
      apply IH in Hrest as (? & ? & ->); [done|by rewrite Hc0..].
    + rewrite Hrun0 in Hrun. discriminate Hrun.
Qed.

End BatchRuns.

Section BatchProperties.

Import Translator Batch.

Example two_blocks_run :
  translate_layout (PList two_blocks) (u "zh") None false batch_w0
  = (Success two_blocks_done (Tally 1 0 0 None), batch_w1).
Proof. vm_compute. reflexivity. Qed.

Example two_blocks_no_key :
  translate_layout (PList two_blocks) (u "zh") None false no_key_w0
  = (Success [translated [(u "text", PStr (u "one"))] (u "one");
              PDict [(u "text", PStr (u "  "))]]
             (Tally 1 0 0 None), no_key_w1).
Proof. vm_compute. reflexivity. Qed.

(** X8. When the batch answers with a layout, the layout has as many
    blocks as the one it was given, and the three counters add up to the
    number of blocks with a text that is not blank: each of them is
    counted once, as translated, skipped or failed, and the blocks without
    text are not counted.  There is a first error exactly when a block
    failed, and nothing is skipped when a new translation is forced. *)
Theorem batch_counters_add_up target_lang model force blocks blocks' t w w' :
  translate_layout (PList blocks) target_lang model force w = (Success blocks' t, w') →
  length blocks' = length blocks
  ∧ translated_count t + skipped_count t + failed_count t
    = length (List.filter has_text blocks)
  ∧ (first_error t = None ↔ failed_count t = 0)
  ∧ (force = true → skipped_count t = 0).
Proof.
  intros H. apply translate_layout_success in H as (? & [= <-] & _ & H).
  apply translate_blocks_counters in H as (Hlen & Hsum & Hfirst & Hskip).
  split; [exact Hlen|]. split; [exact Hsum|]. split; [by apply Hfirst|exact Hskip].
Qed.

Lemma batch_counters_add_up_witness :
  length two_blocks_done = length two_blocks
  ∧ translated_count (Tally 1 0 0 None) + skipped_count (Tally 1 0 0 None)
    + failed_count (Tally 1 0 0 None)
    = length (List.filter has_text two_blocks)
  ∧ (first_error (Tally 1 0 0 None) = None ↔ failed_count (Tally 1 0 0 None) = 0)
  ∧ (false = true → skipped_count (Tally 1 0 0 None) = 0).
Proof.
  exact (batch_counters_add_up (u "zh") None false two_blocks two_blocks_done
           (Tally 1 0 0 None) batch_w0 batch_w1 two_blocks_run).
Defined.

(** X9. The batch changes nothing of a block but its [translated_text]:
    every other key of every block reads after the run as it did before
    ("text", "bbox", "page" and "type" among them), the blocks keep their
    order, and a block without text is left exactly as it was. *)
Theorem batch_changes_translation_only target_lang model force blocks blocks' t w w' :
  translate_layout (PList blocks) target_lang model force w = (Success blocks' t, w') →
  Forall2 same_but_translation blocks blocks'.
Proof.
  intros H. apply translate_layout_success in H as (? & [= <-] & _ & H).
  by apply translate_blocks_frame in H.
Qed.

Lemma batch_changes_translation_only_witness :
  Forall2 same_but_translation two_blocks two_blocks_done.
Proof.
  exact (batch_changes_translation_only (u "zh") None false two_blocks two_blocks_done
           (Tally 1 0 0 None) batch_w0 batch_w1 two_blocks_run).
Defined.

(** X10. The batch sends at most one request for each block it counts as
    translated or failed, and none for the blocks it skips or passes over;
    the requests made before the run are still the first ones after it. *)
Theorem batch_requests_are_bounded target_lang model force blocks blocks' t w w' :
  translate_layout (PList blocks) target_lang model force w = (Success blocks' t, w') →
  sent w `prefix_of` sent w'
  ∧ length (sent w') ≤ length (sent w) + translated_count t + failed_count t.
Proof.
  intros H. apply translate_layout_success in H as (? & [= <-] & _ & H).
  apply translate_blocks_sent in H as (Hpre & Hlen). simpl in Hlen.
  split; [exact Hpre|lia].
Qed.

Lemma batch_requests_are_bounded_witness :
  sent batch_w0 `prefix_of` sent batch_w1
  ∧ length (sent batch_w1)
    ≤ length (sent batch_w0) + translated_count (Tally 1 0 0 None)
      + failed_count (Tally 1 0 0 None).
Proof.
  exact (batch_requests_are_bounded (u "zh") None false two_blocks two_blocks_done
           (Tally 1 0 0 None) batch_w0 batch_w1 two_blocks_run).
Defined.

(** X11. A second run on the layout a run has answered, without forcing,
    does nothing: whatever the language, the model and the state of the
    application, every block with text is skipped, nothing is sent, and the
    layout comes back as it is.  This holds for the blocks that failed as
    well: they carry their own text as translation and are not tried
    again. *)
Theorem batch_rerun_skips_everything target_lang model force blocks blocks' t w w' :
  translate_layout (PList blocks) target_lang model force w = (Success blocks' t, w') →
  ∀ target_lang2 model2 w2,
    translate_layout (PList blocks') target_lang2 model2 false w2
    = (Success blocks' (Tally 0 (length (List.filter has_text blocks')) 0 None), w2).
Proof.
  intros H target_lang2 model2 w2.
  apply translate_layout_success in H as (? & [= <-] & Hne & H).
  pose proof (translate_blocks_counters _ _ _ _ _ _ _ _ _ H) as (Hlen & _).
  apply translate_blocks_settled in H.
  unfold translate_layout.
  destruct blocks' as [|b rest]; [by destruct blocks|].
  cbn [truthy negb]. by rewrite (translate_blocks_rerun _ _ _ H).
Qed.

Lemma batch_rerun_skips_everything_witness :
  translate_layout (PList two_blocks_done) (u "en") None false no_key_w0
  = (Success two_blocks_done
       (Tally 0 (length (List.filter has_text two_blocks_done)) 0 None), no_key_w0).
Proof.
  exact (batch_rerun_skips_everything (u "zh") None false two_blocks two_blocks_done
           (Tally 1 0 0 None) batch_w0 batch_w1 two_blocks_run (u "en") None no_key_w0).
Defined.

(** X12. Without any key configured the batch sends nothing and never
    counts a failure: every block with text that is not skipped is counted
    as translated. *)
Theorem batch_without_key_never_fails target_lang model force blocks blocks' t w w' :
  nonempty (QWEN_API_KEY (config w)) = false →
  nonempty (OPENAI_API_KEY (config w)) = false →
  translate_layout (PList blocks) target_lang model force w = (Success blocks' t, w') →
  failed_count t = 0 ∧ first_error t = None ∧ sent w' = sent w
  ∧ translated_count t + skipped_count t = length (List.filter has_text blocks).
Proof.
  intros Hq Ho H. apply translate_layout_success in H as (? & [= <-] & _ & H).
  pose proof (translate_blocks_counters _ _ _ _ _ _ _ _ _ H) as (_ & Hsum & _).
  apply translate_blocks_no_key in H as (Hf & He & Hs); [|done..]. simpl in *.
  split; [done|]. split; [done|]. split; [done|]. lia.
Qed.

Lemma batch_without_key_never_fails_witness :
  failed_count (Tally 1 0 0 None) = 0 ∧ first_error (Tally 1 0 0 None) = None
  ∧ sent no_key_w1 = sent no_key_w0
  ∧ translated_count (Tally 1 0 0 None) + skipped_count (Tally 1 0 0 None)
    = length (List.filter has_text two_blocks).
Proof.
  assert (nonempty (QWEN_API_KEY (config no_key_w0)) = false) as Hq
    by (vm_compute; reflexivity).
  assert (nonempty (OPENAI_API_KEY (config no_key_w0)) = false) as Ho
    by (vm_compute; reflexivity).
  exact (batch_without_key_never_fails (u "zh") None false two_blocks _
           (Tally 1 0 0 None) no_key_w0 no_key_w1 Hq Ho two_blocks_no_key).
Defined.

End BatchProperties.

(** ** The normalizer as a whole *)

Section LayoutProperties.

Import Layout.

Lemma trimmed_not_blank s : trimmed s → blank s = false.
Proof.
  intros [Hne Hs]. destruct (blank s) eqn:Hb; [|done].
  apply strip_nil in Hb. congruence.
Qed.

(** Every emitted block has a trimmed text, whatever the format. *)
Lemma parse_emits_trimmed d b :
  b ∈ parse_mineru_layout_from_data d → trimmed (text b).
Proof.
  unfold parse_mineru_layout_from_data, parse_try. intros Hb.
  destruct (truthy d); cbn [negb] in Hb; [|by apply no_block in Hb].
  destruct (has (u "pdf_info") d) as [[|]|]; cbn [mbind option_bind] in Hb;
    [| |by apply no_block in Hb].
  { destruct (from_pdf_info d) as [bs|] eqn:H; [|by apply no_block in Hb].
    by destruct (from_pdf_info_emits _ _ _ H Hb) as (_ & ? & _). }
  assert (b ∈ default [] (from_pages d) → trimmed (text b)) as Hpages.
  { intros Hin. destruct (from_pages d) as [bs|] eqn:H; [|by apply no_block in Hin].
    destruct (from_pages_emits _ _ _ H Hin)
      as (? & ? & ? & ? & ? & ? & _ & _ & _ & _ & _ & _ & _ & _ & ? & _).
    done. }
  destruct d as [| | | | |[|first_item rest]|]; try by apply Hpages.
  destruct (is_content_item first_item).
  { destruct (from_content_list _) as [bs|] eqn:H; [|by apply no_block in Hb].
    by destruct (from_content_list_emits _ _ _ H Hb). }
  destruct (is_list first_item); [|by apply Hpages].
  destruct (from_model _) as [bs|] eqn:H; [|by apply no_block in Hb].
  by destruct (from_model_emits _ _ _ H Hb) as (_ & ? & _).
Qed.

(** What a completed loop has emitted for one of its items is part of the
    result. *)
Lemma mapM_concat_elem_of {A B} (f : A → option (list B)) l out x :
  mapM f l = Some out → x ∈ l →
  ∃ bs, f x = Some bs ∧ ∀ b, b ∈ bs → b ∈ concat out.
Proof.
  rewrite mapM_Some. intros HF. induction HF as [|y bs l out Hy _ IH]; intros Hx.
  - by apply elem_of_nil in Hx.
  - apply elem_of_cons in Hx as [->|Hx].
    + exists bs. split; [done|]. intros b Hb. simpl. apply elem_of_app. by left.
    + destruct (IH Hx) as (bs' & Hf & Hin). exists bs'. split; [done|].
      intros b Hb. simpl. apply elem_of_app. right. by apply Hin.
Qed.

Lemma long_bbox_accepted box : long_bbox box → bbox_rejected box = Some false.
Proof.
  intros (Ht & n & Hn & Hle). unfold bbox_rejected. rewrite Ht, Hn. simpl.
  f_equal. by apply Nat.ltb_ge.
Qed.

(** The dispatch on a list whose first item is a content item. *)
Lemma parse_content_list first_item rest :
  is_content_item first_item = true →
  parse_mineru_layout_from_data (PList (first_item :: rest))
  = default [] (from_content_list (first_item :: rest)).
Proof.
  intros Hfirst. unfold parse_mineru_layout_from_data, parse_try.
  cbn [truthy negb has mbind option_bind].
  destruct (existsb _ (first_item :: rest)) eqn:Hpdf.
  - apply has_in_list in Hpdf. by rewrite (from_content_list_string _ _ Hpdf).
  - by rewrite Hfirst.
Qed.

(** X13. A dict with the key "pdf_info" is read as a [layout.json] and
    nothing but that key is read: the result is the one for the dict that
    has this key alone, whatever else the dict holds, a "pages" of the old
    format included. *)
Theorem pdf_info_decides_alone (items : list (list N * pyval)) (pdf_info : pyval) :
  lookup (u "pdf_info") items = Some pdf_info →
  parse_mineru_layout_from_data (PDict items)
  = parse_mineru_layout_from_data (PDict [(u "pdf_info", pdf_info)]).
Proof.
  intros H. unfold parse_mineru_layout_from_data, parse_try.
  assert (truthy (PDict items) = true) as -> by (by destruct items).
  cbn [truthy negb has mbind option_bind lookup].
  rewrite H, decide_True by done.
  rewrite !bool_decide_eq_true_2 by (by eexists).
  unfold from_pdf_info, get. cbn [lookup]. by rewrite H, decide_True.
Qed.

Lemma pdf_info_decides_alone_witness :
  parse_mineru_layout_from_data (PDict both_formats)
  = parse_mineru_layout_from_data (PDict [(u "pdf_info", PList [])]).
Proof.
  assert (lookup (u "pdf_info") both_formats = Some (PList [])) as H
    by (vm_compute; reflexivity).
  exact (pdf_info_decides_alone both_formats (PList []) H).
Defined.

(** X14. A content list is read completely or not at all.  When the
    normalizer returns any block for it, it returns the block of every
    item that has a text which is not blank and a box of at least four
    entries: the stripped text, the box, the item's [page_idx] plus 1 and
    the item's type.  When one of the items is no dict, it returns
    nothing, not even the blocks of the items before that one. *)
Theorem content_list_all_or_nothing (first_item : pyval) (rest : list pyval) :
  is_content_item first_item = true →
  (∀ fields raw box,
     parse_mineru_layout_from_data (PList (first_item :: rest)) ≠ [] →
     PDict fields ∈ first_item :: rest →
     lookup (u "text") fields = Some (PStr raw) → blank raw = false →
     lookup (u "bbox") fields = Some box → long_bbox box →
     ∃ page_no, page_of fields page_no
       ∧ Block page_no box (Str.strip raw) (item_type fields)
         ∈ parse_mineru_layout_from_data (PList (first_item :: rest)))
  ∧ (∀ item, item ∈ first_item :: rest → is_dict item = false →
     parse_mineru_layout_from_data (PList (first_item :: rest)) = []).
Proof.
  intros Hfirst. rewrite (parse_content_list _ _ Hfirst). unfold from_content_list.
  split.
  - intros fields raw box Hne Hin Htext Hraw Hbox Hlong.
    destruct (mapM content_item (first_item :: rest)) as [out|] eqn:Hall; [|done].
    cbn [mbind option_bind default from_option id] in *.
    destruct (mapM_concat_elem_of _ _ _ _ Hall Hin) as (bs & Hitem & Hsub).
    unfold content_item, get, strip in Hitem. rewrite Htext, Hbox in Hitem.
    cbn [from_option id mbind option_bind] in Hitem.
    assert (truthy (PStr (Str.strip raw)) = true) as Hstrip.
    { pose proof (nonempty_strip _ Hraw). by destruct (Str.strip raw). }
    rewrite Hstrip, (long_bbox_accepted _ Hlong) in Hitem.
    cbn [negb mbind option_bind] in Hitem.
    destruct (add1 _) as [page_no|] eqn:Hpage; [|discriminate Hitem].
    cbn [mbind option_bind] in Hitem. injection Hitem as <-.
    exists page_no. split; [exact Hpage|].
    apply Hsub. apply list_elem_of_singleton. reflexivity.
  - intros item Hin Hdict.
    assert (mapM content_item (first_item :: rest) = None) as ->; [|done].
    apply mapM_None, Exists_exists. exists item. split; [done|].
    by destruct item.
Qed.

Lemma content_list_all_or_nothing_witness :
  ∃ page_no, page_of equation_fields page_no
    ∧ Block page_no (PList [PInt 1; PInt 2; PInt 3; PInt 4]) (Str.strip (u "E = mc^2"))
            (item_type equation_fields)
      ∈ parse_mineru_layout_from_data (PList [PDict equation_fields]).
Proof.
  assert (is_content_item (PDict equation_fields) = true) as Hfirst
    by (vm_compute; reflexivity).
  assert (parse_mineru_layout_from_data (PList [PDict equation_fields]) ≠ []) as Hne.
  { assert (parse_mineru_layout_from_data (PList [PDict equation_fields])
            = [Block (PInt 1) (PList [PInt 1; PInt 2; PInt 3; PInt 4])
                     (u "E = mc^2") (PStr (u "equation"))]) as ->
      by (vm_compute; reflexivity).
    discriminate. }
  assert (PDict equation_fields ∈ [PDict equation_fields]) as Hin
    by (by apply list_elem_of_singleton).
  assert (lookup (u "text") equation_fields = Some (PStr (u "E = mc^2"))) as Htext
    by (vm_compute; reflexivity).
  assert (blank (u "E = mc^2") = false) as Hraw by (vm_compute; reflexivity).
  assert (lookup (u "bbox") equation_fields
          = Some (PList [PInt 1; PInt 2; PInt 3; PInt 4])) as Hbox
    by (vm_compute; reflexivity).
  assert (long_bbox (PList [PInt 1; PInt 2; PInt 3; PInt 4])) as Hlong.
  { split; [reflexivity|]. exists 4. split; [reflexivity|]. lia. }
  exact (proj1 (content_list_all_or_nothing (PDict equation_fields) [] Hfirst)
           equation_fields (u "E = mc^2") (PList [PInt 1; PInt 2; PInt 3; PInt 4])
           Hne Hin Htext Hraw Hbox Hlong).
Defined.

(** An emitted block, as the batch sees it. *)
Lemma to_py_untranslated b :
  trimmed (text b) →
  ∃ d, to_py b = PDict d ∧ untranslated d (text b).
Proof.
  intros Ht. eexists. split; [reflexivity|].
  split; [by vm_compute|]. split; [by apply trimmed_not_blank|by vm_compute].
Qed.

Lemma translate_blocks_emitted target_lang model force bs :
  Forall (λ b, trimmed (text b)) bs →
  ∀ t w, ∃ out t' w',
    Batch.translate_blocks target_lang model force (map to_py bs) t w = Some (out, t', w')
    ∧ length out = length bs
    ∧ Batch.skipped_count t' = Batch.skipped_count t
    ∧ Batch.translated_count t' + Batch.failed_count t'
      = Batch.translated_count t + Batch.failed_count t + length bs.
Proof.
  induction 1 as [|b bs Hb _ IH]; intros t w.
  - exists [], t, w. simpl. split; [done|]. split; [done|]. split; [done|lia].
  - destruct (to_py_untranslated b Hb) as (d & Hd & Hun).
    cbn [map Batch.translate_blocks]. rewrite Hd.
    rewrite (translate_block_untranslated _ _ _ _ _ _ _ Hun).
    destruct (Translator.translate_with_llm _ _ _ _) as [[v|e] w1];
      cbn [mbind option_bind].
    + destruct (IH (Batch.Tally (S (Batch.translated_count t)) (Batch.skipped_count t)
                      (Batch.failed_count t) (Batch.first_error t)) w1)
        as (out & t' & w' & -> & Hlen & Hskip & Hsum).
      cbn [mbind option_bind]. eexists _, _, _. split; [reflexivity|].
      simpl in *. split; [by rewrite Hlen|]. split; [done|lia].
    + destruct (IH (Batch.Tally (Batch.translated_count t) (Batch.skipped_count t)
                      (S (Batch.failed_count t))
                      (if (Batch.failed_count t =? 0)%nat
                       then Some (Translator.exn_msg e) else Batch.first_error t)) w1)
        as (out & t' & w' & -> & Hlen & Hskip & Hsum).
      cbn [mbind option_bind]. eexists _, _, _. split; [reflexivity|].
      simpl in *. split; [by rewrite Hlen|]. split; [done|lia].
Qed.

(** X15. What the normalizer returns can be handed to the batch as it is.
    For every input of the normalizer and every state of the application
    the batch reads all the blocks: the request does not end in an error,
    it is refused only when the layout is empty, and otherwise every block
    is tried, none is skipped or passed over, and each is counted as
    translated or as failed. *)
Theorem normalized_layout_is_translatable (d : pyval) (target_lang : list N)
    (model : option (list N)) (force : bool) (w : Translator.world) :
  match Batch.translate_layout (PList (map to_py (parse_mineru_layout_from_data d)))
          target_lang model force w with
  | (Batch.BadRequest, _) => parse_mineru_layout_from_data d = []
  | (Batch.ServerError, _) => False
  | (Batch.Success blocks' t, _) =>
    length blocks' = length (parse_mineru_layout_from_data d)
    ∧ Batch.skipped_count t = 0
    ∧ Batch.translated_count t + Batch.failed_count t
      = length (parse_mineru_layout_from_data d)
  end.
Proof.
  assert (Forall (λ b, trimmed (text b)) (parse_mineru_layout_from_data d)) as Hall.
  { apply Forall_forall. intros b Hb. by apply parse_emits_trimmed with d. }
  destruct (parse_mineru_layout_from_data d) as [|b bs] eqn:Hparse; [done|].
  unfold Batch.translate_layout. cbn [map truthy negb].
  destruct (translate_blocks_emitted target_lang model force (b :: bs) Hall
              (Batch.Tally 0 0 0 None) w) as (out & t' & w' & Hrun & Hlen & Hskip & Hsum).
  cbn [map] in Hrun. rewrite Hrun. done.
Qed.

(** X24. A page grid is read completely or not at all as well, and its
    pages are numbered by their position.  When the normalizer returns any
    block for a list whose first item is a list, it returns, for every list
    at a position i and every dict in it with a content that is not blank
    and a box of at least four entries, the block with the stripped
    content, the box, the page i + 1 and the type of the dict ("text" when
    it has none); items of the outer list that are no lists count as pages
    and are passed over. *)
Theorem page_grid_is_complete (first_item : pyval) (rest : list pyval) (i : nat)
    (blocks : list pyval) (fields : list (list N * pyval)) (raw : list N) (box : pyval) :
  is_list first_item = true →
  parse_mineru_layout_from_data (PList (first_item :: rest)) ≠ [] →
  (first_item :: rest) !! i = Some (PList blocks) →
  PDict fields ∈ blocks →
  lookup (u "content") fields = Some (PStr raw) → blank raw = false →
  lookup (u "bbox") fields = Some box → long_bbox box →
  Block (PInt (Z.of_nat i + 1)) box (Str.strip raw) (own_type fields)
    ∈ parse_mineru_layout_from_data (PList (first_item :: rest)).
Proof.
  intros Hlist Hne Hi Hin Hcontent Hraw Hbox Hlong.
  unfold parse_mineru_layout_from_data, parse_try in *.
  cbn [truthy negb has mbind option_bind] in *.
  destruct (existsb _ (first_item :: rest)); [done|].
  assert (is_content_item first_item = false) as Hfirst by (by destruct first_item).
  rewrite Hfirst, Hlist in *. unfold from_model in *.
  destruct (mapM id (imap model_page (first_item :: rest))) as [out|] eqn:Hall; [|done].
  cbn [mbind option_bind default from_option id] in *.
  assert (model_page i (PList blocks) ∈ imap model_page (first_item :: rest)) as Hpage.
  { apply elem_of_lookup_imap. by exists i, (PList blocks). }
  destruct (mapM_concat_elem_of _ _ _ _ Hall Hpage) as (bs & Hbs & Hsub).
  apply Hsub. unfold id, model_page in Hbs.
  destruct (mapM (model_block (PInt (Z.of_nat i + 1))) blocks) as [outs|] eqn:Hblocks;
    [|discriminate Hbs].
  cbn [mbind option_bind] in Hbs. injection Hbs as <-.
  destruct (mapM_concat_elem_of _ _ _ _ Hblocks Hin) as (bs' & Hblock & Hsub').
  apply Hsub'. unfold model_block, get, strip in Hblock.
  cbn [is_dict negb] in Hblock. rewrite Hcontent, Hbox in Hblock.
  cbn [from_option id mbind option_bind] in Hblock.
  assert (truthy (PStr (Str.strip raw)) = true) as Hstrip.
  { pose proof (nonempty_strip _ Hraw). by destruct (Str.strip raw). }
  rewrite Hstrip, (long_bbox_accepted _ Hlong) in Hblock.
  cbn [negb mbind option_bind] in Hblock. injection Hblock as <-.
  apply list_elem_of_singleton. reflexivity.
Qed.

Lemma page_grid_is_complete_witness :
  Block (PInt (Z.of_nat 2 + 1)) (PList [PInt 0; PInt 0; PInt 1; PInt 1])
        (Str.strip (u "B")) (own_type grid_fields)
  ∈ parse_mineru_layout_from_data
      (PList [PList []; PStr (u "x"); PList [PInt 7; PDict grid_fields]]).
Proof.
  assert (parse_mineru_layout_from_data
            (PList [PList []; PStr (u "x"); PList [PInt 7; PDict grid_fields]]) ≠ [])
    as Hne.
  { assert (parse_mineru_layout_from_data
              (PList [PList []; PStr (u "x"); PList [PInt 7; PDict grid_fields]])
            = [Block (PInt 3) (PList [PInt 0; PInt 0; PInt 1; PInt 1]) (u "B")
                     (PStr (u "text"))]) as -> by (vm_compute; reflexivity).
    discriminate. }
  assert (PDict grid_fields ∈ [PInt 7; PDict grid_fields]) as Hin.
  { right. by left. }
  assert (lookup (u "content") grid_fields = Some (PStr (u "B"))) as Hcontent
    by (vm_compute; reflexivity).
  assert (blank (u "B") = false) as Hraw by (vm_compute; reflexivity).
  assert (lookup (u "bbox") grid_fields
          = Some (PList [PInt 0; PInt 0; PInt 1; PInt 1])) as Hbox
    by (vm_compute; reflexivity).
  assert (long_bbox (PList [PInt 0; PInt 0; PInt 1; PInt 1])) as Hlong.
  { split; [reflexivity|]. exists 4. split; [reflexivity|]. lia. }
  exact (page_grid_is_complete (PList []) [PStr (u "x"); PList [PInt 7; PDict grid_fields]]
           2 [PInt 7; PDict grid_fields] grid_fields (u "B")
           (PList [PInt 0; PInt 0; PInt 1; PInt 1])
           eq_refl Hne eq_refl Hin Hcontent Hraw Hbox Hlong).
Defined.

(** A loop whose body succeeds on every item. *)
Lemma mapM_map_Some {A B C} (f : B → option C) (g : A → B) (h : A → C) l :
  (∀ x, f (g x) = Some (h x)) → mapM f (map g l) = Some (map h l).
Proof.
  intros H. induction l as [|x l IH]; [done|].
  cbn [map mapM]. rewrite H. cbn [mbind option_bind]. rewrite IH. reflexivity.
Qed.

Lemma join_space_strings ss : join_space (map PStr ss) = Some (Str.join (u " ") ss).
Proof.
  unfold join_space. by rewrite (mapM_map_Some as_str PStr id), map_id.
Qed.

Lemma concat_lines (ls : list (list (list N))) :
  concat (map (λ spans, map PStr (List.filter Translator.nonempty spans)) ls)
  = map PStr (List.filter Translator.nonempty (concat ls)).
Proof.
  induction ls as [|l ls IH]; [done|].
  cbn [map concat]. by rewrite List.filter_app, map_app, IH.
Qed.

Lemma span_contents spans :
  mapM span_parts (map span_json spans)
  = Some (map (λ c, if Translator.nonempty c then [PStr c] else []) spans).
Proof. apply mapM_map_Some. intros c. by destruct c. Qed.

Lemma concat_contents spans :
  concat (map (λ c, if Translator.nonempty c then [PStr c] else []) spans)
  = map PStr (List.filter Translator.nonempty spans).
Proof.
  induction spans as [|c spans IH]; [done|].
  cbn [map concat List.filter]. rewrite IH. by destruct (Translator.nonempty c).
Qed.

Lemma line_contents spans :
  line_parts (line_json spans) = Some (map PStr (List.filter Translator.nonempty spans)).
Proof.
  unfold line_parts, line_json, get. cbn [is_dict].
  assert (lookup (u "spans") [(u "spans", PList (map span_json spans))]
          = Some (PList (map span_json spans))) as -> by (by vm_compute).
  cbn [from_option id mbind option_bind iter].
  rewrite span_contents. cbn [mbind option_bind]. by rewrite concat_contents.
Qed.

Lemma para_layout_spec page_no p :
  para_block (PInt page_no) (para_json p) = Some (para_layout page_no p).
Proof.
  unfold para_block, para_json, get.
  assert (∀ a b c, lookup (u "type") [(u "type", a); (u "bbox", b); (u "lines", c)] = Some a)
    as -> by (intros; by vm_compute).
  assert (∀ a b c, lookup (u "bbox") [(u "type", a); (u "bbox", b); (u "lines", c)] = Some b)
    as -> by (intros; by vm_compute).
  assert (∀ a b c, lookup (u "lines") [(u "type", a); (u "bbox", b); (u "lines", c)] = Some c)
    as -> by (intros; by vm_compute).
  cbn [from_option id mbind option_bind iter]. unfold para_layout, is_text_or_title, eq_str.
  destruct (bool_decide (para_type p = u "text") || bool_decide (para_type p = u "title"));
    [|done].
  cbn [negb andb]. unfold bbox_rejected. cbn [truthy len].
  destruct (para_bbox p) as [|x0 [|x1 [|x2 [|x3 box]]]] eqn:Hbox; try done.
  cbn [negb mbind option_bind length Nat.ltb Nat.leb].
  rewrite (mapM_map_Some line_parts line_json
             (λ spans, map PStr (List.filter Translator.nonempty spans)))
    by apply line_contents.
  cbn [mbind option_bind].
  rewrite concat_lines, join_space_strings.
  cbn [mbind option_bind]. unfold para_text.
  by destruct (Str.strip _).
Qed.

Lemma page_layout_spec pg : pdf_page (page_json pg) = Some (page_layout pg).
Proof.
  unfold pdf_page, page_json, get.
  assert (∀ a b, lookup (u "page_idx") [(u "page_idx", a); (u "para_blocks", b)] = Some a)
    as -> by (intros; by vm_compute).
  assert (∀ a b, lookup (u "para_blocks") [(u "page_idx", a); (u "para_blocks", b)] = Some b)
    as -> by (intros; by vm_compute).
  cbn [from_option id mbind option_bind add1]. unfold page_layout.
  destruct (page_paras pg) as [|p paras]; [done|].
  cbn [truthy negb len iter mbind option_bind].
  by rewrite (mapM_map_Some _ para_json (para_layout (page_index pg + 1)))
    by apply para_layout_spec.
Qed.

(** X25. On a [layout.json] of the shape the service writes (pages with
    an index and paragraphs; paragraphs with a type, a box and lines;
    lines with spans that have a content), the normalizer returns exactly
    one block for each paragraph of type "text" or "title" whose box has
    four entries or more and whose span contents, the empty ones left out,
    joined by spaces and stripped, are not empty: the block has the page
    index plus 1, the box, that text and the type, and the blocks come in
    the order of the pages and paragraphs.  No other paragraph gives a
    block. *)
Theorem layout_json_is_read_exactly (pages : list Page) :
  parse_mineru_layout_from_data (layout_json pages) = expected_layout pages.
Proof.
  unfold parse_mineru_layout_from_data, parse_try, layout_json.
  cbn [truthy negb has mbind option_bind].
  assert (∀ a, lookup (u "pdf_info") [(u "pdf_info", a)] = Some a) as Hl
    by (intros; by vm_compute).
  rewrite Hl, bool_decide_eq_true_2 by (by eexists).
  unfold from_pdf_info, get. rewrite Hl.
  cbn [from_option id mbind option_bind len iter].
  by rewrite (mapM_map_Some _ page_json page_layout) by apply page_layout_spec.
Qed.

End LayoutProperties.

(** ** The extension check *)

Section UploadProperties.

Import Upload.

Implicit Types s stem ext : list N.

Lemma contains_point c s : Str.contains [c] s = true ↔ c ∈ s.
Proof.
  induction s as [|b s IH]; simpl.
  - split; [discriminate|]. intros H. by apply elem_of_nil in H.
  - rewrite andb_true_r, orb_true_iff, IH, elem_of_cons, N.eqb_eq. done.
Qed.

Lemma rsplit1_absent c s : c ∉ s → rsplit1 c s = [s].
Proof.
  induction s as [|b s IH]; [done|].
  intros H. apply not_elem_of_cons in H as [Hb Hs]. cbn [rsplit1].
  rewrite (IH Hs). destruct (N.eqb_spec b c); [by subst|done].
Qed.

Lemma rsplit1_last c stem ext : c ∉ ext → rsplit1 c (stem ++ c :: ext) = [stem; ext].
Proof.
  intros H. induction stem as [|b stem IH].
  - cbn [app rsplit1]. rewrite (rsplit1_absent _ _ H).
    destruct ext; by rewrite N.eqb_refl.
  - cbn [app rsplit1]. by rewrite IH.
Qed.

(** X16. [allowed_file] looks at nothing but what follows the last dot of
    the name, and compares it without regard to case: a name is accepted
    exactly when that ending is "pdf" or "json" in any mix of cases.  What
    stands before the last dot does not matter (it may be empty, or hold
    other dots and separators), and a name without a dot is refused.  The
    function never raises. *)
Theorem allowed_file_reads_last_extension :
  (∀ stem ext, dot ∉ ext →
     allowed_file (stem ++ dot :: ext)
     = Some (bool_decide (Str.lower ext ∈ ALLOWED_EXTENSIONS)))
  ∧ (∀ filename, dot ∉ filename → allowed_file filename = Some false).
Proof.
  split.
  - intros stem ext H. unfold allowed_file.
    assert (Str.contains [dot] (stem ++ dot :: ext) = true) as ->.
    { apply contains_point, elem_of_app. right. by left. }
    by rewrite (rsplit1_last _ _ _ H).
  - intros filename H. unfold allowed_file.
    destruct (Str.contains [dot] filename) eqn:Hc; [|done].
    by apply contains_point in Hc.
Qed.

Lemma allowed_file_reads_last_extension_witness :
  allowed_file (u "paper.v2" ++ dot :: u "PDF")
  = Some (bool_decide (Str.lower (u "PDF") ∈ ALLOWED_EXTENSIONS))
  ∧ allowed_file (u "paper.pdf" ++ dot :: u "exe")
    = Some (bool_decide (Str.lower (u "exe") ∈ ALLOWED_EXTENSIONS))
  ∧ allowed_file (u "pdf") = Some false.
Proof.
  assert (∀ s, forallb (λ c, negb (c =? dot)%N) s = true → dot ∉ s) as Hno.
  { intros s Hs Hin. apply list_elem_of_In in Hin.
    rewrite forallb_forall in Hs. specialize (Hs _ Hin).
    by rewrite N.eqb_refl in Hs. }
  split; [|split].
  - apply (proj1 allowed_file_reads_last_extension). apply Hno. vm_compute. reflexivity.
  - apply (proj1 allowed_file_reads_last_extension). apply Hno. vm_compute. reflexivity.
  - apply (proj2 allowed_file_reads_last_extension). apply Hno. vm_compute. reflexivity.
Defined.

(** The two extensions in practice. *)
Example allowed_file_run :
  allowed_file (u "paper.PDF") = Some true
  ∧ allowed_file (u "layout.Json") = Some true
  ∧ allowed_file (u ".pdf") = Some true
  ∧ allowed_file (u "paper.pdf.exe") = Some false
  ∧ allowed_file (u "paper.pdf ") = Some false
  ∧ allowed_file (u "paper.") = Some false
  ∧ allowed_file (u "pdf") = Some false
  ∧ allowed_file [] = Some false.
Proof. vm_compute. repeat split; reflexivity. Qed.

End UploadProperties.

(** ** Translating a document *)

Section DocumentProperties.

Import Translator Document.

Implicit Types (w : world) (body : pyval → world → outcome pyval * world).

Example old_document_run :
  translate_mineru_json old_document (u "out/doc_zh.json") true (u "zh") None document_w0
  = (Done (old_document_done, Some (u "out/doc_zh.json", old_document_done)), document_w1).
Proof. vm_compute. reflexivity. Qed.

Lemma each_Forall2 (R : pyval → pyval → Prop) body :
  (∀ x w x' w', body x w = (Done x', w') → R x x') →
  ∀ items w items' w', each body items w = (Done items', w') → Forall2 R items items'.
Proof.
  intros Hbody. induction items as [|x items IH]; intros w items' w' H.
  - cbn [each] in H. injection H as <- <-. constructor.
  - cbn [each] in H.
    destruct (body x w) as [[x'|f] w1] eqn:Hx; [|discriminate H].
    destruct (each body items w1) as [[rest'|f] w2] eqn:Hrest; [|discriminate H].
    injection H as <- <-. constructor; [by eapply Hbody|by eapply IH].
Qed.

#[local] Instance request_eq_dec : EqDecision request.
Proof. solve_decision. Defined.

Lemma each_sent (P : pyval → Prop) body :
  (∀ x w r w', body x w = (r, w') → sent w' ≠ sent w → P x) →
  ∀ items w r w', each body items w = (r, w') → sent w' ≠ sent w →
  ∃ x, x ∈ items ∧ P x.
Proof.
  intros Hbody. induction items as [|x items IH]; intros w r w' H Hsent.
  - cbn [each] in H. by injection H as <- <-.
  - cbn [each] in H.
    destruct (body x w) as [[x'|f] w1] eqn:Hx.
    + destruct (decide (sent w1 = sent w)) as [Heq|Hne].
      * destruct (each body items w1) as [[rest'|f] w2] eqn:Hrest.
        all: injection H as <- <-.
        all: destruct (IH _ _ _ Hrest) as (y & Hy & HP); [by rewrite Heq|].
        all: exists y; split; [by right|done].
      * exists x. split; [by left|]. by eapply Hbody.
    + injection H as <- <-. exists x. split; [by left|]. by eapply Hbody.
Qed.

Lemma iter_strings v items x :
  iter v = Some items → x ∈ items → is_dict x = true → ∃ l, v = PList l.
Proof.
  destruct v as [| | | |s|l|d]; try discriminate; intros [= <-] Hx Hd.
  - apply list_elem_of_fmap in Hx as (c & -> & _). discriminate Hd.
  - by exists l.
  - apply list_elem_of_fmap in Hx as (kv & -> & _). discriminate Hd.
Qed.

Lemma for_each_of_sent (P : list (list N * pyval) → Prop) k body v w r w' :
  (∀ x w r w', body x w = (r, w') → sent w' ≠ sent w → ∃ f, x = PDict f ∧ P f) →
  for_each_of k body v w = (r, w') → sent w' ≠ sent w →
  ∃ d items f, v = PDict d ∧ lookup k d = Some (PList items)
    ∧ PDict f ∈ items ∧ P f.
Proof.
  intros Hbody H Hsent. unfold for_each_of in H.
  destruct v as [| | | | | |d]; try (by injection H as <- <-).
  destruct (lookup k d) as [v|] eqn:Hk; [|by injection H as <- <-].
  unfold for_each in H.
  destruct (iter v) as [items|] eqn:Hiter; [|by injection H as <- <-].
  destruct (each body items w) as [r0 w1] eqn:Heach.
  assert (w1 = w') as -> by (destruct r0; by injection H as _ <-).
  destruct (each_sent (λ x, ∃ f, x = PDict f ∧ P f) body Hbody _ _ _ _ Heach Hsent)
    as (x & Hx & f & -> & HP).
  destruct (iter_strings _ _ _ Hiter Hx eq_refl) as [l ->].
  injection Hiter as <-. by exists d, l, f.
Qed.

Lemma translate_block_sent target_lang model block w r w' :
  translate_block target_lang model block w = (r, w') → sent w' ≠ sent w →
  ∃ f, block = PDict f ∧ lookup (u "type") f = Some (PStr (u "text")).
Proof.
  unfold translate_block. intros H Hsent.
  destruct block as [| | | | | |f]; try (by injection H as <- <-).
  exists f. split; [done|]. unfold get in H.
  destruct (lookup (u "type") f) as [[| | | |ty| |]|]; simpl in H;
    try (by injection H as <- <-).
  destruct (bool_decide (ty = u "text")) eqn:Hty; [|by injection H as <- <-].
  by apply bool_decide_eq_true in Hty as ->.
Qed.

Lemma set_item_same k v d : lookup k d = Some v → set_item k v d = d.
Proof.
  induction d as [|[k' v'] d IH]; simpl; [done|].
  destruct (decide (k = k')) as [->|Hne]; [by intros [= ->]|].
  intros H. by rewrite IH.
Qed.

Lemma for_each_of_done (R : pyval → pyval → Prop) k body v w v' w' :
  (∀ x w x' w', body x w = (Done x', w') → R x x') →
  for_each_of k body v w = (Done v', w') →
  items_translated R k v v'.
Proof.
  intros Hbody H. unfold for_each_of in H. unfold items_translated.
  destruct v as [| | | | | |d]; try discriminate H.
  destruct (lookup k d) as [v|] eqn:Hk; [|by injection H as <- <-].
  unfold for_each in H.
  destruct (iter v) as [items|] eqn:Hiter; [|discriminate H].
  destruct (each body items w) as [[items'|f] w1] eqn:Heach; [|discriminate H].
  injection H as <- <-.
  destruct v as [| | | |s|l|d0]; try discriminate Hiter.
  - by rewrite (set_item_same _ _ _ Hk).
  - injection Hiter as <-. exists items'. split; [|done].
    by apply (each_Forall2 R body Hbody) in Heach.
  - by rewrite (set_item_same _ _ _ Hk).
Qed.

Lemma original_text_stripped lines t : original_text lines = Some t → Str.strip t = t.
Proof.
  unfold original_text. intros H.
  destruct (iter lines) as [items|]; [|discriminate H]. cbn [mbind option_bind] in H.
  destruct (mapM _ _) as [texts|]; [|discriminate H]. cbn [mbind option_bind] in H.
  destruct (join_space texts) as [joined|]; [|discriminate H].
  cbn [mbind option_bind] in H. injection H as <-. apply strip_strip.
Qed.

Lemma translate_block_done target_lang model block w block' w' :
  translate_block target_lang model block w = (Done block', w') →
  block_translated block block'.
Proof.
  unfold translate_block, block_translated, wants_translation. intros H.
  destruct (get block (u "type") PNone) as [ty|]; [|discriminate H].
  destruct (eq_str ty (u "text")); cbn [andb]; [|by injection H as <- _].
  destruct (lines ← get block (u "lines") (PList []); original_text lines)
    as [text|] eqn:Htext; [|discriminate H].
  assert (Str.strip text = text) as Hstrip.
  { destruct (get block (u "lines") (PList [])) as [lines|]; [|discriminate Htext].
    by apply original_text_stripped with lines. }
  destruct text as [|c text]; cbn [nonempty] in H; [by injection H as <- _|].
  destruct (translate_with_llm _ _ _ _) as [[v|e] w1] eqn:Hrun; [|discriminate H].
  injection H as <- <-. exists v. split; [|done].
  assert (nonempty v = true) as Hv; [|by destruct v].
  eapply translate_nonempty; [|exact Hrun].
  destruct (blank (c :: text)) eqn:Hb; [|done].
  apply strip_nil in Hb. congruence.
Qed.

(** X17. [translate_mineru_json] sends text to the endpoint only for the
    blocks of type "text" of the pages of a document of the old format:
    when a call has sent anything, the document is a dict whose "pages" is
    a list, with a page whose "blocks" is a list that holds a block of the
    type "text".  For a document without a list under "pages" (a
    [layout.json], a content list, a page grid) and for a document without
    a block of that type it sends nothing. *)
Theorem only_text_blocks_are_sent (data : pyval) (output_path : list N) (writable : bool)
    (target_lang : list N) (model : option (list N)) (w : world) r w' :
  translate_mineru_json data output_path writable target_lang model w = (r, w') →
  sent w' ≠ sent w →
  ∃ items pages page_fields blocks block_fields,
    data = PDict items ∧ lookup (u "pages") items = Some (PList pages)
    ∧ PDict page_fields ∈ pages
    ∧ lookup (u "blocks") page_fields = Some (PList blocks)
    ∧ PDict block_fields ∈ blocks
    ∧ lookup (u "type") block_fields = Some (PStr (u "text")).
Proof.
  unfold translate_mineru_json, translate_pages. intros H Hsent.
  destruct (for_each_of _ _ data w) as [r0 w1] eqn:Hrun.
  assert (w1 = w') as ->.
  { destruct r0; [|by injection H as _ <-].
    destruct (nonempty output_path), writable; by injection H as _ <-. }
  clear H.
  assert (∀ page w r w',
            translate_page target_lang model page w = (r, w') → sent w' ≠ sent w →
            ∃ page_fields, page = PDict page_fields
              ∧ ∃ blocks block_fields,
                  lookup (u "blocks") page_fields = Some (PList blocks)
                  ∧ PDict block_fields ∈ blocks
                  ∧ lookup (u "type") block_fields = Some (PStr (u "text"))) as Hbody.
  { intros page w0 r1 w2 Hpage Hsent2. unfold translate_page in Hpage.
    destruct (for_each_of_sent (λ f, lookup (u "type") f = Some (PStr (u "text")))
                _ _ _ _ _ _ (translate_block_sent target_lang model) Hpage Hsent2)
      as (fields & blocks & f & -> & ? & ? & ?).
    exists fields. split; [done|]. by exists blocks, f. }
  destruct (for_each_of_sent _ _ _ _ _ _ _ Hbody Hrun Hsent)
    as (items & pages & page_fields & -> & Hpages & Hpage & blocks & block_fields
        & Hblocks & Hblock & Htype).
  by exists items, pages, page_fields, blocks, block_fields.
Qed.

Lemma only_text_blocks_are_sent_witness :
  ∃ items pages page_fields blocks block_fields,
    old_document = PDict items ∧ lookup (u "pages") items = Some (PList pages)
    ∧ PDict page_fields ∈ pages
    ∧ lookup (u "blocks") page_fields = Some (PList blocks)
    ∧ PDict block_fields ∈ blocks
    ∧ lookup (u "type") block_fields = Some (PStr (u "text")).
Proof.
  assert (sent document_w1 ≠ sent document_w0) as Hsent.
  { intros H. vm_compute in H. discriminate H. }
  exact (only_text_blocks_are_sent old_document (u "out/doc_zh.json") true (u "zh") None
           document_w0 _ document_w1 old_document_run Hsent).
Defined.

(** X18. The document [translate_mineru_json] returns is the one it was
    given, with a [translated_text] that is not empty set on every block
    of type "text" whose lines have text, and with nothing else changed:
    the same pages and blocks in the same order, every other key as it
    was.  What it writes to the output file is that document. *)
Theorem document_keeps_its_shape (data : pyval) (output_path : list N) (writable : bool)
    (target_lang : list N) (model : option (list N)) (w : world) data' saved w' :
  translate_mineru_json data output_path writable target_lang model w
    = (Done (data', saved), w') →
  document_translated data data'
  ∧ saved = (if nonempty output_path then Some (output_path, data') else None).
Proof.
  unfold translate_mineru_json, translate_pages. intros H.
  destruct (for_each_of _ _ data w) as [[data1|f] w1] eqn:Hrun; [|discriminate H].
  assert (data1 = data'
          ∧ saved = (if nonempty output_path then Some (output_path, data') else None))
    as [-> Hsaved].
  { destruct (nonempty output_path); [destruct writable|]; by simplify_eq. }
  split; [|exact Hsaved].
  refine (for_each_of_done page_translated _ _ _ _ _ _ _ Hrun).
  intros page w0 page' w2 Hpage. unfold translate_page in Hpage.
  refine (for_each_of_done block_translated _ _ _ _ _ _ _ Hpage).
  intros. by eapply translate_block_done.
Qed.

Lemma document_keeps_its_shape_witness :
  document_translated old_document old_document_done
  ∧ Some (u "out/doc_zh.json", old_document_done)
    = (if nonempty (u "out/doc_zh.json")
       then Some (u "out/doc_zh.json", old_document_done) else None).
Proof.
  exact (document_keeps_its_shape old_document (u "out/doc_zh.json") true (u "zh") None
           document_w0 old_document_done _ document_w1 old_document_run).
Defined.

End DocumentProperties.

(** ** The calls of the parsing service *)

Section ApiProperties.

Import Api.

Implicit Types (w : world) (kwargs : list (list N * pyval)).

Lemma get_mineru_headers_spec c :
  get_mineru_headers c
  = if decide (MINERU_TOKEN c = []) then None else Some (bearer_headers c).
Proof.
  unfold get_mineru_headers, bearer_headers.
  destruct (MINERU_TOKEN c); [by rewrite decide_True|by rewrite decide_False].
Qed.

Lemma call_step req w reply w' :
  call req w = (reply, w') → config w' = config w ∧ sent w' = sent w ++ [req].
Proof. unfold call. by intros [= <- <-]. Qed.



(** The keys of the request body, one parameter after the other. *)
Lemma lookup_optional kwargs k params :
  ∀ data,
  lookup k (fold_left
              (λ data param,
                 match lookup param kwargs with
                 | Some v => set_item param v data
                 | None => data
                 end) params data)
  = match (if decide (k ∈ params) then lookup k kwargs else None) with
    | Some v => Some v
    | None => lookup k data
    end.
Proof.
  induction params as [|p params IH]; intros data.
  - cbn [fold_left]. by rewrite decide_False by apply not_elem_of_nil.
  - cbn [fold_left]. rewrite IH.
    destruct (decide (k ∈ params)) as [Hin|Hout].
    + rewrite decide_True by (by right).
      destruct (lookup k kwargs) as [v|] eqn:Hk; [done|].
      destruct (lookup p kwargs) as [v|] eqn:Hp; [|done].
      apply lookup_set_item_ne. by intros ->; congruence.
    + destruct (decide (k = p)) as [->|Hne].
      * rewrite decide_True by (by left).
        destruct (lookup p kwargs) as [v|] eqn:Hp; [|done].
        by rewrite lookup_set_item.
      * rewrite decide_False by (by intros [?|?]%elem_of_cons).
        destruct (lookup p kwargs) as [v|] eqn:Hp; [|done].
        by apply lookup_set_item_ne.
Qed.

(** X20. The body [create_extract_task] posts holds the address of the
    file, the version of the model (the given one, the configured one when
    none is given) and, of the keyword arguments, those and only those
    whose name is one of the nine optional parameters, each with the value
    it was given; every other keyword argument is dropped. *)
Theorem task_body_is_filtered w (file_url : list N) (model_version : option (list N))
    kwargs :
  MINERU_TOKEN (config w) ≠ [] →
  ∃ data,
    sent (create_extract_task file_url model_version kwargs w).2
    = sent w ++ [Http POST (MINERU_BASE_URL (config w) ++ u "/extract/task")
                      (bearer_headers (config w)) (Some (PDict data))]
    ∧ ∀ k,
        lookup k data
        = if decide (k = u "url") then Some (PStr file_url)
          else if decide (k = u "model_version")
               then Some (PStr (version_or model_version (config w)))
               else if decide (k ∈ optional_params) then lookup k kwargs else None.
Proof.
  intros Htoken. exists (task_data file_url (version_or model_version (config w)) kwargs).
  split.
  - unfold create_extract_task, call. rewrite get_mineru_headers_spec.
    rewrite decide_False by done. by repeat case_match.
  - intros k. unfold task_data. rewrite lookup_optional. cbn [lookup].
    destruct (decide (k = u "url")) as [->|Hurl].
    { rewrite decide_False; [done|]. apply (bool_decide_unpack _). by vm_compute. }
    destruct (decide (k = u "model_version")) as [->|Hversion].
    { rewrite decide_False; [done|]. apply (bool_decide_unpack _). by vm_compute. }
    by destruct (decide (k ∈ optional_params)); [destruct (lookup k kwargs)|].
Qed.

Lemma task_body_is_filtered_witness :
  ∃ data,
    sent accepting_world_done
    = sent accepting_world
      ++ [Http POST (MINERU_BASE_URL (config accepting_world) ++ u "/extract/task")
               (bearer_headers (config accepting_world)) (Some (PDict data))]
    ∧ ∀ k,
        lookup k data
        = if decide (k = u "url") then Some (PStr (u "https://example.org/a.pdf"))
          else if decide (k = u "model_version")
               then Some (PStr (version_or None (config accepting_world)))
               else if decide (k ∈ optional_params)
                    then lookup k [(u "is_ocr", PBool true); (u "secret", PStr (u "x"))]
                    else None.
Proof.
  assert (MINERU_TOKEN (config accepting_world) ≠ []) as Htoken by (by vm_compute).
  exact (task_body_is_filtered accepting_world (u "https://example.org/a.pdf") None
           [(u "is_ocr", PBool true); (u "secret", PStr (u "x"))] Htoken).
Defined.

Example accepting_run :
  create_extract_task (u "https://example.org/a.pdf") None
    [(u "is_ocr", PBool true); (u "secret", PStr (u "x"))] accepting_world
  = (Ok (PDict [(u "task_id", PStr (u "t-1"))]), accepting_world_done).
Proof. vm_compute. reflexivity. Qed.

(** X21. [create_extract_task] returns the data of a reply only when the
    service has answered with the code 0 and a task id that is truthy: what
    it returns is the "data" of that reply, and its "task_id" is truthy.  A
    reply with another code, or without one, makes it raise with the "msg"
    of the reply ("未知错误" when there is none), and a reply with the code
    0 whose data has no task id makes it raise as well. *)
Theorem task_is_created_with_an_id w (file_url : list N) (model_version : option (list N))
    kwargs :
  (∀ data w',
     create_extract_task file_url model_version kwargs w = (Ok data, w') →
     ∃ result code task_id,
       network w (length (sent w)) (task_request w file_url model_version kwargs)
         = Json result
       ∧ get result (u "code") PNone = Some code ∧ ne_zero code = false
       ∧ get result (u "data") (PDict []) = Some data
       ∧ get data (u "task_id") PNone = Some task_id ∧ truthy task_id = true)
  ∧ (∀ result code,
       MINERU_TOKEN (config w) ≠ [] →
       network w (length (sent w)) (task_request w file_url model_version kwargs)
         = Json result →
       get result (u "code") PNone = Some code →
       (ne_zero code = true →
        (create_extract_task file_url model_version kwargs w).1
        = Raise (ApiError (default PNone (get result (u "msg") (PStr (u "未知错误"))))))
       ∧ (ne_zero code = false →
          ∀ data, get result (u "data") (PDict []) = Some data →
          get data (u "task_id") PNone = Some PNone →
          (create_extract_task file_url model_version kwargs w).1 = Raise NoTaskId)).
Proof.
  unfold create_extract_task, task_request, call. rewrite get_mineru_headers_spec.
  split.
  - intros data w' H.
    destruct (decide (MINERU_TOKEN (config w) = [])); [discriminate H|].
    destruct (network w _ _) as [?|result] eqn:Hreply; [discriminate H|].
    unfold check_code, data_of in H.
    destruct (get result (u "code") PNone) as [code|] eqn:Hget; [|discriminate H].
    destruct (ne_zero code) eqn:Hcode; [discriminate H|].
    destruct (get result (u "data") (PDict [])) as [data0|] eqn:Hdata; [|discriminate H].
    destruct (get data0 (u "task_id") PNone) as [task_id|] eqn:Hid; [|discriminate H].
    destruct (truthy task_id) eqn:Htruthy; [|discriminate H].
    injection H as <- <-. by exists result, code, task_id.
  - intros result code Htoken Hreply Hcode.
    rewrite decide_False by done. rewrite Hreply. unfold check_code, data_of.
    rewrite Hcode. split.
    + by intros ->.
    + intros -> data Hdata Hid. by rewrite Hdata, Hid.
Qed.

Lemma task_is_created_with_an_id_witness :
  ∃ result code task_id,
    network accepting_world (length (sent accepting_world))
      (task_request accepting_world (u "https://example.org/a.pdf") None
         [(u "is_ocr", PBool true); (u "secret", PStr (u "x"))])
    = Json result
    ∧ get result (u "code") PNone = Some code ∧ ne_zero code = false
    ∧ get result (u "data") (PDict []) = Some (PDict [(u "task_id", PStr (u "t-1"))])
    ∧ get (PDict [(u "task_id", PStr (u "t-1"))]) (u "task_id") PNone = Some task_id
    ∧ truthy task_id = true.
Proof.
  exact (proj1 (task_is_created_with_an_id accepting_world (u "https://example.org/a.pdf")
                  None [(u "is_ocr", PBool true); (u "secret", PStr (u "x"))])
           _ _ accepting_run).
Defined.

End ApiProperties.

(** ** The pace of the polls *)

Section PollingProperties.

Import Mineru.

Lemma wait_loop_pace fuel start max_wait_time poll_interval :
  (0 ≤ poll_interval)%Z →
  ∀ w o w',
  wait_loop fuel start max_wait_time poll_interval w = Some (o, w') →
  service w' = service w ∧ polls w < polls w'
  ∧ (Z.of_nat (polls w' - polls w - 1) * poll_interval ≤ clock w' - clock w)%Z.
Proof.
  intros Hpos. induction fuel as [|fuel IH]; intros w o w' H; [discriminate H|].
  cbn [wait_loop] in H. unfold get_task_result in H.
  destruct (service w (polls w)) as [r d] eqn:Hservice.
  pose proof (N2Z.is_nonneg d) as Hd.
  assert (∀ w1 : world,
            service w1 = service w → polls w1 = S (polls w) →
            (clock w1 = clock w + Z.of_N d)%Z →
            service w1 = service w ∧ polls w < polls w1
            ∧ (Z.of_nat (polls w1 - polls w - 1) * poll_interval
               ≤ clock w1 - clock w)%Z) as Hnow.
  { intros w1 Hs Hp Hc. split; [done|]. split; [lia|].
    rewrite Hp, Hc. replace (S (polls w) - polls w - 1) with 0 by lia. lia. }
  assert (∀ w1 : world,
            service w1 = service w → polls w1 = S (polls w) →
            (clock w1 = clock w + Z.of_N d + poll_interval)%Z →
            wait_loop fuel start max_wait_time poll_interval w1 = Some (o, w') →
            service w' = service w ∧ polls w < polls w'
            ∧ (Z.of_nat (polls w' - polls w - 1) * poll_interval
               ≤ clock w' - clock w)%Z) as Hlater.
  { intros w1 Hs Hp Hc Hrun. apply IH in Hrun as (Hs' & Hp' & Hc').
    split; [by rewrite Hs', Hs|]. split; [lia|].
    replace (polls w' - polls w - 1) with (S (polls w' - polls w1 - 1)) by lia.
    rewrite Nat2Z.inj_succ. lia. }
  destruct r as [|result]; [injection H as <- <-; by apply Hnow|].
  destruct (get result (u "state") (PStr [])) as [state|];
    [|injection H as <- <-; by apply Hnow].
  destruct (eq_str state (u "done")); [injection H as <- <-; by apply Hnow|].
  destruct (eq_str state (u "failed")); [injection H as <- <-; by apply Hnow|].
  unfold sleep, warn in H.
  destruct (Z.ltb_spec poll_interval 0); [lia|].
  destruct (in_progress state).
  - destruct (_ <? _)%Z; [injection H as <- <-; by apply Hnow|].
    destruct (show_progress result); [|injection H as <- <-; by apply Hnow].
    by eapply Hlater; [..|exact H].
  - by eapply Hlater; [..|exact H].
Qed.

(** X22. [wait_for_task_completion] never polls faster than its interval:
    with an interval that is not negative, when the function ends after n
    polls, at least n - 1 intervals have gone by since it was called, and
    it has polled at least once. *)
Theorem polls_are_paced fuel max_wait_time poll_interval w o w' :
  (0 ≤ poll_interval)%Z →
  wait_for_task_completion fuel max_wait_time poll_interval w = Some (o, w') →
  polls w < polls w'
  ∧ (Z.of_nat (polls w' - polls w - 1) * poll_interval ≤ clock w' - clock w)%Z.
Proof.
  intros Hpos H. unfold wait_for_task_completion in H.
  by apply wait_loop_pace in H as (_ & ? & ?).
Qed.

Lemma polls_are_paced_witness :
  polls (polling_world "running") < polls (World 2 (always_in_state "running") 3 [])
  ∧ (Z.of_nat (polls (World 2 (always_in_state "running") 3 [])
               - polls (polling_world "running") - 1) * 1
     ≤ clock (World 2 (always_in_state "running") 3 [])
       - clock (polling_world "running"))%Z.
Proof.
  assert (wait_for_task_completion 3 1 1 (polling_world "running")
          = Some (TimedOut, World 2 (always_in_state "running") 3 [])) as Hrun
    by (vm_compute; reflexivity).
  exact (polls_are_paced 3 1 1 (polling_world "running") TimedOut
           (World 2 (always_in_state "running") 3 []) ltac:(lia) Hrun).
Defined.

Lemma eq_str_true v s : eq_str v s = true → v = PStr s.
Proof.
  destruct v; try discriminate. simpl. by intros ->%bool_decide_eq_true.
Qed.

Lemma wait_loop_reflects fuel start max_wait_time poll_interval :
  ∀ w o w',
  wait_loop fuel start max_wait_time poll_interval w = Some (o, w') →
  service w' = service w ∧ polls w < polls w'
  ∧ reflects o (service w (polls w' - 1)).1 max_wait_time (clock w' - start).
Proof.
  induction fuel as [|fuel IH]; intros w o w' H; [discriminate H|].
  cbn [wait_loop] in H. unfold get_task_result in H.
  destruct (service w (polls w)) as [r d] eqn:Hservice.
  assert (∀ w1 : world,
            service w1 = service w → polls w1 = S (polls w) →
            wait_loop fuel start max_wait_time poll_interval w1 = Some (o, w') →
            service w' = service w ∧ polls w < polls w'
            ∧ reflects o (service w (polls w' - 1)).1 max_wait_time (clock w' - start))
    as Hlater.
  { intros w1 Hs Hp Hrun. apply IH in Hrun as (Hs' & Hp' & Hr).
    split; [by rewrite Hs', Hs|]. split; [lia|]. by rewrite <- Hs. }
  assert (polls w < S (polls w)) as Hlt by lia.
  assert ((service w (S (polls w) - 1)).1 = r) as Hlast.
  { replace (S (polls w) - 1) with (polls w) by lia. by rewrite Hservice. }
  destruct r as [|result];
    [injection H as <- <-; cbn [service polls]; by rewrite Hlast|].
  destruct (get result (u "state") (PStr [])) as [state|] eqn:Hstate;
    [|injection H as <- <-; cbn [service polls]; by rewrite Hlast].
  destruct (eq_str state (u "done")) eqn:Hdone.
  { injection H as <- <-. cbn [service polls clock]. rewrite Hlast.
    apply eq_str_true in Hdone as ->. by repeat split. }
  destruct (eq_str state (u "failed")) eqn:Hfailed.
  { injection H as <- <-. cbn [service polls clock]. rewrite Hlast.
    apply eq_str_true in Hfailed as ->.
    split; [done|]. split; [done|]. exists result. split; [done|]. split; [done|].
    unfold get in *. by destruct result. }
  unfold sleep, warn in H. cbn [clock] in H.
  destruct (in_progress state) eqn:Hprogress.
  - destruct (Z.ltb_spec max_wait_time (clock w + Z.of_N d - start)).
    { injection H as <- <-. cbn [service polls clock]. rewrite Hlast.
      split; [done|]. split; [done|]. split; [done|]. by exists result, state. }
    destruct (show_progress result);
      [|injection H as <- <-; cbn [service polls]; by rewrite Hlast].
    destruct (poll_interval <? 0)%Z;
      [injection H as <- <-; cbn [service polls]; by rewrite Hlast|].
    by eapply Hlater; [..|exact H].
  - destruct (poll_interval <? 0)%Z;
      [injection H as <- <-; cbn [service polls]; by rewrite Hlast|].
    by eapply Hlater; [..|exact H].
Qed.

(** X23. However [wait_for_task_completion] ends, it ends on what its
    last poll has answered.  A result is returned only when that answer
    has the state "done", and it is that answer; the failure of the task is
    raised only when the answer has the state "failed", with its "err_msg";
    and the timeout is raised only when the answer has one of the states
    "pending", "running" and "converting" and more than [max_wait_time] has
    gone by since the call. *)
Theorem outcome_reflects_last_poll fuel max_wait_time poll_interval w o w' :
  wait_for_task_completion fuel max_wait_time poll_interval w = Some (o, w') →
  polls w < polls w'
  ∧ reflects o (service w (polls w' - 1)).1 max_wait_time (clock w' - clock w).
Proof.
  unfold wait_for_task_completion. intros H.
  by apply wait_loop_reflects in H as (_ & ? & ?).
Qed.

Lemma outcome_reflects_last_poll_witness :
  polls (polling_world "running") < polls (World 2 (always_in_state "running") 3 [])
  ∧ reflects TimedOut
      (service (polling_world "running")
         (polls (World 2 (always_in_state "running") 3 []) - 1)).1
      1 (clock (World 2 (always_in_state "running") 3 [])
         - clock (polling_world "running")).
Proof.
  assert (wait_for_task_completion 3 1 1 (polling_world "running")
          = Some (TimedOut, World 2 (always_in_state "running") 3 [])) as Hrun
    by (vm_compute; reflexivity).
  exact (outcome_reflects_last_poll 3 1 1 (polling_world "running") TimedOut
           (World 2 (always_in_state "running") 3 []) Hrun).
Defined.

End PollingProperties.


(** ** The embedding at work *)

Section Examples.

Import Layout.

Local Open Scope string_scope.

(** A content list: a heading (level 1), an image without text, and a
    text whose box has three items. *)
Example content_list_run :
  parse_mineru_layout_from_data
    (jarr [jobj [("type", jstr "text"); ("text", jstr " Title "); ("text_level", jint 1);
                 ("bbox", jarr [jint 0; jint 0; jint 1; jint 1]); ("page_idx", jint 2)];
           jobj [("type", jstr "image"); ("img_path", jstr "x.jpg"); ("page_idx", jint 2)];
           jobj [("type", jstr "text"); ("text", jstr "body");
                 ("bbox", jarr [jint 1; jint 2; jint 3]); ("page_idx", jint 2)]])
  = [Block (jint 3) (jarr [jint 0; jint 0; jint 1; jint 1]) (u "Title") (jstr "title")].
Proof. vm_compute. reflexivity. Qed.

(** An item that is no dict raises inside the loop: nothing is returned,
    not even the blocks found before it. *)
Example content_list_raises :
  parse_mineru_layout_from_data
    (jarr [jobj [("text", jstr "a"); ("page_idx", jint 0);
                 ("bbox", jarr [jint 0; jint 0; jint 1; jint 1])];
           jint 5])
  = [].
Proof. vm_compute. reflexivity. Qed.

(** A page grid: the page is the position in the outer list, and an outer
    item that is no list is passed over. *)
Example model_run :
  parse_mineru_layout_from_data
    (jarr [jarr [jobj [("type", jstr "title"); ("content", jstr "A");
                       ("bbox", jarr [jint 0; jint 0; PFloat 0.5; PFloat 0.5])]];
           jstr "x";
           jarr [jobj [("content", jstr "B");
                       ("bbox", jarr [jint 0; jint 0; jint 1; jint 1])]]])
  = [Block (jint 1) (jarr [jint 0; jint 0; PFloat 0.5; PFloat 0.5]) (u "A") (jstr "title");
     Block (jint 3) (jarr [jint 0; jint 0; jint 1; jint 1]) (u "B") (jstr "text")].
Proof. vm_compute. reflexivity. Qed.

(** The old format: no page number field, no box, and a line with both
    "text" and "content". *)
Example legacy_run :
  parse_mineru_layout_from_data
    (jobj [("pages", jarr [jobj [
       ("page_idx", jint 4);
       ("blocks", jarr [jobj [
          ("type", jstr "title");
          ("lines", jarr [jobj [("content", jstr "Head")];
                          jobj [("text", jstr "line"); ("content", jstr "ignored")]])]])]])])
  = [Block (jint 5) zero_rect (u "Head line") (jstr "title")].
Proof. vm_compute. reflexivity. Qed.

(** Inputs of no known format, and inputs on which a test raises. *)
Example unknown_formats :
  parse_mineru_layout_from_data (jobj [("foo", jint 1)]) = []
  ∧ parse_mineru_layout_from_data (jint 5) = []
  ∧ parse_mineru_layout_from_data (jstr "pdf_info") = []
  ∧ parse_mineru_layout_from_data (jarr [jint 1; jint 2]) = []
  ∧ parse_mineru_layout_from_data (jobj [("pdf_info", PNone)]) = [].
Proof. repeat split; vm_compute; reflexivity. Qed.

(** A page index that is a string cannot be added to 1. *)
Example page_idx_string :
  parse_mineru_layout_from_data
    (jobj [("pdf_info", jarr [jobj [
       ("page_idx", jstr "0");
       ("para_blocks", jarr [jobj [
          ("type", jstr "text"); ("bbox", jarr [jint 0; jint 0; jint 1; jint 1]);
          ("lines", jarr [jobj [("spans", jarr [jobj [("content", jstr "a")]])]])]])]])])
  = [].
Proof. vm_compute. reflexivity. Qed.

(** A rejected key: the failure is classified, wrapped and logged twice. *)
Example unauthorized_call :
  let w := uncached_world qwen_config
             (λ _, Translator.CallRaises (u "AuthenticationError") (u "Error code: 401")) in
  let run := Translator.translate_with_llm (u "Hello") (u "zh") None w in
  run.1 = Translator.Raise (Translator.Exn (u "Exception")
            (u "翻译失败: API密钥无效或已过期，请检查QWEN_API_KEY配置。错误详情: Error code: 401"))
  ∧ Translator.log run.2
    = [Translator.ErrApiCall (u "Error code: 401");
       Translator.ErrTranslate
         (u "API密钥无效或已过期，请检查QWEN_API_KEY配置。错误详情: Error code: 401")].
Proof. vm_compute. split; reflexivity. Qed.

(** An answer made of whitespace: the text itself is returned, with a
    warning, and nothing is cached. *)
Example blank_answer :
  let w := fresh_world qwen_config (always "  ") in
  let run := Translator.translate_with_llm (u "Hello") (u "zh") None w in
  run.1 = Translator.Ok (u "Hello")
  ∧ Translator.log run.2 = [Translator.WarnEmptyResult]
  ∧ Translator.cache run.2 = Some (Translator.Store ∅).
Proof. vm_compute. repeat split; reflexivity. Qed.

(** The application as shipped: the write to the cache fails at every
    call, and the second call for the same text asks the endpoint again. *)
Example shipped_calls :
  let first := Translator.translate_with_llm hello zh None qwen_world in
  let second := Translator.translate_with_llm hello zh None first.2 in
  first.1 = Translator.Ok (u "你好，世界")
  ∧ second.1 = Translator.Ok (u "你好，世界")
  ∧ length (Translator.sent second.2) = 2
  ∧ Translator.log second.2 = [Translator.WarnCacheWrite; Translator.WarnCacheWrite]
  ∧ Translator.cache second.2 = Some Translator.Registry.
Proof. vm_compute. repeat split; reflexivity. Qed.

(** With a store, a call for another text is not served by the entry of
    the first: the keys differ and a second request goes out. *)
Example other_text_is_fetched :
  let first := Translator.translate_with_llm hello zh None
                 (fresh_world qwen_config (always "你好，世界")) in
  let second := Translator.translate_with_llm (u "Hello") zh None first.2 in
  Translator.get_translation_cache_key (u "Hello") zh
    = Some (u "1def93b0885ca3323fc70999b8fba5b2eb8ed117dae9370baad113350c6b7f19")
  ∧ Translator.get_translation_cache_key hello zh = Some hello_key
  ∧ length (Translator.sent first.2) = 1
  ∧ length (Translator.sent second.2) = 2.
Proof. vm_compute. repeat split; reflexivity. Qed.

(** With a store, the translation of "a_b" into "c" is what the call for
    "a" into "b_c" returns. *)
Example collision_in_a_store :
  let first := Translator.translate_with_llm (u "a_b") (u "c") None
                 (fresh_world qwen_config (always "甲")) in
  let second := Translator.translate_with_llm (u "a") (u "b_c") None first.2 in
  first.1 = Translator.Ok (u "甲") ∧ second.1 = Translator.Ok (u "甲")
  ∧ Translator.sent second.2 = Translator.sent first.2
  ∧ length (Translator.sent first.2) = 1.
Proof. vm_compute. repeat split; reflexivity. Qed.

(** The model given by the caller is used when it is not empty. *)
Example model_or_given :
  Translator.model_or (Some (u "qwen-max")) (u "qwen-turbo") = u "qwen-max"
  ∧ Translator.model_or (Some []) (u "qwen-turbo") = u "qwen-turbo"
  ∧ Translator.model_or None (u "qwen-turbo") = u "qwen-turbo".
Proof. repeat split; reflexivity. Qed.

(** A block that has a translation is skipped unless the caller forces a
    new one; a block without text is passed over and not counted. *)
Example skipped_blocks :
  let layout := jarr [jobj [("text", jstr "one"); ("translated_text", jstr "X")];
                      jobj [("text", jstr "  ")]] in
  (Batch.translate_layout layout (u "zh") None false
     (uncached_world qwen_config (always "译文"))).1
  = Batch.Success
      [jobj [("text", jstr "one"); ("translated_text", jstr "X")]; jobj [("text", jstr "  ")]]
      (Batch.Tally 0 1 0 None)
  ∧ (Batch.translate_layout layout (u "zh") None true
       (uncached_world qwen_config (always "译文"))).1
    = Batch.Success
        [jobj [("text", jstr "one"); ("translated_text", jstr "译文")];
         jobj [("text", jstr "  ")]]
        (Batch.Tally 1 0 0 None).
Proof. vm_compute. split; reflexivity. Qed.

(** A block that is no dict ends the request with an error. *)
Example malformed_block :
  (Batch.translate_layout (jarr [jstr "one"]) (u "zh") None false
     (uncached_world qwen_config (always "译文"))).1 = Batch.ServerError
  ∧ (Batch.translate_layout (jarr []) (u "zh") None false
       (uncached_world qwen_config (always "译文"))).1 = Batch.BadRequest.
Proof. vm_compute. split; reflexivity. Qed.

(** When it comes after a block with text, the request for that block has
    been sent before the error. *)
Example malformed_second_block :
  let run := Batch.translate_layout (jarr [text_block "one"; jstr "two"]) (u "zh") None false
               (uncached_world qwen_config (always "译文")) in
  run.1 = Batch.ServerError
  ∧ Translator.sent run.2 = [request_of (u "one") (u "zh") None qwen_config].
Proof. vm_compute. split; reflexivity. Qed.

(** A finished and a failed task. *)
Example finished_and_failed :
  Mineru.wait_for_task_completion 1 600 5 (polling_world "done")
    = Some (Mineru.Returned (jobj [("state", jstr "done")]),
            Mineru.World 0 (always_in_state "done") 1 [])
  ∧ Mineru.wait_for_task_completion 1 600 5 (polling_world "failed")
    = Some (Mineru.TaskFailed (jstr "解析失败"),
            Mineru.World 0 (always_in_state "failed") 1 []).
Proof. vm_compute. split; reflexivity. Qed.

End Examples.
